(** * ufoProcessor.ufoOperator: a shallow embedding of [UFOOperator]

    The development follows [Lib/ufoProcessor/ufoOperator.py]: Python values,
    the module-level memoization cache with its [memoize] decorator, the
    designspace document the operator wraps, and the operator's methods as
    computations over the module's globals and the receiver's attributes. *)

From Stdlib Require Import List String ZArith Bool Arith Lia DecimalString.
Import ListNotations.
Open Scope string_scope.
Open Scope list_scope.

Set Implicit Arguments.
Set Warnings "-register-all".

(** ** Python values *)

(** The values that reach the operator's methods as arguments, as location
    values and as parts of cache keys.  [bool] is a subclass of [int] in
    Python ([True == 1], [hash(True) == hash(1)]), so a boolean is the
    integer it equals; numbers are integers.  [PObj] is any other object,
    known by its identity.  A dict keeps its insertion order and has string
    keys (axis names, keyword names). *)
Inductive pyobj : Type :=
| PNone
| PInt (z : Z)
| PStr (s : string)
| PObj (id : nat)
| PTuple (items : list pyobj)
| PList (items : list pyobj)
| PDict (items : list (string * pyobj)).

Arguments PInt z%_Z.

Definition PTrue : pyobj := PInt 1.
Definition PFalse : pyobj := PInt 0.
Definition of_bool (b : bool) : pyobj := if b then PTrue else PFalse.

Definition dict : Type := list (string * pyobj).

(** Induction over values that goes through the nested lists. *)
Section pyobj_induction.
Variable P : pyobj -> Prop.
Hypothesis HNone : P PNone.
Hypothesis HInt : forall z, P (PInt z).
Hypothesis HStr : forall s, P (PStr s).
Hypothesis HObj : forall n, P (PObj n).
Hypothesis HTuple : forall l, Forall P l -> P (PTuple l).
Hypothesis HList : forall l, Forall P l -> P (PList l).
Hypothesis HDict : forall l, Forall (fun kv => P (snd kv)) l -> P (PDict l).

Fixpoint pyobj_nested_ind (o : pyobj) : P o :=
  match o with
  | PNone => HNone
  | PInt z => HInt z
  | PStr s => HStr s
  | PObj n => HObj n
  | PTuple l =>
      HTuple ((fix go (l : list pyobj) : Forall P l :=
                 match l with
                 | [] => Forall_nil P
                 | x :: r => Forall_cons x (pyobj_nested_ind x) (go r)
                 end) l)
  | PList l =>
      HList ((fix go (l : list pyobj) : Forall P l :=
                match l with
                | [] => Forall_nil P
                | x :: r => Forall_cons x (pyobj_nested_ind x) (go r)
                end) l)
  | PDict l =>
      HDict ((fix go (l : list (string * pyobj))
                : Forall (fun kv => P (snd kv)) l :=
                match l with
                | [] => Forall_nil _
                | kv :: r =>
                    Forall_cons kv (pyobj_nested_ind (snd kv)) (go r)
                end) l)
  end.
End pyobj_induction.

(** [a == b].  Structural: on numbers, strings, tuples and lists this is
    Python's equality; objects are equal when they are the same object; two
    dicts are compared entry by entry in insertion order. *)
Fixpoint py_eqb (a b : pyobj) : bool :=
  match a, b with
  | PNone, PNone => true
  | PInt x, PInt y => Z.eqb x y
  | PStr x, PStr y => String.eqb x y
  | PObj x, PObj y => Nat.eqb x y
  | PTuple xs, PTuple ys =>
      (fix go (xs ys : list pyobj) : bool :=
         match xs, ys with
         | [], [] => true
         | x :: xs', y :: ys' => py_eqb x y && go xs' ys'
         | _, _ => false
         end) xs ys
  | PList xs, PList ys =>
      (fix go (xs ys : list pyobj) : bool :=
         match xs, ys with
         | [], [] => true
         | x :: xs', y :: ys' => py_eqb x y && go xs' ys'
         | _, _ => false
         end) xs ys
  | PDict xs, PDict ys =>
      (fix go (xs ys : list (string * pyobj)) : bool :=
         match xs, ys with
         | [], [] => true
         | (k, x) :: xs', (k', y) :: ys' =>
             String.eqb k k' && py_eqb x y && go xs' ys'
         | _, _ => false
         end) xs ys
  | _, _ => false
  end.

(** [bool(obj)] *)
Definition truthy (o : pyobj) : bool :=
  match o with
  | PNone => false
  | PInt z => negb (Z.eqb z 0)
  | PStr s => negb (String.eqb s "")
  | PObj _ => true
  | PTuple l | PList l => negb (Nat.eqb (List.length l) 0)
  | PDict l => negb (Nat.eqb (List.length l) 0)
  end.

(** [hash(obj)] succeeds: lists and dicts are unhashable, a tuple is
    hashable when its items are. *)
Fixpoint hashable (o : pyobj) : bool :=
  match o with
  | PList _ | PDict _ => false
  | PTuple l =>
      (fix go (l : list pyobj) : bool :=
         match l with
         | [] => true
         | x :: r => hashable x && go r
         end) l
  | _ => true
  end.

(** ** Dicts *)

Fixpoint dict_get (k : string) (d : dict) : option pyobj :=
  match d with
  | [] => None
  | (k', v) :: r => if String.eqb k k' then Some v else dict_get k r
  end.

Definition dict_mem (k : string) (d : dict) : bool :=
  match dict_get k d with Some _ => true | None => false end.

(** [d[k] = v]: an existing key keeps its place. *)
Fixpoint dict_set (k : string) (v : pyobj) (d : dict) : dict :=
  match d with
  | [] => [(k, v)]
  | (k', v') :: r =>
      if String.eqb k k' then (k, v) :: r else (k', v') :: dict_set k v r
  end.

(** [del d[k]] for a key that is present. *)
Fixpoint dict_del (k : string) (d : dict) : dict :=
  match d with
  | [] => []
  | (k', v') :: r =>
      if String.eqb k k' then r else (k', v') :: dict_del k r
  end.

Definition str_mem (s : string) (l : list string) : bool :=
  existsb (String.eqb s) l.

(** [x in l] for a list of values. *)
Definition py_mem (x : pyobj) (l : list pyobj) : bool :=
  existsb (py_eqb x) l.

(** ** Cache keys: [immutify] *)

(** [immutify(obj)], the tuple returned, as the list of its items. *)
Fixpoint immutify (obj : pyobj) : list pyobj :=
  match obj with
  | PDict kvs =>
      (fix go (kvs : list (string * pyobj)) : list pyobj :=
         match kvs with
         | [] => []
         | (key, value) :: r => PStr key :: PTuple (immutify value) :: go r
         end) kvs
  | PList vs =>
      (fix go (vs : list pyobj) : list pyobj :=
         match vs with
         | [] => []
         | value :: r => immutify value ++ go r
         end) vs
  | _ => [obj]
  end.

(** ** Exceptions *)

Inductive exn : Type :=
| AttributeError (attribute : string)
| NameError (name : string)
| KeyError (key : pyobj)
| UnboundLocalError (name : string)
| TypeError
| IndexError
| AssertionError.

Inductive res (A : Type) : Type :=
| Ok (a : A)
| Raise (e : exn).

Arguments Ok {A} a.
Arguments Raise {A} e.

(** ** The designspace document and the fonts *)

(** An axis of the document.  A discrete axis is one that has the attribute
    [values]; [map_forward] is the descriptor's own method. *)
Module AxisDescriptor.
Record t : Type := {
  name : string;
  default : pyobj;
  values : option (list pyobj);
  map_forward : pyobj -> pyobj
}.
End AxisDescriptor.

Module SourceDescriptor.
Record t : Type := {
  name : option string;
  path : string;
  location : dict;
  layerName : option string;
  mutedGlyphNames : list string
}.
End SourceDescriptor.

Module InstanceDescriptor.
Record t : Type := {
  name : option string;
  location : dict;
  path : option string
}.
End InstanceDescriptor.

Module DesignSpaceDocument.
Record t : Type := {
  path : option string;
  axes : list AxisDescriptor.t;
  sources : list SourceDescriptor.t;
  instances : list InstanceDescriptor.t
}.

Definition empty : t :=
  {| path := None; axes := []; sources := []; instances := [] |}.

Definition addAxis (a : AxisDescriptor.t) (d : t) : t :=
  {| path := path d; axes := axes d ++ [a];
     sources := sources d; instances := instances d |}.

Definition addSource (s : SourceDescriptor.t) (d : t) : t :=
  {| path := path d; axes := axes d;
     sources := sources d ++ [s]; instances := instances d |}.

Definition addInstance (i : InstanceDescriptor.t) (d : t) : t :=
  {| path := path d; axes := axes d;
     sources := sources d; instances := instances d ++ [i] |}.

Definition set_sources (l : list SourceDescriptor.t) (d : t) : t :=
  {| path := path d; axes := axes d; sources := l;
     instances := instances d |}.

(** [doc.getAxisOrder()] *)
Definition getAxisOrder (d : t) : list string :=
  map AxisDescriptor.name (axes d).

(** [doc.getAxis(name)]: the first axis of that name. *)
Definition getAxis (n : string) (d : t) : option AxisDescriptor.t :=
  find (fun a => String.eqb (AxisDescriptor.name a) n) (axes d).
End DesignSpaceDocument.

(** A glyph of a source font: what the operator reads of it. *)
Record Glyph : Type := {
  glyph_name : string;
  glyph_unicodes : option (list Z);
  glyph_width : Z;
  glyph_outline : list (Z * Z)
}.

Record Info : Type := {
  unitsPerEm : Z;
  ascender : Z;
  descender : Z;
  xHeight : Z
}.

(** A loaded font: its identity [id(f)], its [path], the glyphs of its
    default layer, the name [getDefaultLayerName] finds, and its [info]. *)
Record Font : Type := {
  font_id : nat;
  font_path : option string;
  font_glyphs : list (string * Glyph);
  font_defaultLayerName : option string;
  font_info : Info
}.

Fixpoint font_getitem (n : string) (gs : list (string * Glyph))
  : option Glyph :=
  match gs with
  | [] => None
  | (k, g) :: r => if String.eqb n k then Some g else font_getitem n r
  end.

(** [glyphName in f] and [f[glyphName]] for a glyph name given as a value.
    The font looks the name up among the keys of its glyph set, so a name
    that cannot be hashed (a list, a dict) is a [TypeError]; any other value
    that is not a string is the name of no glyph. *)
Definition font_get (glyphName : pyobj) (f : Font) : res (option Glyph) :=
  match glyphName with
  | PStr n => Ok (font_getitem n (font_glyphs f))
  | _ => if hashable glyphName then Ok None else Raise TypeError
  end.

(** The math objects handed to the interpolation engine: what
    [toMathGlyph] / [mathGlyphClass] make of a glyph ([decomposed] when it
    is the flattened copy), and what [toMathInfo] / [mathInfoClass] make of
    a font's info. *)
Inductive MathObject : Type :=
| MathGlyph (source : Glyph) (decomposed : bool)
| MathInfo (info : Info).

(** The mutator the engine builds, known by what it was built from. *)
Inductive Mutator : Type :=
| VariationModelMutator (items : list (dict * MathObject))
                        (axes : list AxisDescriptor.t)
| buildMutator (items : list (dict * MathObject))
               (axes : list (string * AxisDescriptor.t)) (bias : dict).

(** What a mutator's [makeInstance] returns, and what is made of it. *)
Inductive InstanceObject : Type :=
| makeInstance (m : Mutator) (loc : pyobj) (bend : pyobj)
| Merged (horizontal vertical : InstanceObject)
| Rounded (o : InstanceObject)
| WithUnicodes (o : InstanceObject) (unicodes : list Z).

(** The [sourceInfo] dict of a collected item. *)
Record SourceInfo : Type := {
  si_source : option string;
  si_glyphName : pyobj;
  si_layerName : option string;
  si_location : dict;
  si_sourceName : option string
}.

Definition Item : Type := (dict * MathObject * SourceInfo)%type.

(** ** The memoization cache *)

(** A key of [_memoizeCache]:
    [(function.__name__, self, immutableargs, immutify(kwargs))]. *)
Record Key : Type := {
  key_name : string;
  key_self : nat;
  key_args : list (list pyobj);
  key_kwargs : list pyobj
}.

Fixpoint list_eqb {A : Type} (eqb : A -> A -> bool) (xs ys : list A) : bool :=
  match xs, ys with
  | [], [] => true
  | x :: xs', y :: ys' => eqb x y && list_eqb eqb xs' ys'
  | _, _ => false
  end.

Definition key_eqb (a b : Key) : bool :=
  String.eqb (key_name a) (key_name b)
  && Nat.eqb (key_self a) (key_self b)
  && list_eqb (list_eqb py_eqb) (key_args a) (key_args b)
  && list_eqb py_eqb (key_kwargs a) (key_kwargs b).

(** [hash(key)] succeeds. *)
Definition key_hashable (k : Key) : bool :=
  forallb (forallb hashable) (key_args k) && forallb hashable (key_kwargs k).

(** The results the memoized methods return, as the cache holds them. *)
Inductive Cached : Type :=
| CValue (v : pyobj)
| CSources (l : list SourceDescriptor.t)
| CMutator (m : option Mutator)
| CGlyphMutator (thing : option Mutator) (unicodes : list Z)
| CItems (items : list Item) (unicodes : list Z)
| CInstance (o : option InstanceObject).

Section KeyedDict.
Variable V : Type.

Fixpoint cache_get (k : Key) (c : list (Key * V)) : option V :=
  match c with
  | [] => None
  | (k', v) :: r => if key_eqb k k' then Some v else cache_get k r
  end.

Fixpoint cache_set (k : Key) (v : V) (c : list (Key * V)) : list (Key * V) :=
  match c with
  | [] => [(k, v)]
  | (k', v') :: r =>
      if key_eqb k k' then (k, v) :: r else (k', v') :: cache_set k v r
  end.

Fixpoint cache_del (k : Key) (c : list (Key * V)) : list (Key * V) :=
  match c with
  | [] => []
  | (k', v') :: r =>
      if key_eqb k k' then r else (k', v') :: cache_del k r
  end.

End KeyedDict.

(** ** The operator and the module's globals *)

(** The logger of an operator made with [debug]; its file is named after
    the document at [log_for]. *)
Record Logger : Type := { log_for : string }.

(** The attributes of a [UFOOperator].  [glyphNames] and [_infoMutator] do
    not exist until [loadFonts] and [getInfoMutator] set them. *)
Record UFOOperator : Type := {
  ufoVersion : Z;
  useVarlib : pyobj;
  _fontsLoaded : bool;
  fonts : list (string * option Font);
  roundGeometry : bool;
  mutedAxisNames : option (list string);
  debug : bool;
  logger : option Logger;
  doc : DesignSpaceDocument.t;
  glyphNames : option (list string);
  _infoMutator : option (option Mutator)
}.

Definition set_useVarlib (v : pyobj) (o : UFOOperator) : UFOOperator :=
  {| ufoVersion := ufoVersion o; useVarlib := v;
     _fontsLoaded := _fontsLoaded o; fonts := fonts o;
     roundGeometry := roundGeometry o; mutedAxisNames := mutedAxisNames o;
     debug := debug o; logger := logger o; doc := doc o;
     glyphNames := glyphNames o; _infoMutator := _infoMutator o |}.

Definition set_fontsLoaded (b : bool) (o : UFOOperator) : UFOOperator :=
  {| ufoVersion := ufoVersion o; useVarlib := useVarlib o;
     _fontsLoaded := b; fonts := fonts o;
     roundGeometry := roundGeometry o; mutedAxisNames := mutedAxisNames o;
     debug := debug o; logger := logger o; doc := doc o;
     glyphNames := glyphNames o; _infoMutator := _infoMutator o |}.

Definition set_fonts (fs : list (string * option Font)) (o : UFOOperator)
  : UFOOperator :=
  {| ufoVersion := ufoVersion o; useVarlib := useVarlib o;
     _fontsLoaded := _fontsLoaded o; fonts := fs;
     roundGeometry := roundGeometry o; mutedAxisNames := mutedAxisNames o;
     debug := debug o; logger := logger o; doc := doc o;
     glyphNames := glyphNames o; _infoMutator := _infoMutator o |}.

Definition set_doc (d : DesignSpaceDocument.t) (o : UFOOperator)
  : UFOOperator :=
  {| ufoVersion := ufoVersion o; useVarlib := useVarlib o;
     _fontsLoaded := _fontsLoaded o; fonts := fonts o;
     roundGeometry := roundGeometry o; mutedAxisNames := mutedAxisNames o;
     debug := debug o; logger := logger o; doc := d;
     glyphNames := glyphNames o; _infoMutator := _infoMutator o |}.

Definition set_glyphNames (l : list string) (o : UFOOperator) : UFOOperator :=
  {| ufoVersion := ufoVersion o; useVarlib := useVarlib o;
     _fontsLoaded := _fontsLoaded o; fonts := fonts o;
     roundGeometry := roundGeometry o; mutedAxisNames := mutedAxisNames o;
     debug := debug o; logger := logger o; doc := doc o;
     glyphNames := Some l; _infoMutator := _infoMutator o |}.

Definition set_infoMutator (m : option Mutator) (o : UFOOperator)
  : UFOOperator :=
  {| ufoVersion := ufoVersion o; useVarlib := useVarlib o;
     _fontsLoaded := _fontsLoaded o; fonts := fonts o;
     roundGeometry := roundGeometry o; mutedAxisNames := mutedAxisNames o;
     debug := debug o; logger := logger o; doc := doc o;
     glyphNames := glyphNames o; _infoMutator := Some m |}.

(** [UFOOperator(pathOrObject, ufoVersion, useVarlib, debug)], for
    [pathOrObject] either [None] or a document (a path is the document read
    from it).  With [debug] the log file is named after the document's path,
    and [os.path.splitext(None)] is a [TypeError]. *)
Definition __init__ (pathOrObject : option DesignSpaceDocument.t)
  (ufoVersion : Z) (useVarlib : pyobj) (debug : bool) : res UFOOperator :=
  let d := match pathOrObject with
           | None => DesignSpaceDocument.empty
           | Some d => d
           end in
  let self (logger : option Logger) :=
    {| ufoVersion := ufoVersion; useVarlib := useVarlib;
       _fontsLoaded := false; fonts := [];
       roundGeometry := false; mutedAxisNames := None;
       debug := debug; logger := logger; doc := d;
       glyphNames := None; _infoMutator := None |} in
  if debug then
    match DesignSpaceDocument.path d with
    | None => Raise TypeError
    | Some p => Ok (self (Some {| log_for := p |}))
    end
  else Ok (self None).

(** The state a method runs in: the module-level [_memoizeCache] and
    [_memoizeStats], and the attributes of the operator that receives the
    call.  The receiver's identity is the [self] argument of each method;
    other operators are present only as the owners of their cache entries. *)
Record World : Type := {
  _memoizeCache : list (Key * Cached);
  _memoizeStats : list (Key * nat);
  this : UFOOperator
}.

Definition with_cache (c : list (Key * Cached)) (w : World) : World :=
  {| _memoizeCache := c; _memoizeStats := _memoizeStats w; this := this w |}.

Definition with_stats (s : list (Key * nat)) (w : World) : World :=
  {| _memoizeCache := _memoizeCache w; _memoizeStats := s; this := this w |}.

Definition with_this (o : UFOOperator) (w : World) : World :=
  {| _memoizeCache := _memoizeCache w; _memoizeStats := _memoizeStats w;
     this := o |}.

(** A freshly imported module and a new operator. *)
Definition fresh (o : UFOOperator) : World :=
  {| _memoizeCache := []; _memoizeStats := []; this := o |}.

(** ** Computations: state that survives an exception *)

Definition M (A : Type) : Type := World -> res A * World.

Definition ret {A : Type} (a : A) : M A := fun w => (Ok a, w).

Definition bind {A B : Type} (c : M A) (k : A -> M B) : M B :=
  fun w =>
    match c w with
    | (Ok a, w') => k a w'
    | (Raise e, w') => (Raise e, w')
    end.

Definition raise {A : Type} (e : exn) : M A := fun w => (Raise e, w).

Definition lift {A : Type} (r : res A) : M A := fun w => (r, w).

Definition self_attr {A : Type} (f : UFOOperator -> A) : M A :=
  fun w => (Ok (f (this w)), w).

Definition self_set (f : UFOOperator -> UFOOperator) : M unit :=
  fun w => (Ok tt, with_this (f (this w)) w).

(** [try: c except <handled>: handler] *)
Definition try_except {A : Type} (c : M A) (handled : exn -> bool)
  (handler : M A) : M A :=
  fun w =>
    match c w with
    | (Ok a, w') => (Ok a, w')
    | (Raise e, w') => if handled e then handler w' else (Raise e, w')
    end.

Declare Scope py_scope.
Delimit Scope py_scope with py.
Notation "x <- c ;; k" := (bind c (fun x => k))
  (at level 61, c at next level, right associativity) : py_scope.
Notation "' pat <- c ;; k" := (bind c (fun x => match x with pat => k end))
  (at level 61, pat pattern, c at next level, right associativity) : py_scope.
Notation "c ;; k" := (bind c (fun _ => k))
  (at level 61, right associativity) : py_scope.
Open Scope py_scope.

Fixpoint foldM {A B : Type} (f : B -> A -> M B) (acc : B) (l : list A)
  : M B :=
  match l with
  | [] => ret acc
  | x :: r => acc' <- f acc x ;; foldM f acc' r
  end.

(** [self.logger.info(...)], [self.logger.time()], [self.logger.infoItem(...)]:
    nothing of the state changes; without a logger the attribute lookup on
    [None] fails. *)
Definition logger_call (method : string) : M unit :=
  fun w =>
    match logger (this w) with
    | Some _ => (Ok tt, w)
    | None => (Raise (AttributeError method), w)
    end.

(** [if self.debug: self.logger.<method>(...)] *)
Definition debug_log (method : string) : M unit :=
  fun w => if debug (this w) then logger_call method w else (Ok tt, w).

(** ** [memoize] *)

Definition make_key (name : string) (self : nat) (args : list pyobj)
  (kwargs : dict) : Key :=
  {| key_name := name; key_self := self;
     key_args := map immutify args;
     key_kwargs := immutify (PDict kwargs) |}.

Definition count_hit (key : Key) (stats : list (Key * nat))
  : list (Key * nat) :=
  match cache_get key stats with
  | None => cache_set key 1 stats
  | Some n => cache_set key (S n) stats
  end.

(** The wrapper [memoize] returns for [function], named [name]. *)
Definition memoize (name : string)
  (function : nat -> list pyobj -> dict -> M Cached)
  (self : nat) (args : list pyobj) (kwargs : dict) : M Cached :=
  fun w =>
    let key := make_key name self args kwargs in
    if key_hashable key then
      match cache_get key (_memoizeCache w) with
      | Some cached =>
          (Ok cached, with_stats (count_hit key (_memoizeStats w)) w)
      | None =>
          match function self args kwargs w with
          | (Ok result, w') =>
              (Ok result,
               with_cache (cache_set key result (_memoizeCache w')) w')
          | (Raise e, w') => (Raise e, w')
          end
      end
    else (Raise TypeError, w).

(** ** [inspectMemoizeCache] *)

(** The dict [stats] of [inspectMemoizeCache]: a count for a function
    name. *)
Fixpoint stats_get (functionName : string) (stats : list (string * nat))
  : option nat :=
  match stats with
  | [] => None
  | (k, n) :: r => if String.eqb functionName k then Some n
                   else stats_get functionName r
  end.

Fixpoint stats_set (functionName : string) (n : nat)
  (stats : list (string * nat)) : list (string * nat) :=
  match stats with
  | [] => [(functionName, n)]
  | (k, m) :: r =>
      if String.eqb functionName k then (functionName, n) :: r
      else (k, m) :: stats_set functionName n r
  end.

(** [inspectMemoizeCache()]: the dict it prints.  A name not yet in [stats]
    is entered with 0 and counted at once, so its first count is 1. *)
Definition inspectMemoizeCache (w : World) : list (string * nat) :=
  fold_left
    (fun stats k =>
       let functionName := key_name k in
       match stats_get functionName stats with
       | None => stats_set functionName 1 stats
       | Some n => stats_set functionName (S n) stats
       end)
    (map fst (_memoizeCache w)) [].

(** ** Cache invalidation *)

(** [changed]: every key whose owner is [self] is deleted. *)
Definition changed (self : nat) : M unit :=
  fun w =>
    let keys := map fst (_memoizeCache w) in
    (Ok tt,
     with_cache
       (fold_left
          (fun cache key =>
             if Nat.eqb (key_self key) self then cache_del key cache
             else cache)
          keys (_memoizeCache w))
       w).

Definition glyph_scoped (name : string) : bool :=
  String.eqb name "getGlyphMutator"
  || String.eqb name "collectSourcesForGlyph".

(** [key[2][0][0]] *)
Definition key_leading_argument (key : Key) : res pyobj :=
  match key_args key with
  | [] => Raise IndexError
  | a0 :: _ =>
      match a0 with
      | [] => Raise IndexError
      | x :: _ => Ok x
      end
  end.

Definition cache_delete (key : Key) : M unit :=
  fun w => (Ok tt, with_cache (cache_del key (_memoizeCache w)) w).

Fixpoint glyphChanged_loop (glyphName : pyobj) (keys : list Key) : M unit :=
  match keys with
  | [] => ret tt
  | key :: rest =>
      (if glyph_scoped (key_name key) then
         x <- lift (key_leading_argument key) ;;
         if py_eqb x glyphName then cache_delete key else ret tt
       else ret tt) ;;
      glyphChanged_loop glyphName rest
  end.

(** [glyphChanged]: the receiver is not looked at. *)
Definition glyphChanged (self : nat) (glyphName : pyobj) : M unit :=
  fun w => glyphChanged_loop glyphName (map fst (_memoizeCache w)) w.

(** ** Calling a Python function *)

(** The parameters of a function after [self]: each with its default, if it
    has one, and whether a [**name] parameter collects the remaining
    keywords. *)
Record Signature : Type := {
  parameters : list (string * option pyobj);
  var_keyword : bool
}.

Fixpoint bind_keywords (ps : list (string * option pyobj)) (kwargs : dict)
  : option dict :=
  match ps with
  | [] => Some []
  | (p, default) :: rest =>
      match dict_get p kwargs, default, bind_keywords rest kwargs with
      | Some v, _, Some bound => Some ((p, v) :: bound)
      | None, Some v, Some bound => Some ((p, v) :: bound)
      | _, _, _ => None
      end
  end.

(** Binding [*args] and [**kwargs] to the parameters: the bound parameters
    and the keywords left to [**name].  Too many positional arguments, a
    keyword for a parameter already given by position, an unknown keyword
    without [**name], or a parameter left without a value is a [TypeError]. *)
Definition bind_args (sig : Signature) (args : list pyobj) (kwargs : dict)
  : res (dict * dict) :=
  let names := map fst (parameters sig) in
  if Nat.ltb (List.length names) (List.length args) then Raise TypeError
  else
    let positional := firstn (List.length args) names in
    if existsb (fun kv => str_mem (fst kv) positional) kwargs
    then Raise TypeError
    else
      let extra := filter (fun kv => negb (str_mem (fst kv) names)) kwargs in
      if negb (var_keyword sig) && negb (Nat.eqb (List.length extra) 0)
      then Raise TypeError
      else
        match bind_keywords (skipn (List.length args) (parameters sig))
                kwargs with
        | Some bound => Ok (combine positional args ++ bound, extra)
        | None => Raise TypeError
        end.

(** The value bound to a parameter. *)
Definition arg (name : string) (bound : dict) : pyobj :=
  match dict_get name bound with
  | Some v => v
  | None => PNone
  end.

(** ** Operations on values *)

(** [obj.items()] *)
Definition items_of (obj : pyobj) : res dict :=
  match obj with
  | PDict d => Ok d
  | _ => Raise (AttributeError "items")
  end.

(** [sub in s] for two strings. *)
Fixpoint is_substring (sub s : string) : bool :=
  String.prefix sub s
  || match s with
     | EmptyString => false
     | String _ s' => is_substring sub s'
     end.

(** [name in obj] *)
Definition py_contains (name : string) (obj : pyobj) : res bool :=
  match obj with
  | PDict d => Ok (dict_mem name d)
  | PList l | PTuple l => Ok (py_mem (PStr name) l)
  | PStr s => Ok (is_substring name s)
  | PNone | PInt _ | PObj _ => Raise TypeError
  end.

(** [obj[name]] for a string [name]. *)
Definition py_getitem (name : string) (obj : pyobj) : res pyobj :=
  match obj with
  | PDict d =>
      match dict_get name d with
      | Some v => Ok v
      | None => Raise (KeyError (PStr name))
      end
  | _ => Raise TypeError
  end.

(** A cached result read as a plain value, as a list of sources, and so on.
    Keys carry the name of the function that stored the entry, and only
    [memoize] stores entries, so a result of another shape than the
    function's own does not arise; the readers raise [TypeError] there. *)
Definition cached_value (c : Cached) : res pyobj :=
  match c with CValue v => Ok v | _ => Raise TypeError end.

Definition cached_sources (c : Cached) : res (list SourceDescriptor.t) :=
  match c with CSources l => Ok l | _ => Raise TypeError end.

Definition cached_mutator (c : Cached) : res (option Mutator) :=
  match c with CMutator m => Ok m | _ => Raise TypeError end.

Definition cached_glyphMutator (c : Cached)
  : res (option Mutator * list Z) :=
  match c with CGlyphMutator m u => Ok (m, u) | _ => Raise TypeError end.

Definition cached_items (c : Cached) : res (list Item * list Z) :=
  match c with CItems i u => Ok (i, u) | _ => Raise TypeError end.

(** ** Axes and locations *)

(** [getOrderedDiscreteAxes]: [doc.getAxis] finds every name of
    [doc.getAxisOrder()], the names being those of the axes. *)
Definition getOrderedDiscreteAxes (o : UFOOperator) : list AxisDescriptor.t :=
  flat_map
    (fun axisName =>
       match DesignSpaceDocument.getAxis axisName (doc o) with
       | Some axisObj =>
           match AxisDescriptor.values axisObj with
           | Some _ => [axisObj]
           | None => []
           end
       | None => []
       end)
    (DesignSpaceDocument.getAxisOrder (doc o)).

Definition getOrderedContinuousAxes (o : UFOOperator)
  : list AxisDescriptor.t :=
  flat_map
    (fun axisName =>
       match DesignSpaceDocument.getAxis axisName (doc o) with
       | Some axisObj =>
           match AxisDescriptor.values axisObj with
           | Some _ => []
           | None => [axisObj]
           end
       | None => []
       end)
    (DesignSpaceDocument.getAxisOrder (doc o)).

(** [getSerializedAxes]: an axis stands for its serialization. *)
Definition getSerializedAxes (o : UFOOperator) : list AxisDescriptor.t :=
  getOrderedContinuousAxes o.

Fixpoint axes_set (k : string) (a : AxisDescriptor.t)
  (d : list (string * AxisDescriptor.t)) : list (string * AxisDescriptor.t) :=
  match d with
  | [] => [(k, a)]
  | (k', a') :: r =>
      if String.eqb k k' then (k, a) :: r else (k', a') :: axes_set k a r
  end.

(** [getContinuousAxesForMutator] *)
Definition getContinuousAxesForMutator (o : UFOOperator)
  : list (string * AxisDescriptor.t) :=
  fold_left (fun d axis => axes_set (AxisDescriptor.name axis) axis d)
    (getOrderedContinuousAxes o) [].

(** [splitLocation] *)
Definition splitLocation (o : UFOOperator) (location : dict)
  : dict * option dict :=
  let discreteAxes := map AxisDescriptor.name (getOrderedDiscreteAxes o) in
  let '(continuous, discrete) :=
    fold_left
      (fun (cd : dict * dict) (item : string * pyobj) =>
         let '(name, value) := item in
         if str_mem name discreteAxes
         then (fst cd, dict_set name value (snd cd))
         else (dict_set name value (fst cd), snd cd))
      location ([], []) in
  match discrete with
  | [] => (continuous, None)
  | _ => (continuous, Some discrete)
  end.

Definition opt_dict (d : option dict) : pyobj :=
  match d with
  | Some d => PDict d
  | None => PNone
  end.

(** [checkDiscreteAxisValues]: [location.get] is looked up once per
    discrete axis. *)
Fixpoint checkDiscreteAxisValues_loop (location : pyobj)
  (axes : list AxisDescriptor.t) : res bool :=
  match axes with
  | [] => Ok true
  | discreteAxis :: rest =>
      match location with
      | PDict d =>
          let testValue :=
            match dict_get (AxisDescriptor.name discreteAxis) d with
            | Some v => v
            | None => PNone
            end in
          match AxisDescriptor.values discreteAxis with
          | Some values =>
              if py_mem testValue values
              then checkDiscreteAxisValues_loop location rest
              else Ok false
          | None => Raise (AttributeError "values")
          end
      | _ => Raise (AttributeError "get")
      end
  end.

Definition checkDiscreteAxisValues (o : UFOOperator) (location : pyobj)
  : res bool :=
  checkDiscreteAxisValues_loop location (getOrderedDiscreteAxes o).

(** The [defaults] dict that [isLocalDefault] and [filterThisLocation]
    build. *)
Definition axis_defaults (o : UFOOperator) : dict :=
  fold_left
    (fun defaults aD =>
       dict_set (AxisDescriptor.name aD) (AxisDescriptor.default aD) defaults)
    (DesignSpaceDocument.axes (doc o)) [].

(** [isLocalDefault] *)
Fixpoint isLocalDefault_loop (defaults : dict) (location : dict) : res bool :=
  match location with
  | [] => Ok true
  | (axisName, value) :: rest =>
      match dict_get axisName defaults with
      | None => Raise (KeyError (PStr axisName))
      | Some d =>
          if py_eqb d value then isLocalDefault_loop defaults rest
          else Ok false
      end
  end.

Definition isLocalDefault (o : UFOOperator) (location : dict) : res bool :=
  isLocalDefault_loop (axis_defaults o) location.

(** [filterThisLocation] *)
Fixpoint filterThisLocation_loop (defaults location : dict)
  (mutedAxes : list string) (ignoreSource : bool) (new : dict)
  : res (bool * dict) :=
  match mutedAxes with
  | [] => Ok (ignoreSource, new)
  | mutedAxisName :: rest =>
      match dict_get mutedAxisName location, dict_get mutedAxisName defaults with
      | Some v, Some d =>
          if dict_mem mutedAxisName new
          then filterThisLocation_loop defaults location rest
                 (if py_eqb v d then ignoreSource else true)
                 (dict_del mutedAxisName new)
          else Raise (KeyError (PStr mutedAxisName))
      | _, _ => filterThisLocation_loop defaults location rest ignoreSource new
      end
  end.

Definition filterThisLocation (o : UFOOperator) (location : dict)
  (mutedAxes : option (list string)) : res (bool * dict) :=
  match mutedAxes with
  | None | Some [] => Ok (false, location)
  | Some mutedAxes =>
      filterThisLocation_loop (axis_defaults o) location mutedAxes false
        location
  end.

(** ** What the operator takes from outside *)

(** The file system, the font classes, [ufoProcessor.pens] and the
    interpolation engines.  [checkGlyphIsEmpty] is the call
    [checkGlyphIsEmpty(glyph, allowWhiteSpace=True)].  An engine decides
    whether building a mutator or making an instance raises; what it builds
    is known by its arguments.  [module_loc] is the module-level name [loc]:
    only the [__main__] block binds it, so it is unbound when the module is
    imported. *)
Record Externals : Type := {
  os_path_exists : string -> bool;
  _instantiateFont : string -> Font;
  checkGlyphIsEmpty : Glyph -> bool;
  VariationModelMutator_raises :
    list (dict * MathObject) -> list AxisDescriptor.t -> option exn;
  buildMutator_raises :
    list (dict * MathObject) -> list (string * AxisDescriptor.t) -> dict ->
    option exn;
  mutator_bool : Mutator -> bool;
  makeInstance_raises : Mutator -> pyobj -> pyobj -> option exn;
  instance_attr : InstanceObject -> string -> pyobj;
  module_loc : option pyobj
}.

Fixpoint fonts_get (n : string) (fs : list (string * option Font))
  : option (option Font) :=
  match fs with
  | [] => None
  | (k, f) :: r => if String.eqb n k then Some f else fonts_get n r
  end.

Fixpoint fonts_set (n : string) (f : option Font)
  (fs : list (string * option Font)) : list (string * option Font) :=
  match fs with
  | [] => [(n, f)]
  | (k, f') :: r =>
      if String.eqb n k then (n, f) :: r else (k, f') :: fonts_set n f r
  end.

Definition opt_str (s : option string) : pyobj :=
  match s with
  | Some s => PStr s
  | None => PNone
  end.

Definition opt_str_eqb (a b : option string) : bool :=
  match a, b with
  | Some a, Some b => String.eqb a b
  | None, None => true
  | _, _ => false
  end.

(** ** Thin passthroughs to the document *)

Definition addAxis (self : nat) (axisDescriptor : AxisDescriptor.t) : M unit :=
  self_set (fun o => set_doc (DesignSpaceDocument.addAxis axisDescriptor (doc o)) o).

Definition addSource (self : nat) (sourceDescriptor : SourceDescriptor.t)
  : M unit :=
  self_set
    (fun o => set_doc (DesignSpaceDocument.addSource sourceDescriptor (doc o)) o).

Definition addInstance (self : nat) (instanceDescriptor : InstanceDescriptor.t)
  : M unit :=
  self_set
    (fun o =>
       set_doc (DesignSpaceDocument.addInstance instanceDescriptor (doc o)) o).

(** [read(path)], given the document read from [path]. *)
Definition read (self : nat) (document : DesignSpaceDocument.t) : M unit :=
  self_set (set_doc document) ;;
  changed self.

Section Methods.

Variable E : Externals.

(** ** Loading and updating fonts *)

Definition add_names (names : list string) (new : list string) : list string :=
  fold_left (fun acc n => if str_mem n acc then acc else acc ++ [n]) new names.

(** The loop of [loadFonts]: the sources with the names given to the unnamed
    ones, the fonts, and the glyph names found.  It is the loop of a run in
    which nothing outside the operator raises: every source has a path, and
    a path that exists is a UFO that [_instantiateFont] and [getUFOVersion]
    can read.  (A source whose path is [None] makes [os.path.exists] raise,
    a path that is no UFO makes [getUFOVersion] raise, and the call ends
    there.)  The glyph names are listed in the order in which they are met;
    [list(names)] lists them in the order of the set. *)
Fixpoint loadFonts_loop (i : nat) (sources : list SourceDescriptor.t)
  (fonts : list (string * option Font)) (names : list string)
  : list SourceDescriptor.t * list (string * option Font) * list string :=
  match sources with
  | [] => ([], fonts, names)
  | sourceDescriptor :: rest =>
      let name :=
        match SourceDescriptor.name sourceDescriptor with
        | None =>
            String.append "source." (NilEmpty.string_of_uint (Nat.to_uint i))
        | Some n => n
        end in
      let named :=
        {| SourceDescriptor.name := Some name;
           SourceDescriptor.path := SourceDescriptor.path sourceDescriptor;
           SourceDescriptor.location :=
             SourceDescriptor.location sourceDescriptor;
           SourceDescriptor.layerName :=
             SourceDescriptor.layerName sourceDescriptor;
           SourceDescriptor.mutedGlyphNames :=
             SourceDescriptor.mutedGlyphNames sourceDescriptor |} in
      let '(fonts', names') :=
        match fonts_get name fonts with
        | Some _ => (fonts, names)
        | None =>
            if os_path_exists E (SourceDescriptor.path sourceDescriptor)
            then
              let f := _instantiateFont E
                         (SourceDescriptor.path sourceDescriptor) in
              (fonts_set name (Some f) fonts,
               add_names names (map fst (font_glyphs f)))
            else (fonts_set name None fonts, names)
        end in
      let '(rest', fonts'', names'') :=
        loadFonts_loop (S i) rest fonts' names' in
      (named :: rest', fonts'', names'')
  end.

(** [loadFonts(reload)].  With debug the collected actions are logged after
    the loop, by the logger that the call before the loop has found.  The
    document gets the named sources as new values; the code sets [name] on
    the descriptor objects themselves, so there a list of sources in the
    cache shows the new names too. *)
Definition loadFonts (self : nat) (reload : bool) : M unit :=
  o <- self_attr (fun o => o) ;;
  if _fontsLoaded o && negb reload then debug_log "info"
  else
    debug_log "info" ;;
    let '(sources, fonts, names) :=
      loadFonts_loop 0 (DesignSpaceDocument.sources (doc o)) (fonts o) [] in
    self_set
      (fun o =>
         set_glyphNames names
           (set_fonts fonts
              (set_doc (DesignSpaceDocument.set_sources sources (doc o)) o))) ;;
    self_set (set_fontsLoaded true).

(** The inner loop of [updateFonts], over the items of [self.fonts]. *)
Fixpoint updateFonts_inner (newFont : Font)
  (items : list (string * option Font)) (hasUpdated : bool) : M bool :=
  match items with
  | [] => ret hasUpdated
  | (fontName, haveFont) :: rest =>
      match haveFont with
      | None => raise (AttributeError "path")
      | Some haveFont =>
          if opt_str_eqb (font_path haveFont) (font_path newFont)
             && negb (Nat.eqb (font_id haveFont) (font_id newFont))
          then
            debug_log "time" ;;
            debug_log "info" ;;
            self_set
              (fun o => set_fonts (fonts_set fontName (Some newFont) (fonts o)) o) ;;
            updateFonts_inner newFont rest true
          else updateFonts_inner newFont rest hasUpdated
      end
  end.

Fixpoint updateFonts_loop (fontObjects : list Font) (hasUpdated : bool)
  : M bool :=
  match fontObjects with
  | [] => ret hasUpdated
  | newFont :: rest =>
      items <- self_attr fonts ;;
      hasUpdated' <- updateFonts_inner newFont items hasUpdated ;;
      updateFonts_loop rest hasUpdated'
  end.

(** [updateFonts(fontObjects)] *)
Definition updateFonts (self : nat) (fontObjects : list Font) : M unit :=
  hasUpdated <- updateFonts_loop fontObjects false ;;
  if hasUpdated then changed self else ret tt.

(** ** Sources of a discrete location *)

Definition source_agrees (discreteLocDict : dict) (s : SourceDescriptor.t)
  : bool :=
  fold_left
    (fun ok (item : string * pyobj) =>
       let '(name, value) := item in
       match dict_get name (SourceDescriptor.location s) with
       | Some v => if py_eqb v value then ok else false
       | None => false
       end)
    discreteLocDict true.

Fixpoint findSourceDescriptorsForDiscreteLocation_loop
  (discreteLocDict : pyobj) (l : list SourceDescriptor.t)
  : res (list SourceDescriptor.t) :=
  match l with
  | [] => Ok []
  | s :: rest =>
      match discreteLocDict with
      | PNone =>
          match findSourceDescriptorsForDiscreteLocation_loop
                  discreteLocDict rest with
          | Ok sources => Ok (s :: sources)
          | Raise e => Raise e
          end
      | _ =>
          match items_of discreteLocDict with
          | Raise e => Raise e
          | Ok d =>
              match findSourceDescriptorsForDiscreteLocation_loop
                      discreteLocDict rest with
              | Ok sources =>
                  Ok (if source_agrees d s then s :: sources else sources)
              | Raise e => Raise e
              end
          end
      end
  end.

Definition findSourceDescriptorsForDiscreteLocation_function (self : nat)
  (args : list pyobj) (kwargs : dict) : M Cached :=
  '(bound, _) <-
    lift (bind_args {| parameters := [("discreteLocDict", Some PNone)];
                       var_keyword := false |} args kwargs) ;;
  o <- self_attr (fun o => o) ;;
  sources <-
    lift (findSourceDescriptorsForDiscreteLocation_loop
            (arg "discreteLocDict" bound)
            (DesignSpaceDocument.sources (doc o))) ;;
  ret (CSources sources).

Definition findSourceDescriptorsForDiscreteLocation :=
  memoize "findSourceDescriptorsForDiscreteLocation"
    findSourceDescriptorsForDiscreteLocation_function.

(** ** Default location *)

Fixpoint newDefaultLocation_loop (bend discreteLocation : pyobj)
  (axes : list AxisDescriptor.t) (loc : dict) : res dict :=
  match axes with
  | [] => Ok loc
  | axisDescriptor :: rest =>
      let axisName := AxisDescriptor.name axisDescriptor in
      let axisValue :=
        match discreteLocation with
        | PNone => Ok (AxisDescriptor.default axisDescriptor)
        | _ =>
            match py_contains axisName discreteLocation with
            | Ok true => py_getitem axisName discreteLocation
            | Ok false => Ok (AxisDescriptor.default axisDescriptor)
            | Raise e => Raise e
            end
        end in
      match axisValue with
      | Raise e => Raise e
      | Ok axisValue =>
          newDefaultLocation_loop bend discreteLocation rest
            (dict_set axisName
               (if truthy bend
                then AxisDescriptor.map_forward axisDescriptor axisValue
                else axisValue)
               loc)
      end
  end.

Definition newDefaultLocation_function (self : nat) (args : list pyobj)
  (kwargs : dict) : M Cached :=
  '(bound, _) <-
    lift (bind_args {| parameters := [("bend", Some PFalse);
                                      ("discreteLocation", Some PNone)];
                       var_keyword := false |} args kwargs) ;;
  o <- self_attr (fun o => o) ;;
  loc <-
    lift (newDefaultLocation_loop (arg "bend" bound)
            (arg "discreteLocation" bound)
            (DesignSpaceDocument.axes (doc o)) []) ;;
  ret (CValue (PDict loc)).

Definition newDefaultLocation :=
  memoize "newDefaultLocation" newDefaultLocation_function.

(** ** Anisotropic locations *)

Definition isAnisotropic_function (self : nat) (args : list pyobj)
  (kwargs : dict) : M Cached :=
  '(bound, _) <-
    lift (bind_args {| parameters := [("location", None)];
                       var_keyword := false |} args kwargs) ;;
  match arg "location" bound with
  | PDict d =>
      ret (CValue
             (of_bool
                (existsb
                   (fun kv =>
                      match snd kv with
                      | PList _ | PTuple _ => true
                      | _ => false
                      end)
                   d)))
  | _ => raise (AttributeError "values")
  end.

Definition isAnisotropic := memoize "isAnisotropic" isAnisotropic_function.

Fixpoint splitAnisotropic_loop (location x y : dict) : res (dict * dict) :=
  match location with
  | [] => Ok (x, y)
  | (dim, val) :: rest =>
      match val with
      | PTuple (val0 :: val1 :: _) =>
          splitAnisotropic_loop rest (dict_set dim val0 x) (dict_set dim val1 y)
      | PTuple _ => Raise IndexError
      | _ =>
          splitAnisotropic_loop rest (dict_set dim val x) (dict_set dim val y)
      end
  end.

Definition splitAnisotropic_function (self : nat) (args : list pyobj)
  (kwargs : dict) : M Cached :=
  '(bound, _) <-
    lift (bind_args {| parameters := [("location", None)];
                       var_keyword := false |} args kwargs) ;;
  location <- lift (items_of (arg "location" bound)) ;;
  '(x, y) <- lift (splitAnisotropic_loop location [] []) ;;
  ret (CValue (PTuple [PDict x; PDict y])).

Definition splitAnisotropic :=
  memoize "splitAnisotropic" splitAnisotropic_function.

(** ** The interpolation engine *)

(** [getVariationModel(items, axes, bias)]: the mutator of the pair it
    returns.  The [axes] argument is not used by either branch. *)
Definition getVariationModel (items : list (dict * MathObject))
  (axes : list AxisDescriptor.t) (bias : pyobj) : M (option Mutator) :=
  o <- self_attr (fun o => o) ;;
  if truthy (useVarlib o) then
    match VariationModelMutator_raises E items
            (DesignSpaceDocument.axes (doc o)) with
    | None =>
        ret (Some (VariationModelMutator items
                     (DesignSpaceDocument.axes (doc o))))
    | Some TypeError => debug_log "info" ;; ret None
    | Some (KeyError _) | Some AssertionError => debug_log "info" ;; ret None
    | Some e => raise e
    end
  else
    let axesForMutator := getContinuousAxesForMutator o in
    location <- lift (items_of bias) ;;
    let biasForMutator := fst (splitLocation o location) in
    match buildMutator_raises E items axesForMutator biasForMutator with
    | None => ret (Some (buildMutator items axesForMutator biasForMutator))
    | Some e => raise e
    end.

(** ** Info mutator *)

Fixpoint getInfoMutator_loop (o : UFOOperator)
  (sources : list SourceDescriptor.t) (infoItems : list (dict * MathObject))
  : res (list (dict * MathObject)) :=
  match sources with
  | [] => Ok infoItems
  | sourceDescriptor :: rest =>
      match SourceDescriptor.layerName sourceDescriptor with
      | Some _ => getInfoMutator_loop o rest infoItems
      | None =>
          let loc :=
            fst (splitLocation o (SourceDescriptor.location sourceDescriptor)) in
          match
            match SourceDescriptor.name sourceDescriptor with
            | Some n => fonts_get n (fonts o)
            | None => None
            end
          with
          | None =>
              Raise (KeyError (opt_str (SourceDescriptor.name sourceDescriptor)))
          | Some None => getInfoMutator_loop o rest infoItems
          | Some (Some sourceFont) =>
              getInfoMutator_loop o rest
                (infoItems ++ [(loc, MathInfo (font_info sourceFont))])
          end
      end
  end.

Definition getInfoMutator_function (self : nat) (args : list pyobj)
  (kwargs : dict) : M Cached :=
  '(bound, _) <-
    lift (bind_args {| parameters := [("discreteLocation", Some PNone)];
                       var_keyword := false |} args kwargs) ;;
  let discreteLocation := arg "discreteLocation" bound in
  sources <-
    match discreteLocation with
    | PNone => self_attr (fun o => DesignSpaceDocument.sources (doc o))
    | _ =>
        c <- findSourceDescriptorsForDiscreteLocation self
               [discreteLocation] [] ;;
        lift (cached_sources c)
    end ;;
  o <- self_attr (fun o => o) ;;
  infoItems <- lift (getInfoMutator_loop o sources []) ;;
  c <- newDefaultLocation self []
         [("bend", PTrue); ("discreteLocation", discreteLocation)] ;;
  infoBias <- lift (cached_value c) ;;
  axes <- self_attr getSerializedAxes ;;
  m <- getVariationModel infoItems axes infoBias ;;
  self_set (set_infoMutator m) ;;
  ret (CMutator m).

Definition getInfoMutator := memoize "getInfoMutator" getInfoMutator_function.

(** ** Collecting the sources of a glyph *)

(** The lists and flags the loop of [collectSourcesForGlyph] carries. *)
Record Collected : Type := {
  items : list Item;
  empties : list (bool * bool);
  foundEmpty : bool;
  unicodes : list Z
}.

Definition add_unicodes (us : list Z) (new : option (list Z)) : list Z :=
  match new with
  | None => us
  | Some new =>
      fold_left
        (fun acc u => if existsb (Z.eqb u) acc then acc else acc ++ [u])
        new us
  end.

(** One turn of the loop over the sources.  [foundEmpty] is the variable of
    the function: it is set when a glyph is found empty, and nothing sets it
    back.  [getLayer] is a name the module neither defines nor imports. *)
Definition collectSourcesForGlyph_step (glyphName decomposeComponents : pyobj)
  (acc : Collected) (sourceDescriptor : SourceDescriptor.t) : M Collected :=
  if negb (os_path_exists E (SourceDescriptor.path sourceDescriptor)) then
    debug_log "info" ;; ret acc
  else if py_mem glyphName
            (map PStr (SourceDescriptor.mutedGlyphNames sourceDescriptor)) then
    logger_call "info" ;; ret acc
  else
    o <- self_attr (fun o => o) ;;
    thisIsDefault <-
      lift (isLocalDefault o (SourceDescriptor.location sourceDescriptor)) ;;
    '(ignoreSource, filteredLocation) <-
      lift (filterThisLocation o (SourceDescriptor.location sourceDescriptor)
              (mutedAxisNames o)) ;;
    if (ignoreSource : bool) then ret acc
    else
      match
        match SourceDescriptor.name sourceDescriptor with
        | Some n =>
            match fonts_get n (fonts o) with
            | Some f => f
            | None => None
            end
        | None => None
        end
      with
      | None => ret acc
      | Some f =>
          found <- lift (font_get glyphName f) ;;
          match found with
          | None => ret acc
          | Some sourceGlyphObject =>
              match SourceDescriptor.layerName sourceDescriptor with
              | Some _ => raise (NameError "getLayer")
              | None =>
                  let unicodes' :=
                    add_unicodes (unicodes acc)
                      (glyph_unicodes sourceGlyphObject) in
                  let foundEmpty' :=
                    if checkGlyphIsEmpty E sourceGlyphObject then true
                    else foundEmpty acc in
                  let processThis :=
                    MathGlyph sourceGlyphObject (truthy decomposeComponents) in
                  let sourceInfo :=
                    {| si_source := font_path f;
                       si_glyphName := glyphName;
                       si_layerName := font_defaultLayerName f;
                       si_location := filteredLocation;
                       si_sourceName :=
                         SourceDescriptor.name sourceDescriptor |} in
                  let continuous :=
                    fst (splitLocation o
                           (SourceDescriptor.location sourceDescriptor)) in
                  ret {| items :=
                           items acc ++ [(continuous, processThis, sourceInfo)];
                         empties :=
                           empties acc ++ [(thisIsDefault, foundEmpty')];
                         foundEmpty := foundEmpty';
                         unicodes := unicodes' |}
              end
          end
      end.

(** [emptiesAllowed] after the first pass over [empties]. *)
Definition emptiesAllowed (empties : list (bool * bool)) : bool :=
  fold_left
    (fun allowed (p : bool * bool) =>
       let '(isDefault, isEmpty) := p in
       if isDefault && isEmpty then true else allowed)
    empties false.

(** The second pass: [items[i]] for every [i] whose [isEmpty] is [wanted].
    The two lists grow together, so every index has its item. *)
Fixpoint checkedItems (wanted : bool) (empties : list (bool * bool))
  (items : list Item) : list Item :=
  match empties, items with
  | (_, isEmpty) :: empties', item :: items' =>
      if Bool.eqb isEmpty wanted
      then item :: checkedItems wanted empties' items'
      else checkedItems wanted empties' items'
  | _, _ => []
  end.

Definition collectSourcesForGlyph_function (self : nat) (args : list pyobj)
  (kwargs : dict) : M Cached :=
  '(bound, _) <-
    lift (bind_args {| parameters := [("glyphName", None);
                                      ("decomposeComponents", Some PFalse);
                                      ("discreteLocation", Some PNone)];
                       var_keyword := false |} args kwargs) ;;
  let glyphName := arg "glyphName" bound in
  let decomposeComponents := arg "decomposeComponents" bound in
  let discreteLocation := arg "discreteLocation" bound in
  newDefaultLocation self []
    [("bend", PTrue); ("discreteLocation", discreteLocation)] ;;
  sources <-
    match discreteLocation with
    | PNone => self_attr (fun o => DesignSpaceDocument.sources (doc o))
    | _ =>
        c <- findSourceDescriptorsForDiscreteLocation self
               [discreteLocation] [] ;;
        lift (cached_sources c)
    end ;;
  acc <-
    foldM (collectSourcesForGlyph_step glyphName decomposeComponents)
      {| items := []; empties := []; foundEmpty := false; unicodes := [] |}
      sources ;;
  ret (CItems
         (checkedItems (emptiesAllowed (empties acc)) (empties acc) (items acc))
         (unicodes acc)).

Definition collectSourcesForGlyph :=
  memoize "collectSourcesForGlyph" collectSourcesForGlyph_function.

(** ** Glyph mutator *)

(** [discreteLocation] is the dict of the keywords that [**discreteLocation]
    has collected: it goes to [collectSourcesForGlyph] unpacked, and to
    [newDefaultLocation] as it is. *)
Definition getGlyphMutator_function (self : nat) (args : list pyobj)
  (kwargs : dict) : M Cached :=
  '(bound, discreteLocation) <-
    lift (bind_args {| parameters := [("glyphName", None);
                                      ("decomposeComponents", Some PFalse)];
                       var_keyword := true |} args kwargs) ;;
  let glyphName := arg "glyphName" bound in
  let decomposeComponents := arg "decomposeComponents" bound in
  c <- collectSourcesForGlyph self [glyphName]
         (("decomposeComponents", decomposeComponents) :: discreteLocation) ;;
  '(items, unicodes) <- lift (cached_items c) ;;
  let new := map (fun item : Item => (fst (fst item), snd (fst item))) items in
  c <- newDefaultLocation self []
         [("bend", PTrue); ("discreteLocation", PDict discreteLocation)] ;;
  thisBias <- lift (cached_value c) ;;
  thing <-
    try_except
      (axes <- self_attr getSerializedAxes ;;
       getVariationModel new axes thisBias)
      (fun _ => true)
      (debug_log "info" ;; ret None) ;;
  ret (CGlyphMutator thing unicodes).

Definition getGlyphMutator := memoize "getGlyphMutator" getGlyphMutator_function.

(** ** Instances *)

(** [mutator.makeInstance(loc, bend=bend)] *)
Definition make_instance (m : Mutator) (loc bend : pyobj) : M InstanceObject :=
  match makeInstance_raises E m loc bend with
  | None => ret (makeInstance m loc bend)
  | Some e => raise e
  end.

Definition default_proportions : dict :=
  [("unitsPerEm", PInt 1000); ("ascender", PInt 750);
   ("descender", PInt (-250)); ("xHeight", PInt 500)].

(** [makeFontProportions(location, bend, roundGeometry)].  The function
    binds neither [loc] nor [locHorizontal]: the first is looked up in the
    module, the second is bound nowhere.  What [print] writes is not kept. *)
Definition makeFontProportions_function (self : nat) (args : list pyobj)
  (kwargs : dict) : M Cached :=
  '(bound, _) <-
    lift (bind_args {| parameters := [("location", None);
                                      ("bend", Some PFalse);
                                      ("roundGeometry", Some PTrue)];
                       var_keyword := false |} args kwargs) ;;
  let location := arg "location" bound in
  let bend := arg "bend" bound in
  let roundGeometry := arg "roundGeometry" bound in
  d <- lift (items_of location) ;;
  o <- self_attr (fun o => o) ;;
  let '(continuousLocation, discreteLocation) := splitLocation o d in
  c <- getInfoMutator self []
         [("discreteLocation", opt_dict discreteLocation)] ;;
  infoMutator <- lift (cached_mutator c) ;;
  match infoMutator with
  | None => ret (CValue (PDict default_proportions))
  | Some infoMutator =>
      c <- isAnisotropic self [location] [] ;;
      anisotropic <- lift (cached_value c) ;;
      infoInstanceObject <-
        (if negb (truthy anisotropic) then
           match module_loc E with
           | None => raise (NameError "loc")
           | Some loc => make_instance infoMutator loc bend
           end
         else raise (NameError "locHorizontal")) ;;
      let infoInstanceObject :=
        if truthy roundGeometry then Rounded infoInstanceObject
        else infoInstanceObject in
      ret (CValue
             (PDict
                [("unitsPerEm", instance_attr E infoInstanceObject "unitsPerEm");
                 ("ascender", instance_attr E infoInstanceObject "ascender");
                 ("descender", instance_attr E infoInstanceObject "descender");
                 ("xHeight", instance_attr E infoInstanceObject "xHeight")]))
  end.

Definition makeFontProportions :=
  memoize "makeFontProportions" makeFontProportions_function.

Definition is_IndexError (e : exn) : bool :=
  match e with
  | IndexError => true
  | _ => false
  end.

(** [makeOneGlyph(glyphName, location, bend, decomposeComponents, useVarlib,
    roundGeometry, clip)].  [self.useVarlib] is set before the mutator is
    asked for and set back only on the last line.  In the handler of
    [IndexError] the [return None] stands under [if self.debug], so without
    debug the next line reads a local that was never bound.  The result of
    [glyphInstanceObject.round()] is dropped. *)
Definition makeOneGlyph_function (self : nat) (args : list pyobj)
  (kwargs : dict) : M Cached :=
  '(bound, _) <-
    lift (bind_args {| parameters := [("glyphName", None);
                                      ("location", None);
                                      ("bend", Some PFalse);
                                      ("decomposeComponents", Some PTrue);
                                      ("useVarlib", Some PFalse);
                                      ("roundGeometry", Some PFalse);
                                      ("clip", Some PFalse)];
                       var_keyword := false |} args kwargs) ;;
  let glyphName := arg "glyphName" bound in
  let location := arg "location" bound in
  let bend := arg "bend" bound in
  d <- lift (items_of location) ;;
  o <- self_attr (fun o => o) ;;
  let '(continuousLocation, discreteLocation) := splitLocation o d in
  legal <- lift (checkDiscreteAxisValues o (opt_dict discreteLocation)) ;;
  if negb legal then debug_log "info" ;; ret (CInstance None)
  else
    let previousModel := useVarlib o in
    self_set (set_useVarlib (arg "useVarlib" bound)) ;;
    c <- getGlyphMutator self [glyphName]
           [("decomposeComponents", arg "decomposeComponents" bound);
            ("discreteLocation", opt_dict discreteLocation)] ;;
    '(glyphMutator, unicodes) <- lift (cached_glyphMutator c) ;;
    match glyphMutator with
    | None => ret (CInstance None)
    | Some glyphMutator =>
        if negb (mutator_bool E glyphMutator) then ret (CInstance None)
        else
          made <-
            try_except
              (c <- isAnisotropic self [location] [] ;;
               anisotropic <- lift (cached_value c) ;;
               if negb (truthy anisotropic) then
                 g <- make_instance glyphMutator (PDict continuousLocation)
                        bend ;;
                 ret (Some g)
               else
                 debug_log "info" ;;
                 c <- splitAnisotropic self [PDict continuousLocation] [] ;;
                 pair <- lift (cached_value c) ;;
                 match pair with
                 | PTuple [locHorizontal; locVertical] =>
                     h <- make_instance glyphMutator locHorizontal bend ;;
                     v <- make_instance glyphMutator locVertical bend ;;
                     debug_log "info" ;;
                     ret (Some (Merged h v))
                 | _ => raise TypeError
                 end)
              is_IndexError
              (o' <- self_attr (fun o => o) ;;
               if debug o' then logger_call "info" ;; ret None
               else raise (UnboundLocalError "glyphInstanceObject")) ;;
          match made with
          | None => ret (CInstance None)
          | Some glyphInstanceObject =>
              self_set (set_useVarlib previousModel) ;;
              ret (CInstance (Some (WithUnicodes glyphInstanceObject unicodes)))
          end
    end.

Definition makeOneGlyph := memoize "makeOneGlyph" makeOneGlyph_function.

End Methods.

(** * Notions the properties are stated with *)




(** The entries [glyphChanged(glyphName)] looks for. *)
Definition glyph_entry (glyphName : pyobj) (key : Key) : bool :=
  glyph_scoped (key_name key)
  && match key_leading_argument key with
     | Ok x => py_eqb x glyphName
     | Raise _ => false
     end.

(** A glyph-scoped key has a [key[2][0][0]]: the call that made it passed a
    first positional argument, and one whose [immutify] is not empty. *)
Definition has_leading_argument (key : Key) : Prop :=
  glyph_scoped (key_name key) = true ->
  exists x, key_leading_argument key = Ok x.

(** * Scenarios *)

(** A designspace with a continuous axis [weight] (default 400) and, in some
    scenarios, a discrete axis [width] with the values 0 and 1; neither axis
    has a map, so [map_forward] returns its argument. *)
Definition weight_axis : AxisDescriptor.t :=
  {| AxisDescriptor.name := "weight";
     AxisDescriptor.default := PInt 400;
     AxisDescriptor.values := None;
     AxisDescriptor.map_forward := fun v => v |}.

Definition width_axis : AxisDescriptor.t :=
  {| AxisDescriptor.name := "width";
     AxisDescriptor.default := PInt 0;
     AxisDescriptor.values := Some [PInt 0; PInt 1];
     AxisDescriptor.map_forward := fun v => v |}.

(** The source [name], stored in [name.ufo], at [weight]. *)
Definition source_at (name : string) (weight : Z) (muted : list string)
  : SourceDescriptor.t :=
  {| SourceDescriptor.name := Some name;
     SourceDescriptor.path := String.append name ".ufo";
     SourceDescriptor.location := [("weight", PInt weight)];
     SourceDescriptor.layerName := None;
     SourceDescriptor.mutedGlyphNames := muted |}.

Definition glyph_with (name : string) (code : Z) (outline : list (Z * Z))
  : Glyph :=
  {| glyph_name := name; glyph_unicodes := Some [code];
     glyph_width := 500; glyph_outline := outline |}.

Definition triangle : list (Z * Z) := [(0, 0); (100, 0); (100, 100)]%Z.

Definition font_of (id : nat) (path : string) (glyphs : list (string * Glyph))
  : Font :=
  {| font_id := id; font_path := Some path; font_glyphs := glyphs;
     font_defaultLayerName := Some "public.default";
     font_info := {| unitsPerEm := 1000; ascender := 750;
                     descender := -250; xHeight := 500 |} |}.

(** The files on disk: in [light.ufo] the glyph [a] has no outline, in
    [regular.ufo] it has one; [b] has one in both.  There is no
    [bold.ufo]. *)
Definition disk : list (string * Font) :=
  [("light.ufo",
    font_of 1 "light.ufo"
      [("a", glyph_with "a" 97 []); ("b", glyph_with "b" 98 triangle)]);
   ("regular.ufo",
    font_of 2 "regular.ufo"
      [("a", glyph_with "a" 97 triangle); ("b", glyph_with "b" 98 triangle)])].

Fixpoint disk_get (path : string) (d : list (string * Font)) : option Font :=
  match d with
  | [] => None
  | (p, f) :: r => if String.eqb path p then Some f else disk_get path r
  end.

(** The collaborators of the scenarios: a glyph is empty when its outline
    has no point (no glyph here is whitespace), the engines accept what they
    are given, and the module is imported, so [loc] is not bound. *)
Definition scenario : Externals :=
  {| os_path_exists :=
       fun p => match disk_get p disk with Some _ => true | None => false end;
     _instantiateFont :=
       fun p => match disk_get p disk with
                | Some f => f
                | None => font_of 0 p []
                end;
     checkGlyphIsEmpty :=
       fun g => match glyph_outline g with [] => true | _ => false end;
     VariationModelMutator_raises := fun _ _ => None;
     buildMutator_raises := fun _ _ _ => None;
     mutator_bool := fun _ => true;
     makeInstance_raises := fun _ _ _ => None;
     instance_attr := fun _ _ => PNone;
     module_loc := None |}.

Definition document (axes : list AxisDescriptor.t)
  (sources : list SourceDescriptor.t) : DesignSpaceDocument.t :=
  {| DesignSpaceDocument.path := Some "family.designspace";
     DesignSpaceDocument.axes := axes;
     DesignSpaceDocument.sources := sources;
     DesignSpaceDocument.instances := [] |}.

(** The attributes [UFOOperator(document, debug=debug)] starts with. *)
Definition operator (d : DesignSpaceDocument.t) (debug : bool) : UFOOperator :=
  {| ufoVersion := 3; useVarlib := PTrue; _fontsLoaded := false; fonts := [];
     roundGeometry := false; mutedAxisNames := None; debug := debug;
     logger := if debug
               then Some {| log_for := "family.designspace" |}
               else None;
     doc := d; glyphNames := None; _infoMutator := None |}.

(** The light source first, the regular one, at the default, second. *)
Definition light_then_regular : DesignSpaceDocument.t :=
  document [weight_axis] [source_at "light" 100 []; source_at "regular" 400 []].

(** What a result keeps of each source: the source's name, and whether the
    glyph it contributed is empty. *)
Definition kept (E : Externals) (r : res Cached)
  : res (list (option string * bool)) :=
  match r with
  | Ok (CItems items _) =>
      Ok (map
            (fun item : Item =>
               (si_sourceName (snd item),
                match snd (fst item) with
                | MathGlyph g _ => checkGlyphIsEmpty E g
                | MathInfo _ => false
                end))
            items)
  | Ok _ => Raise TypeError
  | Raise e => Raise e
  end.

(** The names, owners and positional arguments of the keys in the cache. *)
Definition cache_keys (w : World) : list (string * nat * list (list pyobj)) :=
  map (fun kv : Key * Cached =>
         (key_name (fst kv), key_self (fst kv), key_args (fst kv)))
    (_memoizeCache w).

(** Two operators, 1 and 2, on the same document, with the same attributes.
    Operator 1 has collected the sources of [a] and of [b]; operator 2 has
    collected the sources of [a] and built its mutator. *)
Definition two_operators : World :=
  snd ((loadFonts scenario 1 false ;;
        collectSourcesForGlyph scenario 1 [PStr "a"] [] ;;
        collectSourcesForGlyph scenario 1 [PStr "b"] [] ;;
        collectSourcesForGlyph scenario 2 [PStr "a"] [] ;;
        getGlyphMutator scenario 2 [PStr "a"] [])
         (fresh (operator light_then_regular false))).

(** The names of the sources in a result of
    [findSourceDescriptorsForDiscreteLocation]. *)
Definition source_names (r : res Cached) : res (list (option string)) :=
  match r with
  | Ok (CSources l) => Ok (map SourceDescriptor.name l)
  | Ok _ => Raise TypeError
  | Raise e => Raise e
  end.

(** Operator 1 after it has loaded its fonts and listed its sources. *)
Definition sources_listed : World :=
  snd ((loadFonts scenario 1 false ;;
        findSourceDescriptorsForDiscreteLocation 1 [] [])
         (fresh (operator light_then_regular false))).

(** The regular source mutes the glyph [a]. *)
Definition regular_mutes_a : DesignSpaceDocument.t :=
  document [weight_axis]
    [source_at "light" 100 []; source_at "regular" 400 ["a"]].

(** A designspace with the discrete axis [width]. *)
Definition with_width : DesignSpaceDocument.t :=
  document [weight_axis; width_axis]
    [source_at "light" 100 []; source_at "regular" 400 []].



(** Operator 1 with its fonts loaded. *)
Definition fonts_loaded : World :=
  snd (loadFonts scenario 1 false (fresh (operator light_then_regular false))).

(** What collecting the sources of [a] returns there. *)
Definition sources_of_a : Cached :=
  match fst (collectSourcesForGlyph scenario 1 [PStr "a"] [] fonts_loaded) with
  | Ok r => r
  | Raise _ => CItems [] []
  end.

(** A third source whose file is not on disk. *)
Definition with_missing_bold : DesignSpaceDocument.t :=
  document [weight_axis]
    [source_at "light" 100 []; source_at "regular" 400 [];
     source_at "bold" 900 []].

Definition bold_missing : World :=
  snd (loadFonts scenario 1 false (fresh (operator with_missing_bold false))).

(** The regular font as an editor has it open: another object, same path. *)
Definition regular_open : Font :=
  font_of 9 "regular.ufo"
    [("a", glyph_with "a" 97 triangle); ("b", glyph_with "b" 98 triangle)].

(** * More notions and scenarios *)

(** ** Values whose key can be hashed *)

(** A value whose [immutify] can be hashed: below dicts and lists, every
    value is hashable. *)
Fixpoint plain (o : pyobj) : bool :=
  match o with
  | PDict kvs =>
      (fix go (kvs : list (string * pyobj)) : bool :=
         match kvs with
         | [] => true
         | (_, v) :: r => plain v && go r
         end) kvs
  | PList vs =>
      (fix go (vs : list pyobj) : bool :=
         match vs with
         | [] => true
         | v :: r => plain v && go r
         end) vs
  | _ => hashable o
  end.

(** ** Locations and sources *)

(** The names of the discrete axes, as [splitLocation] lists them. *)
Definition discrete_names (o : UFOOperator) : list string :=
  map AxisDescriptor.name (getOrderedDiscreteAxes o).

(** A source agrees with a discrete location: it has every axis named
    there, with the value given there. *)
Definition agrees_with (d : dict) (s : SourceDescriptor.t) : Prop :=
  forall name value,
    In (name, value) d ->
    dict_get name (SourceDescriptor.location s) = Some value.

(** The value [newDefaultLocation] gives an axis. *)
Definition default_value (bend : pyobj) (discreteLocation : option dict)
  (a : AxisDescriptor.t) : pyobj :=
  let axisValue :=
    match discreteLocation with
    | Some d =>
        match dict_get (AxisDescriptor.name a) d with
        | Some v => v
        | None => AxisDescriptor.default a
        end
    | None => AxisDescriptor.default a
    end in
  if truthy bend then AxisDescriptor.map_forward a axisValue else axisValue.

(** ** Discrete values and pairs *)

(** The value a discrete axis has in a location, [None] when it has none:
    [location.get(discreteAxis.name)]. *)
Definition value_at (a : AxisDescriptor.t) (location : dict) : pyobj :=
  match dict_get (AxisDescriptor.name a) location with
  | Some v => v
  | None => PNone
  end.

(** The two sides [splitAnisotropic] makes of an entry. *)
Definition horizontal_of (item : string * pyobj) : string * pyobj :=
  match snd item with
  | PTuple (val0 :: _ :: _) => (fst item, val0)
  | _ => item
  end.

Definition vertical_of (item : string * pyobj) : string * pyobj :=
  match snd item with
  | PTuple (_ :: val1 :: _) => (fst item, val1)
  | _ => item
  end.

(** A tuple too short to be a pair. *)
Definition short_tuple (v : pyobj) : bool :=
  match v with
  | PTuple [] | PTuple [_] => true
  | _ => false
  end.

(** ** Muted axes *)

(** A muted axis that the source has away from the axis's default. *)
Definition off_default (defaults location : dict) (mutedAxisName : string)
  : bool :=
  match dict_get mutedAxisName location, dict_get mutedAxisName defaults with
  | Some v, Some d => negb (py_eqb v d)
  | _, _ => false
  end.

(** An entry that [filterThisLocation] leaves in the location: its axis is
    not a muted axis that the document declares. *)
Definition stays (defaults : dict) (mutedAxes : list string)
  (item : string * pyobj) : bool :=
  negb (str_mem (fst item) mutedAxes && dict_mem (fst item) defaults).

(** ** What a method leaves unchanged *)

Create HintDb frame.

(** A computation that leaves every attribute of the operator as it was,
    whether it returns or raises. *)
Definition keeps_operator (A : Type) (c : M A) : Prop :=
  forall w : World, this (snd (c w)) = this w.

(** A computation that leaves [self.debug] and [self.logger] as they
    were. *)
Definition keeps_logger (A : Type) (c : M A) : Prop :=
  forall w : World,
    debug (this (snd (c w))) = debug (this w)
    /\ logger (this (snd (c w))) = logger (this w).

(** What holds of the outcome of a computation started in [w]. *)
Definition outcome (A : Type) (c : M A) (w : World)
  (Q : res A -> World -> Prop) : Prop :=
  Q (fst (c w)) (snd (c w)).

(** The parameters of [makeOneGlyph] after [self]. *)
Definition makeOneGlyph_signature : Signature :=
  {| parameters := [("glyphName", None);
                    ("location", None);
                    ("bend", Some PFalse);
                    ("decomposeComponents", Some PTrue);
                    ("useVarlib", Some PFalse);
                    ("roundGeometry", Some PFalse);
                    ("clip", Some PFalse)];
     var_keyword := false |}.

(** ** What a call leaves out of the cache *)

Create HintDb absent.


(** A computation that stores nothing under the key [k]: when the cache has
    no entry for it before, it has none after. *)
Definition keeps_absent (k : Key) (A : Type) (c : M A) : Prop :=
  forall w : World,
    cache_get k (_memoizeCache w) = None ->
    cache_get k (_memoizeCache (snd (c w))) = None.


(** ** Loaded fonts *)

(** A source that has a name under which [self.fonts] has an entry, a font
    or [None]. *)
Definition has_entry (fonts : list (string * option Font))
  (s : SourceDescriptor.t) : bool :=
  match SourceDescriptor.name s with
  | Some n =>
      match fonts_get n fonts with
      | Some _ => true
      | None => false
      end
  | None => false
  end.

(** An operator that can log whenever [debug] asks it to. *)
Definition can_log (o : UFOOperator) : bool :=
  if debug o then match logger o with Some _ => true | None => false end
  else true.

(** The test of [updateFonts]: the stored font has the path of the new one
    and is another object. *)
Definition replaces (newFont haveFont : Font) : bool :=
  opt_str_eqb (font_path haveFont) (font_path newFont)
  && negb (Nat.eqb (font_id haveFont) (font_id newFont)).

(** An entry of [self.fonts] after [updateFonts([newFont])]. *)
Definition updated (newFont : Font) (entry : string * option Font)
  : string * option Font :=
  match snd entry with
  | Some haveFont =>
      if replaces newFont haveFont then (fst entry, Some newFont) else entry
  | None => entry
  end.

(** Whether an entry is replaced. *)
Definition replaced (newFont : Font) (entry : string * option Font) : bool :=
  match snd entry with
  | Some haveFont => replaces newFont haveFont
  | None => false
  end.

(** Every entry of [self.fonts] holds a font. *)
Definition all_loaded (fonts : list (string * option Font)) : bool :=
  forallb (fun entry : string * option Font =>
             match snd entry with Some _ => true | None => false end)
    fonts.

(** ** Cache entries and layers *)

(** The number of entries of the cache that a function has stored. *)
Definition entries_of (functionName : string) (cache : list (Key * Cached))
  : nat :=
  List.length
    (filter (fun kv => String.eqb (key_name (fst kv)) functionName) cache).

(** The first source of a list that is not a layer of a font. *)
Fixpoint first_unlayered (sources : list SourceDescriptor.t)
  : option SourceDescriptor.t :=
  match sources with
  | [] => None
  | s :: rest =>
      match SourceDescriptor.layerName s with
      | None => Some s
      | Some _ => first_unlayered rest
      end
  end.

(** ** More scenarios *)

(** Operator 1 after [collectSourcesForGlyph(glyphName="a")]: the glyph name
    given by keyword. *)
Definition a_by_keyword : World :=
  snd (collectSourcesForGlyph scenario 1 [] [("glyphName", PStr "a")]
         fonts_loaded).

(** A third source that is the layer [support] of [regular.ufo]. *)
Definition layer_of_regular : SourceDescriptor.t :=
  {| SourceDescriptor.name := Some "regular.support";
     SourceDescriptor.path := "regular.ufo";
     SourceDescriptor.location := [("weight", PInt 700)];
     SourceDescriptor.layerName := Some "support";
     SourceDescriptor.mutedGlyphNames := [] |}.

Definition with_layer : World :=
  snd (loadFonts scenario 1 false
         (fresh
            (operator
               (document [weight_axis]
                  [source_at "light" 100 []; source_at "regular" 400 [];
                   layer_of_regular])
               false))).

(** Operator 1 on the designspace whose regular source mutes [a], fonts
    loaded. *)
Definition muted_a_loaded : World :=
  snd (loadFonts scenario 1 false (fresh (operator regular_mutes_a false))).

(** Operator 1 with its fonts loaded and the sources of [a] in the cache. *)
Definition a_collected : World :=
  snd (collectSourcesForGlyph scenario 1 [PStr "a"] [] fonts_loaded).



(** * Properties *)

(** ** Equality of values and of keys *)

Lemma py_eqb_eq (a b : pyobj) : py_eqb a b = true <-> a = b.
Proof.
  revert b. induction a using pyobj_nested_ind; intros b.
  - destruct b; simpl; split; congruence.
  - destruct b; simpl; try (split; congruence).
    rewrite Z.eqb_eq. split; congruence.
  - destruct b; simpl; try (split; congruence).
    rewrite String.eqb_eq. split; congruence.
  - destruct b; simpl; try (split; congruence).
    rewrite Nat.eqb_eq. split; congruence.
  - destruct b as [| | | |ys| |]; simpl; try (split; congruence).
    revert ys. induction H as [|x xs Hx _ IH]; intros [|y ys];
      try (split; congruence).
    rewrite andb_true_iff, Hx, (IH ys).
    split; [intros [-> E]; congruence | intros E; split; congruence].
  - destruct b as [| | | | |ys|]; simpl; try (split; congruence).
    revert ys. induction H as [|x xs Hx _ IH]; intros [|y ys];
      try (split; congruence).
    rewrite andb_true_iff, Hx, (IH ys).
    split; [intros [-> E]; congruence | intros E; split; congruence].
  - destruct b as [| | | | | |ys]; simpl; try (split; congruence).
    revert ys. induction H as [|[k x] xs Hx _ IH]; intros [|[k' y] ys];
      try (split; congruence).
    simpl in Hx.
    rewrite !andb_true_iff, String.eqb_eq, Hx, (IH ys).
    split; [intros [[-> ->] E]; congruence
           | intros E; repeat split; congruence].
Qed.

Lemma py_eqb_refl (a : pyobj) : py_eqb a a = true.
Proof. now apply py_eqb_eq. Qed.

(** ** [immutify] and [memoize] *)

(** The three assertions in the comment of [immutify]. *)
Example immutify_10 : immutify (PInt 10) = [PInt 10].
Proof. reflexivity. Qed.

Example immutify_list :
  immutify (PList [PInt 10; PInt 20; PStr "a"]) = [PInt 10; PInt 20; PStr "a"].
Proof. reflexivity. Qed.

Example immutify_dict :
  immutify (PDict [("foo", PStr "bar"); ("world", PList [PStr "a"; PStr "b"])])
  = [PStr "foo"; PTuple [PStr "bar"];
     PStr "world"; PTuple [PStr "a"; PStr "b"]].
Proof. reflexivity. Qed.

Lemma list_eqb_eq {A : Type} (eqb : A -> A -> bool) :
  (forall x y, eqb x y = true <-> x = y) ->
  forall xs ys, list_eqb eqb xs ys = true <-> xs = ys.
Proof.
  intros Heq xs. induction xs as [|x xs IH]; intros [|y ys]; simpl;
    try (split; congruence).
  rewrite andb_true_iff, Heq, IH.
  split; [intros [-> ->]; reflexivity | intros E; split; congruence].
Qed.

Lemma key_eqb_eq (a b : Key) : key_eqb a b = true <-> a = b.
Proof.
  unfold key_eqb. destruct a as [n s ar kw], b as [n' s' ar' kw']; simpl.
  rewrite !andb_true_iff, String.eqb_eq, Nat.eqb_eq.
  rewrite (list_eqb_eq (list_eqb py_eqb) (list_eqb_eq py_eqb py_eqb_eq)).
  rewrite (list_eqb_eq py_eqb py_eqb_eq).
  split; [intros [[[-> ->] ->] ->]; reflexivity
         | intros E; injection E; intros; subst; auto].
Qed.

Lemma key_eqb_refl (a : Key) : key_eqb a a = true.
Proof. now apply key_eqb_eq. Qed.

Lemma cache_get_set_same (V : Type) (k : Key) (v : V) (c : list (Key * V)) :
  cache_get k (cache_set k v c) = Some v.
Proof.
  induction c as [|[k' v'] r IH]; simpl.
  - now rewrite key_eqb_refl.
  - destruct (key_eqb k k') eqn:E; simpl; rewrite ?key_eqb_refl, ?E; auto.
Qed.




(** After a memoized call has returned, the cache holds its result under the
    key of the call. *)
Lemma memoize_stores (name : string)
  (function : nat -> list pyobj -> dict -> M Cached) (self : nat)
  (args : list pyobj) (kwargs : dict) (w : World) (r : Cached) :
  fst (memoize name function self args kwargs w) = Ok r ->
  key_hashable (make_key name self args kwargs) = true
  /\ cache_get (make_key name self args kwargs)
       (_memoizeCache (snd (memoize name function self args kwargs w)))
     = Some r.
Proof.
  unfold memoize.
  destruct (key_hashable (make_key name self args kwargs)); [|discriminate].
  destruct (cache_get (make_key name self args kwargs) (_memoizeCache w))
    as [c|] eqn:Hget.
  - simpl. intros [= ->]. split; [reflexivity | exact Hget].
  - destruct (function self args kwargs w) as [[result|e] w'];
      simpl; [|discriminate].
    intros [= ->]. split; [reflexivity | apply cache_get_set_same].
Qed.

(** A memoized call whose key is in the cache returns the cached result and
    counts a hit; the function is not called. *)
Lemma memoize_hit (name : string)
  (function : nat -> list pyobj -> dict -> M Cached) (self : nat)
  (args : list pyobj) (kwargs : dict) (w : World) (r : Cached) :
  key_hashable (make_key name self args kwargs) = true ->
  cache_get (make_key name self args kwargs) (_memoizeCache w) = Some r ->
  memoize name function self args kwargs w
  = (Ok r,
     with_stats
       (count_hit (make_key name self args kwargs) (_memoizeStats w)) w).
Proof. unfold memoize. now intros -> ->. Qed.


(** ** Updating fonts after a source was missing *)

Lemma updateFonts_inner_raises (newFont : Font)
  (items : list (string * option Font)) :
  In None (map snd items) ->
  forall (hasUpdated : bool) (w : World),
  exists attribute w',
    updateFonts_inner newFont items hasUpdated w
    = (Raise (AttributeError attribute), w').
Proof.
  induction items as [|[fontName [haveFont|]] rest IH]; simpl.
  - intros [].
  - intros [H|H]; [discriminate|]. intros hasUpdated w.
    destruct (opt_str_eqb (font_path haveFont) (font_path newFont)
              && negb (Nat.eqb (font_id haveFont) (font_id newFont))).
    + unfold bind at 1, debug_log at 1, logger_call.
      destruct (debug (this w)) eqn:Hdebug.
      * destruct (logger (this w)) eqn:Hlogger.
        -- unfold bind at 1, debug_log at 1, logger_call.
           rewrite Hdebug, Hlogger.
           unfold bind at 1, self_set. apply (IH H).
        -- eauto.
      * unfold bind at 1, debug_log at 1. rewrite Hdebug.
        unfold bind at 1, self_set. apply (IH H).
    + apply (IH H).
  - intros _ hasUpdated w. unfold raise. eauto.
Qed.

(** C10.  With a [None] among the loaded fonts, [updateFonts] on a list that
    is not empty raises an [AttributeError]: the inner loop reads the
    attribute [path] of every stored font. *)
Theorem updateFonts_raises_with_missing_font (self : nat)
  (fontObjects : list Font) (w : World) :
  fontObjects <> [] ->
  In None (map snd (fonts (this w))) ->
  exists attribute w',
    updateFonts self fontObjects w = (Raise (AttributeError attribute), w').
Proof.
  intros Hne Hnone. destruct fontObjects as [|newFont rest]; [congruence|].
  unfold updateFonts, bind at 1. simpl updateFonts_loop.
  unfold bind at 1, self_attr.
  unfold bind at 1.
  destruct (updateFonts_inner_raises newFont (fonts (this w)) Hnone false w)
    as (attribute & w' & ->).
  eauto.
Qed.

(** [loadFonts] leaves the entries it finds and records a source whose file
    is missing as [None]. *)
Lemma loadFonts_loop_keeps (E : Externals) (n : string) (f : option Font)
  (sources : list SourceDescriptor.t) :
  forall (i : nat) (fonts : list (string * option Font)) (names : list string),
  fonts_get n fonts = Some f ->
  fonts_get n (snd (fst (loadFonts_loop E i sources fonts names))) = Some f.
Proof.
  assert (Hset : forall m g fs, fonts_get n fs = Some f ->
                 fonts_get m fs = None ->
                 fonts_get n (fonts_set m g fs) = Some f).
  { intros m g fs. induction fs as [|[k h] r IH]; simpl; [discriminate|].
    destruct (String.eqb n k) eqn:Enk, (String.eqb m k) eqn:Emk; simpl;
      rewrite ?Enk; auto; try discriminate. }
  induction sources as [|sd rest IH]; intros i fonts names Hget; simpl.
  - exact Hget.
  - set (name := match SourceDescriptor.name sd with
                 | Some n0 => n0
                 | None => _
                 end).
    destruct (fonts_get name fonts) eqn:Hname.
    + specialize (IH (S i) fonts names Hget).
      destruct (loadFonts_loop E (S i) rest fonts names) as [[? ?] ?].
      exact IH.
    + destruct (os_path_exists E (SourceDescriptor.path sd)).
      * specialize (IH (S i) _ (add_names names
                                  (map fst (font_glyphs
                                     (_instantiateFont E
                                        (SourceDescriptor.path sd)))))
                       (Hset name (Some (_instantiateFont E
                                           (SourceDescriptor.path sd)))
                             fonts Hget Hname)).
        destruct (loadFonts_loop E (S i) rest _ _) as [[? ?] ?]. exact IH.
      * specialize (IH (S i) _ names (Hset name None fonts Hget Hname)).
        destruct (loadFonts_loop E (S i) rest _ _) as [[? ?] ?]. exact IH.
Qed.

Lemma fonts_get_set_same (n : string) (f : option Font)
  (fs : list (string * option Font)) :
  fonts_get n (fonts_set n f fs) = Some f.
Proof.
  induction fs as [|[k h] r IH]; simpl.
  - now rewrite String.eqb_refl.
  - destruct (String.eqb n k) eqn:Enk; simpl.
    + now rewrite String.eqb_refl.
    + now rewrite Enk.
Qed.

Lemma loadFonts_loop_records_missing (E : Externals) (n : string)
  (sd : SourceDescriptor.t) (rest : list SourceDescriptor.t) (i : nat)
  (fonts : list (string * option Font)) (names : list string) :
  SourceDescriptor.name sd = Some n ->
  fonts_get n fonts = None ->
  os_path_exists E (SourceDescriptor.path sd) = false ->
  fonts_get n (snd (fst (loadFonts_loop E i (sd :: rest) fonts names)))
  = Some None.
Proof.
  intros Hname Hget Hpath. simpl. rewrite Hname, Hget, Hpath.
  assert (H := @loadFonts_loop_keeps E n None rest (S i)
                 (fonts_set n None fonts) names (fonts_get_set_same n None fonts)).
  destruct (loadFonts_loop E (S i) rest (fonts_set n None fonts) names)
    as [[? ?] ?].
  exact H.
Qed.

(** ** The bias of the glyph mutator *)

Lemma newDefaultLocation_loop_bent_global (axes : list AxisDescriptor.t) :
  forall loc : dict,
  newDefaultLocation_loop PTrue PNone axes loc
  = Ok (fold_left
          (fun loc a =>
             dict_set (AxisDescriptor.name a)
               (AxisDescriptor.map_forward a (AxisDescriptor.default a)) loc)
          axes loc).
Proof.
  induction axes as [|a rest IH]; intros loc; simpl; [reflexivity|].
  apply IH.
Qed.



(** ** Invalidation *)

Lemma cache_del_app_other (V : Type) (k : Key) (kept l : list (Key * V)) :
  (forall kv, In kv kept -> key_eqb k (fst kv) = false) ->
  cache_del k (kept ++ l) = kept ++ cache_del k l.
Proof.
  induction kept as [|[k' v] kept IH]; intros H; simpl; [reflexivity|].
  assert (Hk := H (k', v) (or_introl eq_refl)). simpl in Hk. rewrite Hk.
  f_equal. apply IH. intros kv Hkv. apply H. now right.
Qed.

Lemma changed_fold (self : nat) (l : list (Key * Cached)) :
  forall kept : list (Key * Cached),
  (forall kv, In kv kept -> Nat.eqb (key_self (fst kv)) self = false) ->
  fold_left
    (fun cache key =>
       if Nat.eqb (key_self key) self then cache_del key cache else cache)
    (map fst l) (kept ++ l)
  = kept ++ filter (fun kv => negb (Nat.eqb (key_self (fst kv)) self)) l.
Proof.
  induction l as [|[k v] l IH]; intros kept Hkept; simpl; [reflexivity|].
  destruct (Nat.eqb (key_self k) self) eqn:Hk; simpl.
  - rewrite cache_del_app_other.
    + simpl. rewrite key_eqb_refl. now apply IH.
    + intros kv Hkv. specialize (Hkept kv Hkv).
      destruct (key_eqb k (fst kv)) eqn:Heq; [|reflexivity].
      apply key_eqb_eq in Heq. subst k. congruence.
  - change (kept ++ (k, v) :: l) with (kept ++ [(k, v)] ++ l).
    rewrite app_assoc, IH.
    + now rewrite <- app_assoc.
    + intros kv [Hkv|Hkv]%in_app_or; [now apply Hkept|].
      destruct Hkv as [<-|[]]. exact Hk.
Qed.

(** [changed] keeps exactly the entries of the other owners, in order. *)
Lemma changed_filters (self : nat) (w : World) :
  changed self w
  = (Ok tt,
     with_cache
       (filter (fun kv => negb (Nat.eqb (key_self (fst kv)) self))
          (_memoizeCache w))
       w).
Proof.
  unfold changed. do 2 f_equal.
  apply (changed_fold self (_memoizeCache w) []). intros kv [].
Qed.

Lemma changed_removes_owner (self : nat) (w : World) (k : Key) (v : Cached) :
  In (k, v) (_memoizeCache (snd (changed self w))) -> key_self k <> self.
Proof.
  rewrite changed_filters. simpl. intros [_ H]%filter_In. simpl in H.
  intros Heq. apply Nat.eqb_eq in Heq. now rewrite Heq in H.
Qed.

(** The passthroughs to the document do not touch the cache. *)
Lemma addAxis_keeps_cache (self : nat) (a : AxisDescriptor.t) (w : World) :
  _memoizeCache (snd (addAxis self a w)) = _memoizeCache w.
Proof. reflexivity. Qed.

Lemma addSource_keeps_cache (self : nat) (s : SourceDescriptor.t) (w : World) :
  _memoizeCache (snd (addSource self s w)) = _memoizeCache w.
Proof. reflexivity. Qed.

Lemma addInstance_keeps_cache (self : nat) (i : InstanceDescriptor.t)
  (w : World) :
  _memoizeCache (snd (addInstance self i w)) = _memoizeCache w.
Proof. reflexivity. Qed.

(** [read], their sibling, invalidates. *)
Lemma read_removes_owner (self : nat) (d : DesignSpaceDocument.t) (w : World)
  (k : Key) (v : Cached) :
  In (k, v) (_memoizeCache (snd (read self d w))) -> key_self k <> self.
Proof.
  unfold read, bind, self_set. apply changed_removes_owner.
Qed.

Lemma glyphChanged_loop_filters (glyphName : pyobj) (l : list (Key * Cached)) :
  forall (kept : list (Key * Cached)) (w : World),
  _memoizeCache w = kept ++ l ->
  (forall kv, In kv kept -> glyph_entry glyphName (fst kv) = false) ->
  (forall kv, In kv l -> has_leading_argument (fst kv)) ->
  glyphChanged_loop glyphName (map fst l) w
  = (Ok tt,
     with_cache
       (kept ++ filter (fun kv => negb (glyph_entry glyphName (fst kv))) l) w).
Proof.
  induction l as [|[k v] l IH]; intros kept w Hcache Hkept Hkeys.
  - simpl. rewrite app_nil_r in *. unfold ret. rewrite <- Hcache.
    now destruct w.
  - assert (Hl : forall kv, In kv l -> has_leading_argument (fst kv))
      by (intros kv Hkv; apply Hkeys; now right).
    assert (Hk := Hkeys (k, v) (or_introl eq_refl)). simpl in Hk.
    assert (Hskip : glyph_entry glyphName k = false ->
              glyphChanged_loop glyphName (map fst l) w
              = (Ok tt,
                 with_cache
                   (kept ++
                    filter (fun kv => negb (glyph_entry glyphName (fst kv)))
                      ((k, v) :: l)) w)).
    { intros Hentry. simpl filter. simpl fst. rewrite Hentry. simpl negb.
      cbv iota.
      rewrite (IH (kept ++ [(k, v)]) w).
      - now rewrite <- app_assoc.
      - now rewrite <- app_assoc.
      - intros kv [Hkv|Hkv]%in_app_or; [now apply Hkept|].
        destruct Hkv as [<-|[]]. exact Hentry.
      - exact Hl. }
    simpl map. cbn [glyphChanged_loop].
    destruct (glyph_scoped (key_name k)) eqn:Hscoped.
    + destruct (Hk Hscoped) as [x Hx]. rewrite Hx.
      unfold bind at 1, bind at 1, lift.
      destruct (py_eqb x glyphName) eqn:Hglyph.
      * unfold cache_delete.
        assert (Hentry : glyph_entry glyphName k = true)
          by (unfold glyph_entry; now rewrite Hscoped, Hx, Hglyph).
        simpl filter. simpl fst. rewrite Hentry. simpl negb. cbv iota.
        rewrite (IH kept).
        -- reflexivity.
        -- simpl. rewrite Hcache. rewrite cache_del_app_other.
           ++ simpl. now rewrite key_eqb_refl.
           ++ intros kv Hkv. specialize (Hkept kv Hkv).
              destruct (key_eqb k (fst kv)) eqn:Heq; [|reflexivity].
              apply key_eqb_eq in Heq. subst k. congruence.
        -- exact Hkept.
        -- exact Hl.
      * unfold ret. apply Hskip.
        unfold glyph_entry. now rewrite Hscoped, Hx, Hglyph.
    + unfold bind at 1, ret. apply Hskip.
      unfold glyph_entry. now rewrite Hscoped.
Qed.

(** [glyphChanged] deletes the glyph's entries of every owner. *)
Lemma glyphChanged_filters (self : nat) (glyphName : pyobj) (w : World) :
  (forall kv, In kv (_memoizeCache w) -> has_leading_argument (fst kv)) ->
  glyphChanged self glyphName w
  = (Ok tt,
     with_cache
       (filter (fun kv => negb (glyph_entry glyphName (fst kv)))
          (_memoizeCache w))
       w).
Proof.
  intros Hkeys. unfold glyphChanged.
  now rewrite (@glyphChanged_loop_filters glyphName (_memoizeCache w) [] w).
Qed.

Lemma glyphChanged_ignores_receiver (self other : nat) (glyphName : pyobj)
  (w : World) :
  glyphChanged self glyphName w = glyphChanged other glyphName w.
Proof. reflexivity. Qed.

(** ** Collecting the sources of a glyph *)

(** The turn of the loop for a source that is on disk and mutes the glyph:
    the source is skipped when the operator has a logger, and the call to
    the logger fails when it has none. *)
Lemma collectSourcesForGlyph_step_muted (E : Externals)
  (glyphName : string) (decomposeComponents : pyobj) (acc : Collected)
  (sd : SourceDescriptor.t) (w : World) :
  os_path_exists E (SourceDescriptor.path sd) = true ->
  In glyphName (SourceDescriptor.mutedGlyphNames sd) ->
  collectSourcesForGlyph_step E (PStr glyphName) decomposeComponents acc sd w
  = match logger (this w) with
    | Some _ => (Ok acc, w)
    | None => (Raise (AttributeError "info"), w)
    end.
Proof.
  intros Hpath Hmuted. unfold collectSourcesForGlyph_step.
  rewrite Hpath. simpl negb. cbv iota.
  assert (Hmem : py_mem (PStr glyphName)
                   (map PStr (SourceDescriptor.mutedGlyphNames sd)) = true).
  { unfold py_mem. apply existsb_exists. exists (PStr glyphName).
    split; [now apply in_map | apply py_eqb_refl]. }
  rewrite Hmem. unfold bind, logger_call, ret. cbn.
  now destruct (logger (this w)).
Qed.

(** Once a glyph was found empty, every source collected afterwards is
    recorded as empty, whatever its own glyph is. *)
Lemma collectSourcesForGlyph_step_sticky (E : Externals)
  (glyphName decomposeComponents : pyobj) (acc acc' : Collected)
  (sd : SourceDescriptor.t) (w w' : World) :
  collectSourcesForGlyph_step E glyphName decomposeComponents acc sd w
  = (Ok acc', w') ->
  foundEmpty acc = true ->
  foundEmpty acc' = true
  /\ (empties acc' = empties acc
      \/ exists isDefault, empties acc' = empties acc ++ [(isDefault, true)]).
Proof.
  intros Hstep Hfound. unfold collectSourcesForGlyph_step in Hstep.
  unfold bind, lift, ret, raise, self_attr, debug_log, logger_call in Hstep.
  repeat match type of Hstep with
         | context [match ?x with _ => _ end] =>
             lazymatch x with
             | context [match _ with _ => _ end] => fail
             | _ => destruct x eqn:?
             end
         | context [if ?x then _ else _] => destruct x eqn:?
         end;
    try discriminate;
    injection Hstep as <- <-; simpl; rewrite ?Hfound; eauto.
Qed.

(** ** Locations without a discrete value *)

Lemma checkDiscreteAxisValues_None (o : UFOOperator) :
  getOrderedDiscreteAxes o <> [] ->
  checkDiscreteAxisValues o PNone = Raise (AttributeError "get").
Proof.
  unfold checkDiscreteAxisValues.
  destruct (getOrderedDiscreteAxes o); [congruence | reflexivity].
Qed.

Lemma splitLocation_without_discrete (o : UFOOperator) (location : dict) :
  (forall kv, In kv location ->
     str_mem (fst kv) (map AxisDescriptor.name (getOrderedDiscreteAxes o))
     = false) ->
  snd (splitLocation o location) = None.
Proof.
  unfold splitLocation. intros Hloc.
  match goal with
  | |- context [fold_left ?f location ([], [])] =>
      assert (H : forall l c,
                (forall kv, In kv l ->
                   str_mem (fst kv)
                     (map AxisDescriptor.name (getOrderedDiscreteAxes o))
                   = false) ->
                snd (fold_left f l (c, [])) = [])
  end.
  { induction l as [|[n v] l IH]; intros c Hl; simpl; [reflexivity|].
    assert (Hn := Hl (n, v) (or_introl eq_refl)). simpl in Hn. rewrite Hn.
    apply IH. intros kv Hkv. apply Hl. now right. }
  specialize (H location [] Hloc).
  match goal with
  | |- snd (match ?X with _ => _ end) = _ =>
      change (snd X = []) in H; destruct X as [c d]
  end.
  simpl in H. now subst d.
Qed.

(** When the document has a discrete axis and the location names none,
    [makeOneGlyph] raises. *)
Lemma makeOneGlyph_function_raises (E : Externals) (self : nat)
  (glyphName : pyobj) (location : dict) (w : World) :
  getOrderedDiscreteAxes (this w) <> [] ->
  (forall kv, In kv location ->
     str_mem (fst kv)
       (map AxisDescriptor.name (getOrderedDiscreteAxes (this w))) = false) ->
  makeOneGlyph_function E self [glyphName; PDict location] [] w
  = (Raise (AttributeError "get"), w).
Proof.
  intros Haxes Hloc.
  unfold makeOneGlyph_function, bind, lift, self_attr. simpl.
  unfold arg. simpl.
  assert (Hsplit := splitLocation_without_discrete (this w) location Hloc).
  destruct (splitLocation (this w) location) as [c d]. simpl in Hsplit.
  subst d. simpl opt_dict.
  now rewrite checkDiscreteAxisValues_None.
Qed.

(** ** Pairs given as lists *)

Lemma splitAnisotropic_loop_without_tuples (location : dict) :
  (forall kv, In kv location -> forall l, snd kv <> PTuple l) ->
  forall x : dict,
  splitAnisotropic_loop location x x
  = Ok (fold_left (fun acc kv => dict_set (fst kv) (snd kv) acc) location x,
        fold_left (fun acc kv => dict_set (fst kv) (snd kv) acc) location x).
Proof.
  induction location as [|[dim val] rest IH]; intros Hloc x; simpl;
    [reflexivity|].
  assert (Hval := Hloc (dim, val) (or_introl eq_refl)). simpl in Hval.
  assert (Hrest : forall kv, In kv rest -> forall l, snd kv <> PTuple l)
    by (intros kv Hkv; apply Hloc; now right).
  destruct val as [| | | |t| |]; try apply (IH Hrest).
  exfalso. now apply (Hval t).
Qed.

(** A location with a list among its values and no tuple is anisotropic for
    [isAnisotropic], and [splitAnisotropic] returns the same location
    twice. *)
Lemma list_pairs_are_not_split (self : nat) (location : dict) (w : World) :
  (exists dim l, In (dim, PList l) location) ->
  (forall kv, In kv location -> forall l, snd kv <> PTuple l) ->
  isAnisotropic_function self [PDict location] [] w = (Ok (CValue PTrue), w)
  /\ exists x,
       splitAnisotropic_function self [PDict location] [] w
       = (Ok (CValue (PTuple [PDict x; PDict x])), w).
Proof.
  intros (dim & l & Hin) Htuples. split.
  - unfold isAnisotropic_function, bind, lift, ret. simpl. unfold arg. simpl.
    replace (existsb _ location) with true; [reflexivity|].
    symmetry. apply existsb_exists. now exists (dim, PList l).
  - eexists.
    unfold splitAnisotropic_function, bind, lift, ret. simpl.
    unfold arg. simpl.
    now rewrite (splitAnisotropic_loop_without_tuples location Htuples []).
Qed.

(** ** Font proportions *)

(** When the module is imported, [makeFontProportions] returns nothing but
    the defaults: with an info mutator it raises. *)
Lemma makeFontProportions_function_returns_defaults (E : Externals)
  (self : nat) (args : list pyobj) (kwargs : dict) (w w' : World)
  (r : Cached) :
  module_loc E = None ->
  makeFontProportions_function E self args kwargs w = (Ok r, w') ->
  r = CValue (PDict default_proportions).
Proof.
  intros Hloc. unfold makeFontProportions_function.
  unfold bind at 1. unfold lift at 1.
  destruct (bind_args _ args kwargs) as [[bound extra]|e]; [|discriminate].
  unfold bind at 1. unfold lift at 1.
  destruct (items_of (arg "location" bound)) as [d|e]; [|discriminate].
  unfold bind at 1. unfold self_attr at 1.
  destruct (splitLocation (this w) d) as [continuousLocation discreteLocation].
  unfold bind at 1.
  destruct (getInfoMutator E self [] _ w) as [[c|e] w1]; [|discriminate].
  unfold bind at 1. unfold lift at 1.
  destruct (cached_mutator c) as [[infoMutator|]|e]; [| |discriminate].
  - unfold bind at 1.
    destruct (isAnisotropic self _ [] w1) as [[c'|e] w2]; [|discriminate].
    unfold bind at 1. unfold lift at 1.
    destruct (cached_value c') as [anisotropic|e]; [|discriminate].
    unfold bind at 1. rewrite Hloc.
    destruct (negb (truthy anisotropic)); unfold raise; discriminate.
  - unfold ret. now intros [= <- _].
Qed.

(** ** The scenarios *)

Example operator_is_constructed (d : DesignSpaceDocument.t) (debug : bool) :
  DesignSpaceDocument.path d = Some "family.designspace" ->
  __init__ (Some d) 3 PTrue debug = Ok (operator d debug).
Proof. unfold __init__, operator. intros ->. now destruct debug. Qed.

(** C1 at a failing input.  The glyph [a] is empty in the light source and
    not in the regular source, which is at the default location.  The light
    source is collected first and sets [foundEmpty]; the flag stays set, so
    the default is recorded as empty, empties are allowed, and both items are
    kept: an empty glyph and a glyph that is not empty, although the glyph of
    the default is not empty. *)
Theorem collectSourcesForGlyph_keeps_empty_beside_default :
  isLocalDefault (operator light_then_regular false) [("weight", PInt 400)]
  = Ok true
  /\ kept scenario
       (fst ((loadFonts scenario 1 false ;;
              collectSourcesForGlyph scenario 1 [PStr "a"] [])
               (fresh (operator light_then_regular false))))
     = Ok [(Some "light", true); (Some "regular", false)].
Proof. split; vm_compute; reflexivity. Qed.

(** With the same two sources in the other order the default is collected
    before the flag is set, and only its glyph is kept. *)
Example collectSourcesForGlyph_regular_first :
  kept scenario
    (fst ((loadFonts scenario 1 false ;;
           collectSourcesForGlyph scenario 1 [PStr "a"] [])
            (fresh (operator
                      (document [weight_axis]
                         [source_at "regular" 400 []; source_at "light" 100 []])
                      false))))
  = Ok [(Some "regular", false)].
Proof. vm_compute; reflexivity. Qed.

(** C2 at a failing input.  [glyphChanged("a")] on operator 1 also deletes
    the entries of operator 2 for the glyph [a]; of the glyph-scoped entries
    only the one of operator 1 for [b] is left. *)
Theorem glyphChanged_deletes_entries_of_other_owner :
  cache_keys two_operators
  = [("newDefaultLocation", 1, []);
     ("collectSourcesForGlyph", 1, [[PStr "a"]]);
     ("collectSourcesForGlyph", 1, [[PStr "b"]]);
     ("newDefaultLocation", 2, []);
     ("collectSourcesForGlyph", 2, [[PStr "a"]]);
     ("collectSourcesForGlyph", 2, [[PStr "a"]]);
     ("newDefaultLocation", 2, []);
     ("getGlyphMutator", 2, [[PStr "a"]])]
  /\ glyphChanged 1 (PStr "a") two_operators
     = (Ok tt,
        with_cache
          (filter (fun kv => negb (glyph_entry (PStr "a") (fst kv)))
             (_memoizeCache two_operators))
          two_operators)
  /\ cache_keys (snd (glyphChanged 1 (PStr "a") two_operators))
     = [("newDefaultLocation", 1, []);
        ("collectSourcesForGlyph", 1, [[PStr "b"]]);
        ("newDefaultLocation", 2, []);
        ("newDefaultLocation", 2, [])].
Proof. repeat split; vm_compute; reflexivity. Qed.

(** C3 at a failing input.  After [addSource] (and likewise [addAxis] and
    [addInstance]) the entry of operator 1 is still in the cache, and the
    next listing of the sources returns the cached list, without the source
    the document now has. *)
Theorem addSource_leaves_stale_cache_entry :
  let bold := source_at "bold" 900 [] in
  let w := snd (addSource 1 bold sources_listed) in
  cache_keys sources_listed
  = [("findSourceDescriptorsForDiscreteLocation", 1, [])]
  /\ cache_keys w = [("findSourceDescriptorsForDiscreteLocation", 1, [])]
  /\ cache_keys (snd (addAxis 1 width_axis sources_listed))
     = [("findSourceDescriptorsForDiscreteLocation", 1, [])]
  /\ cache_keys
       (snd (addInstance 1
               {| InstanceDescriptor.name := Some "medium";
                  InstanceDescriptor.location := [("weight", PInt 500)];
                  InstanceDescriptor.path := None |}
               sources_listed))
     = [("findSourceDescriptorsForDiscreteLocation", 1, [])]
  /\ map SourceDescriptor.name (DesignSpaceDocument.sources (doc (this w)))
     = [Some "light"; Some "regular"; Some "bold"]
  /\ source_names (fst (findSourceDescriptorsForDiscreteLocation 1 [] [] w))
     = Ok [Some "light"; Some "regular"].
Proof. repeat split; vm_compute; reflexivity. Qed.

(** C4 at a failing input.  An operator made without debug has no logger;
    collecting the sources of a glyph that a source on disk mutes calls
    [self.logger.info] and raises.  The other glyph of that source is
    collected. *)
Theorem collectSourcesForGlyph_raises_on_muted_glyph :
  logger (operator regular_mutes_a false) = None
  /\ fst ((loadFonts scenario 1 false ;;
           collectSourcesForGlyph scenario 1 [PStr "a"] [])
            (fresh (operator regular_mutes_a false)))
     = Raise (AttributeError "info")
  /\ kept scenario
       (fst ((loadFonts scenario 1 false ;;
              collectSourcesForGlyph scenario 1 [PStr "b"] [])
               (fresh (operator regular_mutes_a false))))
     = Ok [(Some "light", false); (Some "regular", false)].
Proof. repeat split; vm_compute; reflexivity. Qed.

(** With debug, and so with a logger, the muted source contributes no
    item. *)
Example collectSourcesForGlyph_skips_muted_glyph_with_logger :
  kept scenario
    (fst ((loadFonts scenario 1 false ;;
           collectSourcesForGlyph scenario 1 [PStr "a"] [])
            (fresh (operator regular_mutes_a true))))
  = Ok [].
Proof. vm_compute; reflexivity. Qed.

(** C5 at a failing input.  Once the sources are loaded an info mutator is
    available; [makeFontProportions] then reads [loc] for an isotropic
    location and [locHorizontal] for an anisotropic one, and raises
    [NameError] for both. *)
Theorem makeFontProportions_raises_NameError :
  let w := snd (loadFonts scenario 1 false
                  (fresh (operator light_then_regular false))) in
  (exists m, fst (getInfoMutator scenario 1 [] [("discreteLocation", PNone)] w)
             = Ok (CMutator (Some m)))
  /\ fst (makeFontProportions scenario 1 [PDict [("weight", PInt 500)]] [] w)
     = Raise (NameError "loc")
  /\ fst (makeFontProportions scenario 1
            [PDict [("weight", PTuple [PInt 300; PInt 700])]] [] w)
     = Raise (NameError "locHorizontal").
Proof.
  repeat split; [eexists|..]; vm_compute; reflexivity.
Qed.

(** The defaults are returned when the engine refuses to build the info
    mutator, here with an [AssertionError]. *)
Example makeFontProportions_defaults :
  fst (makeFontProportions
         {| os_path_exists := os_path_exists scenario;
            _instantiateFont := _instantiateFont scenario;
            checkGlyphIsEmpty := checkGlyphIsEmpty scenario;
            VariationModelMutator_raises := fun _ _ => Some AssertionError;
            buildMutator_raises := buildMutator_raises scenario;
            mutator_bool := mutator_bool scenario;
            makeInstance_raises := makeInstance_raises scenario;
            instance_attr := instance_attr scenario;
            module_loc := None |}
         1 [PDict [("weight", PInt 500)]] []
         (snd (loadFonts scenario 1 false
                 (fresh (operator light_then_regular false)))))
  = Ok (CValue (PDict default_proportions)).
Proof. vm_compute; reflexivity. Qed.

(** C6 at a failing input.  The location gives no value to the discrete
    axis [width]: [splitLocation] returns [None] for its discrete part, and
    [checkDiscreteAxisValues(None)] raises instead of failing the check.  A
    value outside the legal set does fail the check, and [makeOneGlyph]
    returns [None]. *)
Theorem makeOneGlyph_raises_without_discrete_value :
  let w := snd (loadFonts scenario 1 false
                  (fresh (operator with_width false))) in
  splitLocation (this w) [("weight", PInt 500)]
  = ([("weight", PInt 500)], None)
  /\ checkDiscreteAxisValues (this w) PNone = Raise (AttributeError "get")
  /\ fst (makeOneGlyph scenario 1
            [PStr "a"; PDict [("weight", PInt 500)]] [] w)
     = Raise (AttributeError "get")
  /\ fst (makeOneGlyph scenario 1
            [PStr "a"; PDict [("weight", PInt 500); ("width", PInt 7)]] [] w)
     = Ok (CInstance None).
Proof. repeat split; vm_compute; reflexivity. Qed.

(** C7 at a failing input.  A pair given as a list makes [isAnisotropic]
    answer true, and [splitAnisotropic] copies it whole to both sides; the
    same pair given as a tuple is split. *)
Theorem splitAnisotropic_copies_list_pair :
  let w := fresh (operator light_then_regular false) in
  let as_list := PDict [("weight", PList [PInt 300; PInt 700])] in
  let as_tuple := PDict [("weight", PTuple [PInt 300; PInt 700])] in
  fst (isAnisotropic 1 [as_list] [] w) = Ok (CValue PTrue)
  /\ fst (splitAnisotropic 1 [as_list] [] w)
     = Ok (CValue (PTuple [as_list; as_list]))
  /\ fst (isAnisotropic 1 [as_tuple] [] w) = Ok (CValue PTrue)
  /\ fst (splitAnisotropic 1 [as_tuple] [] w)
     = Ok (CValue (PTuple [PDict [("weight", PInt 300)];
                           PDict [("weight", PInt 700)]])).
Proof. repeat split; vm_compute; reflexivity. Qed.


(** Computed, the call on the list fails where the font is asked for a
    glyph of that name: a list cannot be hashed. *)
Example collectSourcesForGlyph_of_list_uncached :
  fst (collectSourcesForGlyph scenario 1 [PList [PStr "a"]] [] fonts_loaded)
  = Raise TypeError
  /\ kept scenario (Ok sources_of_a)
     = Ok [(Some "light", true); (Some "regular", false)].
Proof. split; vm_compute; reflexivity. Qed.

(** C10 after [loadFonts] found no [bold.ufo]. *)
Lemma updateFonts_raises_after_missing_bold :
  map (fun nf : string * option Font =>
         (fst nf, match snd nf with Some f => Some (font_id f) | None => None end))
    (fonts (this bold_missing))
  = [("light", Some 1); ("regular", Some 2); ("bold", None)]
  /\ exists attribute w',
       updateFonts 1 [regular_open] bold_missing
       = (Raise (AttributeError attribute), w').
Proof.
  split; [vm_compute; reflexivity|].
  apply updateFonts_raises_with_missing_font.
  - discriminate.
  - vm_compute. right; right; left; reflexivity.
Defined.

(** There the error is raised for [path], after the regular font was
    replaced and before [changed] could be called: what operator 1 had
    cached stays. *)
Example updateFonts_after_missing_bold :
  let w := snd (collectSourcesForGlyph scenario 1 [PStr "a"] [] bold_missing) in
  fst (updateFonts 1 [regular_open] w) = Raise (AttributeError "path")
  /\ map (fun nf : string * option Font =>
            (fst nf,
             match snd nf with Some f => Some (font_id f) | None => None end))
       (fonts (this (snd (updateFonts 1 [regular_open] w))))
     = [("light", Some 1); ("regular", Some 9); ("bold", None)]
  /\ cache_keys (snd (updateFonts 1 [regular_open] w)) = cache_keys w
  /\ cache_keys w
     = [("newDefaultLocation", 1, []);
        ("collectSourcesForGlyph", 1, [[PStr "a"]])].
Proof. repeat split; vm_compute; reflexivity. Qed.

(** Without a missing source the update goes through and invalidates. *)
Example updateFonts_replaces_and_invalidates :
  let w := snd (collectSourcesForGlyph scenario 1 [PStr "a"] [] fonts_loaded) in
  fst (updateFonts 1 [regular_open] w) = Ok tt
  /\ cache_keys (snd (updateFonts 1 [regular_open] w)) = [].
Proof. split; vm_compute; reflexivity. Qed.

(** * Further properties *)

(** ** The cache, call after call *)

(** X1.  A memoized call that has returned is answered from the cache when
    it is made again: the same result, the function not called, the cache
    as it was, one more hit counted. *)
Theorem memoize_repeated_call (name : string)
  (function : nat -> list pyobj -> dict -> M Cached) (self : nat)
  (args : list pyobj) (kwargs : dict) (w : World) (r : Cached) :
  fst (memoize name function self args kwargs w) = Ok r ->
  let w1 := snd (memoize name function self args kwargs w) in
  memoize name function self args kwargs w1
  = (Ok r,
     with_stats
       (count_hit (make_key name self args kwargs) (_memoizeStats w1)) w1).
Proof.
  intros Hcall w1.
  destruct (memoize_stores _ _ _ _ _ _ Hcall) as [Hhash Hget].
  now apply memoize_hit.
Qed.

Lemma cache_get_filter_none (V : Type) (p : Key * V -> bool) (k : Key)
  (c : list (Key * V)) :
  (forall v, p (k, v) = false) ->
  cache_get k (filter p c) = None.
Proof.
  intros Hp. induction c as [|[k' v'] c IH]; simpl; [reflexivity|].
  destruct (p (k', v')) eqn:Hk; [|exact IH].
  simpl. destruct (key_eqb k k') eqn:Heq; [|exact IH].
  apply key_eqb_eq in Heq. subst k'. now rewrite Hp in Hk.
Qed.

(** X2.  [changed] deletes the entries of the receiver and no other: an
    entry is in the cache afterwards exactly when it was there and is owned
    by another operator; the hit counts and the operator are untouched. *)
Theorem changed_keeps_exactly_the_other_owners (self : nat) (w : World) :
  fst (changed self w) = Ok tt
  /\ _memoizeStats (snd (changed self w)) = _memoizeStats w
  /\ this (snd (changed self w)) = this w
  /\ forall k v,
       In (k, v) (_memoizeCache (snd (changed self w)))
       <-> In (k, v) (_memoizeCache w) /\ key_self k <> self.
Proof.
  rewrite changed_filters. simpl. repeat split; try reflexivity.
  - now apply filter_In in H.
  - apply filter_In in H. destruct H as [_ H]. simpl in H.
    intros Heq. apply Nat.eqb_eq in Heq. now rewrite Heq in H.
  - intros [Hin Hne]. apply filter_In. split; [exact Hin|]. simpl.
    apply Nat.eqb_neq in Hne. now rewrite Hne.
Qed.

(** X3.  After [changed], every memoized call on the receiver is computed
    again: its key is not in the cache, so the wrapper calls the function
    and stores what it returns. *)
Theorem changed_forces_recomputation (name : string)
  (function : nat -> list pyobj -> dict -> M Cached) (self : nat)
  (args : list pyobj) (kwargs : dict) (w : World) :
  key_hashable (make_key name self args kwargs) = true ->
  let w' := snd (changed self w) in
  cache_get (make_key name self args kwargs) (_memoizeCache w') = None
  /\ memoize name function self args kwargs w'
     = match function self args kwargs w' with
       | (Ok result, w'') =>
           (Ok result,
            with_cache
              (cache_set (make_key name self args kwargs) result
                 (_memoizeCache w''))
              w'')
       | (Raise e, w'') => (Raise e, w'')
       end.
Proof.
  intros Hhash w'.
  assert (Hmiss : cache_get (make_key name self args kwargs)
                    (_memoizeCache w') = None).
  { unfold w'. rewrite changed_filters. simpl.
    apply cache_get_filter_none. intros v. simpl.
    now rewrite Nat.eqb_refl. }
  split; [exact Hmiss|].
  unfold memoize. now rewrite Hhash, Hmiss.
Qed.

Lemma glyphChanged_loop_IndexError (glyphName : pyobj) (keys : list Key) :
  (exists key, In key keys
               /\ glyph_scoped (key_name key) = true
               /\ key_leading_argument key = Raise IndexError) ->
  forall w : World, fst (glyphChanged_loop glyphName keys w) = Raise IndexError.
Proof.
  induction keys as [|key rest IH]; intros (bad & Hin & Hscoped & Hlead) w.
  - destruct Hin.
  - cbn [glyphChanged_loop]. unfold bind at 1.
    destruct (glyph_scoped (key_name key)) eqn:Hs.
    + unfold bind at 1, lift.
      destruct (key_leading_argument key) as [x|e] eqn:Hk.
      * assert (Hrest : exists key0, In key0 rest
                          /\ glyph_scoped (key_name key0) = true
                          /\ key_leading_argument key0 = Raise IndexError).
        { destruct Hin as [<-|Hin]; [congruence|]. now exists bad. }
        destruct (py_eqb x glyphName); unfold cache_delete, ret;
          apply (IH Hrest).
      * simpl. unfold key_leading_argument in Hk.
        destruct (key_args key) as [|[|? ?] ?]; congruence.
    + unfold ret.
      assert (Hrest : exists key0, In key0 rest
                        /\ glyph_scoped (key_name key0) = true
                        /\ key_leading_argument key0 = Raise IndexError).
      { destruct Hin as [<-|Hin]; [congruence|]. now exists bad. }
      apply (IH Hrest).
Qed.

Lemma no_leading_argument (key : Key) :
  ~ has_leading_argument key ->
  glyph_scoped (key_name key) = true
  /\ key_leading_argument key = Raise IndexError.
Proof.
  unfold has_leading_argument, key_leading_argument. intros Hno.
  destruct (glyph_scoped (key_name key)).
  - split; [reflexivity|].
    destruct (key_args key) as [|[|x a0] rest]; try reflexivity.
    exfalso. apply Hno. intros _. now exists x.
  - exfalso. apply Hno. discriminate.
Qed.

(** X4.  [glyphChanged(glyphName)] reads [key[2][0][0]] of every
    [getGlyphMutator] and [collectSourcesForGlyph] key in the cache.  When
    each of these keys has one, it returns normally and deletes exactly the
    entries of the two functions whose [key[2][0][0]] is the glyph name, of
    every owner; all other entries stay.  When one of them has none -- the
    call gave no positional argument, or a first one whose [immutify] is
    empty, as [[]] -- it raises [IndexError]. *)
Theorem glyphChanged_keeps_exactly (self : nat) (glyphName : pyobj)
  (w : World) :
  ((forall kv, In kv (_memoizeCache w) -> has_leading_argument (fst kv)) ->
   fst (glyphChanged self glyphName w) = Ok tt
   /\ forall k v,
        In (k, v) (_memoizeCache (snd (glyphChanged self glyphName w)))
        <-> In (k, v) (_memoizeCache w) /\ glyph_entry glyphName k = false)
  /\ ((exists kv, In kv (_memoizeCache w) /\ ~ has_leading_argument (fst kv)) ->
      fst (glyphChanged self glyphName w) = Raise IndexError).
Proof.
  split.
  - intros Hkeys. rewrite (glyphChanged_filters self glyphName w Hkeys). simpl.
    split; [reflexivity|]. intros k v. rewrite filter_In. simpl.
    now rewrite negb_true_iff.
  - intros ([key v] & Hin & Hno). apply no_leading_argument in Hno.
    destruct Hno as [Hscoped Hlead]. unfold glyphChanged.
    apply glyphChanged_loop_IndexError. exists key. repeat split.
    + apply (in_map fst) in Hin. exact Hin.
    + exact Hscoped.
    + exact Hlead.
Qed.

(** X5.  A glyph-scoped entry stored by a call that passed no positional
    argument (the glyph name given by keyword) has no [key[2][0]]: from then
    on every [glyphChanged], for whatever glyph, raises [IndexError]. *)
Theorem glyphChanged_raises_IndexError (self : nat) (glyphName : pyobj)
  (w : World) (key : Key) (v : Cached) :
  In (key, v) (_memoizeCache w) ->
  glyph_scoped (key_name key) = true ->
  key_args key = [] ->
  fst (glyphChanged self glyphName w) = Raise IndexError.
Proof.
  intros Hin Hscoped Hargs. unfold glyphChanged.
  apply glyphChanged_loop_IndexError. exists key. repeat split.
  - apply (in_map fst) in Hin. exact Hin.
  - exact Hscoped.
  - unfold key_leading_argument. now rewrite Hargs.
Qed.

Lemma immutify_PList (l : list pyobj) :
  immutify (PList l) = flat_map immutify l.
Proof.
  induction l as [|x l IH]; [reflexivity|].
  simpl in *. now rewrite IH.
Qed.

(** X6.  The key of a list is the concatenation of the keys of its items:
    how the items are grouped into nested lists is lost, so calls that
    differ only in that grouping share a cache entry. *)
Theorem immutify_flattens_lists (xs ys : list pyobj) :
  immutify (PList xs) = flat_map immutify xs
  /\ immutify (PList (xs ++ ys)) = immutify (PList xs) ++ immutify (PList ys)
  /\ immutify (PList [PList xs; PList ys]) = immutify (PList (xs ++ ys))
  /\ immutify (PList [PList xs]) = immutify (PList xs).
Proof.
  rewrite !immutify_PList. repeat split.
  - apply flat_map_app.
  - cbn [flat_map]. now rewrite !immutify_PList, app_nil_r, flat_map_app.
  - cbn [flat_map]. now rewrite immutify_PList, app_nil_r.
Qed.

Lemma hashable_PTuple (l : list pyobj) :
  hashable (PTuple l) = forallb hashable l.
Proof.
  induction l as [|x l IH]; [reflexivity|].
  simpl in *. now rewrite IH.
Qed.

Lemma plain_PList (l : list pyobj) : plain (PList l) = forallb plain l.
Proof.
  induction l as [|x l IH]; [reflexivity|].
  simpl in *. now rewrite IH.
Qed.

Lemma plain_PDict (l : dict) :
  plain (PDict l) = forallb (fun kv => plain (snd kv)) l.
Proof.
  induction l as [|[k x] l IH]; [reflexivity|].
  simpl in *. now rewrite IH.
Qed.

Lemma immutify_PDict_cons (k : string) (x : pyobj) (l : dict) :
  immutify (PDict ((k, x) :: l))
  = PStr k :: PTuple (immutify x) :: immutify (PDict l).
Proof. reflexivity. Qed.

Lemma immutify_hashable (x : pyobj) :
  forallb hashable (immutify x) = plain x.
Proof.
  induction x using pyobj_nested_ind; try reflexivity.
  - simpl. now rewrite andb_true_r.
  - rewrite immutify_PList, plain_PList.
    induction H as [|x l Hx _ IH]; [reflexivity|].
    cbn [flat_map forallb]. now rewrite forallb_app, Hx, IH.
  - rewrite plain_PDict.
    induction H as [|[k x] l Hx _ IH]; [reflexivity|].
    rewrite immutify_PDict_cons. simpl in Hx.
    change (forallb hashable
              (PStr k :: PTuple (immutify x) :: immutify (PDict l)))
      with (hashable (PTuple (immutify x))
            && forallb hashable (immutify (PDict l))).
    rewrite hashable_PTuple, Hx, IH. reflexivity.
Qed.

(** X7.  A memoized call raises [TypeError] before anything else exactly
    when one of its arguments, positional or keyword, holds below its dicts
    and lists a value that cannot be hashed (a tuple with a list or a dict
    inside); otherwise its key can be hashed. *)
Theorem memoize_key_hashable_iff_plain (name : string)
  (function : nat -> list pyobj -> dict -> M Cached) (self : nat)
  (args : list pyobj) (kwargs : dict) (w : World) :
  key_hashable (make_key name self args kwargs)
  = forallb plain args && forallb (fun kv => plain (snd kv)) kwargs
  /\ (forallb plain args && forallb (fun kv => plain (snd kv)) kwargs = false ->
      memoize name function self args kwargs w = (Raise TypeError, w)).
Proof.
  assert (Hkey : key_hashable (make_key name self args kwargs)
                 = forallb plain args
                   && forallb (fun kv => plain (snd kv)) kwargs).
  { unfold key_hashable, make_key. cbn [key_args key_kwargs].
    f_equal.
    - induction args as [|a args IH]; [reflexivity|].
      cbn [map forallb]. now rewrite immutify_hashable, IH.
    - rewrite immutify_hashable. apply plain_PDict. }
  split; [exact Hkey|].
  intros Hno. unfold memoize. now rewrite Hkey, Hno.
Qed.

(** ** Splitting locations, selecting sources *)

Lemma dict_get_set_same (k : string) (v : pyobj) (d : dict) :
  dict_get k (dict_set k v d) = Some v.
Proof.
  induction d as [|[k' v'] d IH]; simpl.
  - now rewrite String.eqb_refl.
  - destruct (String.eqb k k') eqn:E; simpl.
    + now rewrite String.eqb_refl.
    + now rewrite E.
Qed.

Lemma dict_get_set_other (k k' : string) (v : pyobj) (d : dict) :
  k <> k' -> dict_get k (dict_set k' v d) = dict_get k d.
Proof.
  intros Hne. induction d as [|[k0 v0] d IH]; simpl.
  - apply String.eqb_neq in Hne. now rewrite Hne.
  - destruct (String.eqb k' k0) eqn:E; simpl.
    + apply String.eqb_eq in E. subst k0.
      apply String.eqb_neq in Hne. now rewrite Hne.
    + destruct (String.eqb k k0); [reflexivity | exact IH].
Qed.

Lemma dict_get_None_notin (k : string) (d : dict) :
  dict_get k d = None <-> ~ In k (map fst d).
Proof.
  induction d as [|[k' v'] d IH]; simpl; [tauto|].
  destruct (String.eqb k k') eqn:E.
  - apply String.eqb_eq in E. subst. split; [discriminate | tauto].
  - apply String.eqb_neq in E. rewrite IH. split; [|tauto].
    intros H [H'|H']; [congruence | tauto].
Qed.

Lemma dict_get_In (k : string) (v : pyobj) (d : dict) :
  NoDup (map fst d) -> (dict_get k d = Some v <-> In (k, v) d).
Proof.
  induction d as [|[k' v'] d IH]; simpl; intros Hnd.
  - split; [discriminate | tauto].
  - inversion Hnd as [|? ? Hnotin Hnd']; subst.
    destruct (String.eqb k k') eqn:E.
    + apply String.eqb_eq in E. subst k'. split.
      * intros [= ->]. now left.
      * intros [[= ->]|Hin]; [reflexivity|].
        exfalso. apply Hnotin. now apply (in_map fst) in Hin.
    + apply String.eqb_neq in E. rewrite (IH Hnd'). split.
      * intros Hin. now right.
      * intros [Heq|Hin]; [|exact Hin].
        injection Heq as -> ->. congruence.
Qed.

Lemma dict_set_fresh (k : string) (v : pyobj) (d : dict) :
  ~ In k (map fst d) -> dict_set k v d = d ++ [(k, v)].
Proof.
  induction d as [|[k' v'] d IH]; simpl; intros Hnotin; [reflexivity|].
  destruct (String.eqb k k') eqn:E.
  - apply String.eqb_eq in E. subst k'. tauto.
  - f_equal. apply IH. tauto.
Qed.

Lemma str_mem_In (s : string) (l : list string) :
  str_mem s l = true <-> In s l.
Proof.
  unfold str_mem. rewrite existsb_exists. split.
  - intros (x & Hin & Heq). apply String.eqb_eq in Heq. now subst.
  - intros Hin. exists s. split; [exact Hin | apply String.eqb_refl].
Qed.

Lemma splitLocation_fold (names : list string) (location : dict) :
  forall c d : dict,
  NoDup (map fst location) ->
  (forall k, In k (map fst location) ->
             ~ In k (map fst c) /\ ~ In k (map fst d)) ->
  fold_left
    (fun (cd : dict * dict) (item : string * pyobj) =>
       let '(name, value) := item in
       if str_mem name names
       then (fst cd, dict_set name value (snd cd))
       else (dict_set name value (fst cd), snd cd))
    location (c, d)
  = (c ++ filter (fun kv => negb (str_mem (fst kv) names)) location,
     d ++ filter (fun kv => str_mem (fst kv) names) location).
Proof.
  induction location as [|[n v] location IH]; intros c d Hnd Hfresh.
  - simpl. now rewrite !app_nil_r.
  - simpl in Hnd. inversion Hnd as [|? ? Hn Hnd']; subst.
    destruct (Hfresh n (or_introl eq_refl)) as [Hc Hd].
    cbn [fold_left filter fst snd].
    destruct (str_mem n names) eqn:Hm; cbn [negb fst snd].
    + rewrite (dict_set_fresh n v d Hd), IH.
      * now rewrite <- app_assoc.
      * exact Hnd'.
      * intros k Hk. destruct (Hfresh k (or_intror Hk)) as [Hkc Hkd].
        split; [exact Hkc|].
        rewrite map_app, in_app_iff. simpl. intros [H|[H|[]]]; [tauto|].
        subst k. tauto.
    + rewrite (dict_set_fresh n v c Hc), IH.
      * now rewrite <- app_assoc.
      * exact Hnd'.
      * intros k Hk. destruct (Hfresh k (or_intror Hk)) as [Hkc Hkd].
        split; [|exact Hkd].
        rewrite map_app, in_app_iff. simpl. intros [H|[H|[]]]; [tauto|].
        subst k. tauto.
Qed.

(** X8.  [splitLocation] is a partition of the location: the continuous
    part is the location without the entries of the discrete axes, the
    discrete part is those entries, both in the location's order; and the
    discrete part is [None] exactly when the location names no discrete
    axis. *)
Theorem splitLocation_partitions (o : UFOOperator) (location : dict) :
  NoDup (map fst location) ->
  let discrete :=
    filter (fun kv => str_mem (fst kv) (discrete_names o)) location in
  splitLocation o location
  = (filter (fun kv => negb (str_mem (fst kv) (discrete_names o))) location,
     match discrete with
     | [] => None
     | _ => Some discrete
     end).
Proof.
  intros Hnd discrete. unfold splitLocation.
  assert (H := splitLocation_fold (discrete_names o) location [] [] Hnd).
  match goal with
  | |- match ?X with _ => _ end = _ =>
      match type of H with _ -> ?L = _ => change X with L end
  end.
  rewrite H.
  - simpl. fold discrete. now destruct discrete.
  - intros k _. simpl. tauto.
Qed.

Lemma source_agrees_fold (s : SourceDescriptor.t) (d : dict) :
  forall ok : bool,
  fold_left
    (fun ok (item : string * pyobj) =>
       let '(name, value) := item in
       match dict_get name (SourceDescriptor.location s) with
       | Some v => if py_eqb v value then ok else false
       | None => false
       end)
    d ok
  = ok && forallb
            (fun item : string * pyobj =>
               match dict_get (fst item) (SourceDescriptor.location s) with
               | Some v => py_eqb v (snd item)
               | None => false
               end)
            d.
Proof.
  induction d as [|[n v] d IH]; intros ok; simpl.
  - now rewrite andb_true_r.
  - rewrite IH.
    destruct (dict_get n (SourceDescriptor.location s)) as [x|]; simpl.
    + destruct (py_eqb x v); simpl; [reflexivity | now rewrite andb_false_r].
    + now rewrite andb_false_r.
Qed.

Lemma source_agrees_iff (d : dict) (s : SourceDescriptor.t) :
  source_agrees d s = true <-> agrees_with d s.
Proof.
  unfold source_agrees, agrees_with.
  assert (H := source_agrees_fold s d true).
  match goal with
  | |- ?X = true <-> _ =>
      match type of H with ?L = _ => change X with L end
  end.
  rewrite H. simpl. rewrite forallb_forall. split.
  - intros Hall name value Hin. specialize (Hall (name, value) Hin).
    simpl in Hall.
    destruct (dict_get name (SourceDescriptor.location s)) as [x|];
      [|discriminate].
    apply py_eqb_eq in Hall. now subst.
  - intros Hall [name value] Hin. simpl. rewrite (Hall name value Hin).
    apply py_eqb_refl.
Qed.

Lemma findSourceDescriptorsForDiscreteLocation_loop_None
  (l : list SourceDescriptor.t) :
  findSourceDescriptorsForDiscreteLocation_loop PNone l = Ok l.
Proof. induction l as [|s l IH]; simpl; [reflexivity | now rewrite IH]. Qed.

Lemma findSourceDescriptorsForDiscreteLocation_loop_dict (d : dict)
  (l : list SourceDescriptor.t) :
  findSourceDescriptorsForDiscreteLocation_loop (PDict d) l
  = Ok (filter (source_agrees d) l).
Proof.
  induction l as [|s l IH]; simpl; [reflexivity|].
  rewrite IH. now destruct (source_agrees d s).
Qed.

(** X9.  Computed, [findSourceDescriptorsForDiscreteLocation] returns all
    the sources of the document for [None], and for a dict the sources that
    have every axis named in it with the value given there (a source that
    lacks one of those axes is left out), in the document's order. *)
Theorem findSourceDescriptorsForDiscreteLocation_selects (self : nat)
  (d : dict) (w : World) :
  let sources := DesignSpaceDocument.sources (doc (this w)) in
  findSourceDescriptorsForDiscreteLocation_function self [] [] w
  = (Ok (CSources sources), w)
  /\ findSourceDescriptorsForDiscreteLocation_function self [PNone] [] w
     = (Ok (CSources sources), w)
  /\ findSourceDescriptorsForDiscreteLocation_function self [PDict d] [] w
     = (Ok (CSources (filter (source_agrees d) sources)), w)
  /\ forall s, In s (filter (source_agrees d) sources)
               <-> In s sources /\ agrees_with d s.
Proof.
  intros sources. split; [|split; [|split]].
  - unfold findSourceDescriptorsForDiscreteLocation_function, bind, lift,
      self_attr, ret. simpl. unfold arg. simpl.
    now rewrite findSourceDescriptorsForDiscreteLocation_loop_None.
  - unfold findSourceDescriptorsForDiscreteLocation_function, bind, lift,
      self_attr, ret. simpl. unfold arg. simpl.
    now rewrite findSourceDescriptorsForDiscreteLocation_loop_None.
  - unfold findSourceDescriptorsForDiscreteLocation_function, bind, lift,
      self_attr, ret. simpl. unfold arg. simpl.
    now rewrite findSourceDescriptorsForDiscreteLocation_loop_dict.
  - intros s. rewrite filter_In, source_agrees_iff. reflexivity.
Qed.

Lemma newDefaultLocation_loop_map (bend : pyobj) (D : option dict)
  (axes : list AxisDescriptor.t) :
  forall loc : dict,
  NoDup (map AxisDescriptor.name axes) ->
  (forall a, In a axes -> ~ In (AxisDescriptor.name a) (map fst loc)) ->
  newDefaultLocation_loop bend (opt_dict D) axes loc
  = Ok (loc ++ map (fun a => (AxisDescriptor.name a, default_value bend D a))
                 axes).
Proof.
  induction axes as [|a axes IH]; intros loc Hnd Hfresh.
  - simpl. now rewrite app_nil_r.
  - simpl in Hnd. inversion Hnd as [|? ? Ha Hnd']; subst.
    assert (Hstep : forall v,
              newDefaultLocation_loop bend (opt_dict D) axes
                (dict_set (AxisDescriptor.name a) v loc)
              = Ok (loc ++ (AxisDescriptor.name a, v)
                          :: map (fun a => (AxisDescriptor.name a,
                                            default_value bend D a)) axes)).
    { intros v. rewrite dict_set_fresh by (apply Hfresh; now left).
      rewrite IH.
      - now rewrite <- app_assoc.
      - exact Hnd'.
      - intros b Hb. rewrite map_app, in_app_iff. simpl.
        intros [H|[H|[]]].
        + apply (Hfresh b); [now right | exact H].
        + apply Ha. rewrite H. now apply in_map. }
    cbn [newDefaultLocation_loop map]. unfold default_value at 1.
    destruct D as [d|]; simpl opt_dict; cbv iota.
    + unfold py_contains, dict_mem, py_getitem.
      destruct (dict_get (AxisDescriptor.name a) d) as [v|]; apply Hstep.
    + apply Hstep.
Qed.

(** X10.  When the axes have different names, the location
    [newDefaultLocation] computes has one entry per axis, in the order of
    the axes: the value the given discrete location has for that axis if it
    names it, the axis's default otherwise, sent through [map_forward] when
    [bend] is set. *)
Theorem newDefaultLocation_entries (self : nat) (bend : pyobj)
  (D : option dict) (w : World) :
  NoDup (map AxisDescriptor.name (DesignSpaceDocument.axes (doc (this w)))) ->
  newDefaultLocation_function self []
    [("bend", bend); ("discreteLocation", opt_dict D)] w
  = (Ok (CValue
           (PDict
              (map (fun a => (AxisDescriptor.name a, default_value bend D a))
                 (DesignSpaceDocument.axes (doc (this w)))))),
     w).
Proof.
  intros Hnd.
  unfold newDefaultLocation_function, bind, lift, self_attr, ret. simpl.
  unfold arg. simpl.
  rewrite (newDefaultLocation_loop_map bend D _ [] Hnd); [reflexivity|].
  intros a _ [].
Qed.

Lemma getAxis_of_axis (d : DesignSpaceDocument.t) (a : AxisDescriptor.t) :
  NoDup (map AxisDescriptor.name (DesignSpaceDocument.axes d)) ->
  In a (DesignSpaceDocument.axes d) ->
  DesignSpaceDocument.getAxis (AxisDescriptor.name a) d = Some a.
Proof.
  unfold DesignSpaceDocument.getAxis.
  induction (DesignSpaceDocument.axes d) as [|b l IH]; simpl;
    intros Hnd Hin; [destruct Hin|].
  inversion Hnd as [|? ? Hb Hnd']; subst.
  destruct Hin as [->|Hin].
  - now rewrite String.eqb_refl.
  - destruct (String.eqb (AxisDescriptor.name b) (AxisDescriptor.name a))
      eqn:E.
    + apply String.eqb_eq in E. exfalso. apply Hb. rewrite E.
      now apply in_map.
    + now apply IH.
Qed.

Lemma flat_map_filter_ext (A B : Type) (f : A -> list B) (p : A -> bool)
  (g : A -> B) (l : list A) :
  (forall x, In x l -> f x = if p x then [g x] else []) ->
  flat_map f l = map g (filter p l).
Proof.
  induction l as [|x l IH]; intros H; simpl; [reflexivity|].
  rewrite (H x (or_introl eq_refl)), IH.
  - now destruct (p x).
  - intros y Hy. apply H. now right.
Qed.

(** X11.  When the axes have different names, the discrete axes are the
    axes of the document that have [values], the continuous axes are the
    others, each list in the document's order: every axis is in exactly one
    of the two. *)
Theorem ordered_axes_partition (o : UFOOperator) :
  NoDup (map AxisDescriptor.name (DesignSpaceDocument.axes (doc o))) ->
  getOrderedDiscreteAxes o
  = filter (fun a => match AxisDescriptor.values a with
                     | Some _ => true
                     | None => false
                     end)
      (DesignSpaceDocument.axes (doc o))
  /\ getOrderedContinuousAxes o
     = filter (fun a => match AxisDescriptor.values a with
                        | Some _ => false
                        | None => true
                        end)
         (DesignSpaceDocument.axes (doc o)).
Proof.
  intros Hnd.
  unfold getOrderedDiscreteAxes, getOrderedContinuousAxes,
    DesignSpaceDocument.getAxisOrder.
  rewrite !flat_map_concat_map, !map_map, <- !flat_map_concat_map.
  split.
  - rewrite (@flat_map_filter_ext _ _ _
               (fun a => match AxisDescriptor.values a with
                         | Some _ => true
                         | None => false
                         end)
               (fun a => a)).
    + apply map_id.
    + intros a Ha. rewrite (getAxis_of_axis (doc o) a Hnd Ha).
      now destruct (AxisDescriptor.values a).
  - rewrite (@flat_map_filter_ext _ _ _
               (fun a => match AxisDescriptor.values a with
                         | Some _ => false
                         | None => true
                         end)
               (fun a => a)).
    + apply map_id.
    + intros a Ha. rewrite (getAxis_of_axis (doc o) a Hnd Ha).
      now destruct (AxisDescriptor.values a).
Qed.

(** ** Legal discrete values; splitting pairs *)

Lemma discrete_axes_have_values (o : UFOOperator) (a : AxisDescriptor.t) :
  In a (getOrderedDiscreteAxes o) ->
  exists values, AxisDescriptor.values a = Some values.
Proof.
  unfold getOrderedDiscreteAxes. rewrite in_flat_map.
  intros (n & _ & Hin).
  destruct (DesignSpaceDocument.getAxis n (doc o)) as [b|]; [|destruct Hin].
  destruct (AxisDescriptor.values b) as [vs|] eqn:Hv; [|destruct Hin].
  destruct Hin as [<-|[]]. eauto.
Qed.

Lemma checkDiscreteAxisValues_loop_dict (d : dict)
  (axes : list AxisDescriptor.t) :
  (forall a, In a axes -> exists values, AxisDescriptor.values a = Some values) ->
  checkDiscreteAxisValues_loop (PDict d) axes
  = Ok (forallb
          (fun a =>
             match AxisDescriptor.values a with
             | Some values => py_mem (value_at a d) values
             | None => false
             end)
          axes).
Proof.
  induction axes as [|a axes IH]; intros Hv; simpl; [reflexivity|].
  destruct (Hv a (or_introl eq_refl)) as [vs Hvs]. rewrite Hvs.
  fold (value_at a d).
  destruct (py_mem (value_at a d) vs); simpl; [|reflexivity].
  apply IH. intros b Hb. apply Hv. now right.
Qed.

(** X12.  For a location that is a dict, [checkDiscreteAxisValues] never
    raises, and answers true exactly when every discrete axis has in the
    location a value of its legal set; an axis without a value is looked up
    as [None], and fails the check unless [None] is a legal value. *)
Theorem checkDiscreteAxisValues_of_dict (o : UFOOperator) (d : dict) :
  exists legal,
    checkDiscreteAxisValues o (PDict d) = Ok legal
    /\ (legal = true
        <-> forall a, In a (getOrderedDiscreteAxes o) ->
              exists values,
                AxisDescriptor.values a = Some values
                /\ py_mem (value_at a d) values = true).
Proof.
  unfold checkDiscreteAxisValues.
  rewrite (checkDiscreteAxisValues_loop_dict d (getOrderedDiscreteAxes o)
             (discrete_axes_have_values o)).
  eexists. split; [reflexivity|].
  rewrite forallb_forall. split.
  - intros H a Ha. specialize (H a Ha).
    destruct (AxisDescriptor.values a) as [vs|]; [eauto | discriminate].
  - intros H a Ha. destruct (H a Ha) as (vs & -> & Hm). exact Hm.
Qed.

Lemma splitAnisotropic_loop_pairs (location : dict) :
  forall x y : dict,
  NoDup (map fst location) ->
  (forall k, In k (map fst location) ->
             ~ In k (map fst x) /\ ~ In k (map fst y)) ->
  (forall kv, In kv location -> short_tuple (snd kv) = false) ->
  splitAnisotropic_loop location x y
  = Ok (x ++ map horizontal_of location, y ++ map vertical_of location).
Proof.
  induction location as [|[dim val] location IH];
    intros x y Hnd Hfresh Hlong.
  - simpl. now rewrite !app_nil_r.
  - inversion Hnd as [|? ? Hk Hnd']; subst.
    destruct (Hfresh dim (or_introl eq_refl)) as [Hx Hy].
    assert (Hstep : forall a b,
              splitAnisotropic_loop location (dict_set dim a x)
                (dict_set dim b y)
              = Ok (x ++ (dim, a) :: map horizontal_of location,
                    y ++ (dim, b) :: map vertical_of location)).
    { intros a b. rewrite !dict_set_fresh by assumption.
      rewrite IH.
      - now rewrite <- !app_assoc.
      - exact Hnd'.
      - intros k Hk'. destruct (Hfresh k (or_intror Hk')) as [Hkx Hky].
        rewrite !map_app, !in_app_iff. simpl.
        split; intros [H|[H|[]]]; try tauto; subst k; tauto.
      - intros kv Hkv. apply Hlong. now right. }
    assert (Hval := Hlong (dim, val) (or_introl eq_refl)). simpl in Hval.
    cbn [splitAnisotropic_loop map].
    unfold horizontal_of at 1, vertical_of at 1. simpl fst. simpl snd.
    destruct val as [| | | |[|v0 [|v1 t]]| |]; try discriminate;
      apply Hstep.
Qed.

(** X13.  For a location none of whose tuples is shorter than a pair,
    [splitAnisotropic] returns the location twice, entry by entry and in
    order, with every tuple replaced by its first item on the horizontal
    side and by its second item on the vertical side; every other value,
    lists included, is on both sides as it is. *)
Theorem splitAnisotropic_entries (self : nat) (location : dict) (w : World) :
  NoDup (map fst location) ->
  (forall kv, In kv location -> short_tuple (snd kv) = false) ->
  splitAnisotropic_function self [PDict location] [] w
  = (Ok (CValue (PTuple [PDict (map horizontal_of location);
                         PDict (map vertical_of location)])),
     w).
Proof.
  intros Hnd Hlong.
  unfold splitAnisotropic_function, bind, lift, ret. simpl.
  unfold arg. simpl.
  rewrite (@splitAnisotropic_loop_pairs location [] [] Hnd);
    [reflexivity | | exact Hlong].
  intros k _. simpl. tauto.
Qed.

Lemma splitAnisotropic_loop_short (location : dict) :
  (exists kv, In kv location /\ short_tuple (snd kv) = true) ->
  forall x y : dict, splitAnisotropic_loop location x y = Raise IndexError.
Proof.
  induction location as [|[dim val] location IH];
    intros (kv & Hin & Hshort) x y; [destruct Hin|].
  cbn [splitAnisotropic_loop].
  destruct Hin as [<-|Hin].
  - simpl in Hshort.
    destruct val as [| | | |[|v0 [|v1 t]]| |]; try discriminate; reflexivity.
  - assert (Hrest : exists kv0, In kv0 location /\ short_tuple (snd kv0) = true)
      by (now exists kv).
    destruct val as [| | | |[|v0 [|v1 t]]| |]; try apply (IH Hrest);
      reflexivity.
Qed.

(** X14.  A location with a tuple of fewer than two items makes
    [splitAnisotropic] raise [IndexError]. *)
Theorem splitAnisotropic_short_tuple (self : nat) (location : dict)
  (dim : string) (val : pyobj) (w : World) :
  In (dim, val) location ->
  short_tuple val = true ->
  splitAnisotropic_function self [PDict location] [] w = (Raise IndexError, w).
Proof.
  intros Hin Hshort.
  unfold splitAnisotropic_function, bind, lift, ret. simpl.
  unfold arg. simpl.
  rewrite splitAnisotropic_loop_short; [reflexivity|].
  now exists (dim, val).
Qed.

(** X15.  The two functions compose for locations without pairs: when
    [isAnisotropic] answers false for a location, [splitAnisotropic]
    returns that location, unchanged, on both sides. *)
Theorem splitAnisotropic_of_isotropic (self : nat) (location : dict)
  (w : World) :
  NoDup (map fst location) ->
  isAnisotropic_function self [PDict location] [] w = (Ok (CValue PFalse), w) ->
  splitAnisotropic_function self [PDict location] [] w
  = (Ok (CValue (PTuple [PDict location; PDict location])), w).
Proof.
  intros Hnd Hiso.
  unfold isAnisotropic_function, bind, lift, ret in Hiso. simpl in Hiso.
  unfold arg in Hiso. simpl in Hiso.
  assert (Hno : forall kv, In kv location ->
                  match snd kv with
                  | PList _ | PTuple _ => false
                  | _ => true
                  end = true).
  { destruct (existsb _ location) eqn:Hex in Hiso; [discriminate|].
    intros kv Hkv.
    destruct (match snd kv with PList _ | PTuple _ => false | _ => true end)
      eqn:Hk; [reflexivity|].
    assert (Hex' : existsb
                     (fun kv => match snd kv with
                                | PList _ | PTuple _ => true
                                | _ => false
                                end) location = true).
    { apply existsb_exists. exists kv. split; [exact Hkv|].
      now destruct (snd kv). }
    congruence. }
  assert (Hh : map horizontal_of location = location).
  { rewrite <- (map_id location) at 2. apply map_ext_in.
    intros kv Hkv. specialize (Hno kv Hkv). unfold horizontal_of.
    now destruct (snd kv). }
  assert (Hv : map vertical_of location = location).
  { rewrite <- (map_id location) at 2. apply map_ext_in.
    intros kv Hkv. specialize (Hno kv Hkv). unfold vertical_of.
    now destruct (snd kv). }
  unfold splitAnisotropic_function, bind, lift, ret. simpl.
  unfold arg. simpl.
  rewrite (@splitAnisotropic_loop_pairs location [] [] Hnd).
  - now rewrite Hh, Hv.
  - intros k _. simpl. tauto.
  - intros kv Hkv. specialize (Hno kv Hkv). unfold short_tuple.
    now destruct (snd kv).
Qed.

(** ** Local defaults *)

Lemma dict_set_keys (k k' : string) (v : pyobj) (d : dict) :
  In k (map fst (dict_set k' v d)) <-> k = k' \/ In k (map fst d).
Proof.
  induction d as [|[k0 v0] d IH]; simpl.
  - split; [intros [H|[]]; now left | intros [H|[]]; now left].
  - destruct (String.eqb k' k0) eqn:E; simpl.
    + apply String.eqb_eq in E. subst k0. split.
      * intros [H|H]; [left; now symmetry | right; now right].
      * intros [H|[H|H]]; [left; now symmetry | now left | now right].
    + rewrite IH. split.
      * intros [H|[H|H]]; [right; now left | now left | right; now right].
      * intros [H|[H|H]]; [right; now left | now left | right; now right].
Qed.

Lemma axis_defaults_keys (o : UFOOperator) (k : string) :
  In k (map fst (axis_defaults o))
  <-> In k (map AxisDescriptor.name (DesignSpaceDocument.axes (doc o))).
Proof.
  unfold axis_defaults.
  assert (H : forall axes acc,
            In k (map fst
                    (fold_left
                       (fun defaults aD =>
                          dict_set (AxisDescriptor.name aD)
                            (AxisDescriptor.default aD) defaults)
                       axes acc))
            <-> In k (map fst acc) \/ In k (map AxisDescriptor.name axes)).
  { induction axes as [|a axes IH]; intros acc; simpl; [tauto|].
    rewrite IH, dict_set_keys. split.
    - intros [[H|H]|H]; auto.
    - intros [H|[H|H]]; auto. }
  rewrite H. simpl. tauto.
Qed.

Lemma axis_defaults_NoDup (o : UFOOperator) :
  NoDup (map AxisDescriptor.name (DesignSpaceDocument.axes (doc o))) ->
  axis_defaults o
  = map (fun a => (AxisDescriptor.name a, AxisDescriptor.default a))
      (DesignSpaceDocument.axes (doc o)).
Proof.
  unfold axis_defaults.
  assert (H : forall axes acc,
            NoDup (map AxisDescriptor.name axes) ->
            (forall a, In a axes -> ~ In (AxisDescriptor.name a) (map fst acc)) ->
            fold_left
              (fun defaults aD =>
                 dict_set (AxisDescriptor.name aD) (AxisDescriptor.default aD)
                   defaults)
              axes acc
            = acc ++ map (fun a => (AxisDescriptor.name a,
                                    AxisDescriptor.default a)) axes).
  { induction axes as [|a axes IH]; intros acc Hnd Hfresh; simpl.
    - now rewrite app_nil_r.
    - inversion Hnd as [|? ? Ha Hnd']; subst.
      rewrite dict_set_fresh by (apply Hfresh; now left).
      rewrite IH.
      + now rewrite <- app_assoc.
      + exact Hnd'.
      + intros b Hb. rewrite map_app, in_app_iff. simpl.
        intros [H|[H|[]]].
        * apply (Hfresh b); [now right | exact H].
        * apply Ha. rewrite H. now apply in_map. }
  intros Hnd. rewrite (H _ [] Hnd); [reflexivity|]. intros a _ [].
Qed.

Lemma isLocalDefault_loop_declared (defaults location : dict) :
  (forall kv, In kv location -> In (fst kv) (map fst defaults)) ->
  isLocalDefault_loop defaults location
  = Ok (forallb
          (fun kv => match dict_get (fst kv) defaults with
                     | Some d => py_eqb d (snd kv)
                     | None => false
                     end)
          location).
Proof.
  induction location as [|[n v] location IH]; intros Hdecl; simpl;
    [reflexivity|].
  destruct (dict_get n defaults) as [d|] eqn:Hget.
  - destruct (py_eqb d v); simpl; [|reflexivity].
    apply IH. intros kv Hkv. apply Hdecl. now right.
  - exfalso. apply dict_get_None_notin in Hget. apply Hget.
    apply (Hdecl (n, v)). now left.
Qed.

(** X16.  When the axes have different names and the location names only
    axes of the document, [isLocalDefault] does not raise, and answers true
    exactly when every entry of the location has its axis's default: the
    axes the location leaves out are not looked at, so the empty location
    is a default. *)
Theorem isLocalDefault_of_declared_axes (o : UFOOperator) (location : dict) :
  NoDup (map AxisDescriptor.name (DesignSpaceDocument.axes (doc o))) ->
  (forall kv, In kv location ->
     In (fst kv) (map AxisDescriptor.name (DesignSpaceDocument.axes (doc o)))) ->
  isLocalDefault o [] = Ok true
  /\ exists isDefault,
       isLocalDefault o location = Ok isDefault
       /\ (isDefault = true
           <-> forall name value, In (name, value) location ->
                 exists a, In a (DesignSpaceDocument.axes (doc o))
                           /\ AxisDescriptor.name a = name
                           /\ AxisDescriptor.default a = value).
Proof.
  intros Hnd Hdecl. split; [reflexivity|].
  unfold isLocalDefault.
  rewrite isLocalDefault_loop_declared
    by (intros kv Hkv; apply axis_defaults_keys; now apply Hdecl).
  eexists. split; [reflexivity|].
  assert (Hdnd : NoDup (map fst (axis_defaults o))).
  { rewrite (axis_defaults_NoDup o Hnd), map_map. exact Hnd. }
  rewrite forallb_forall. split.
  - intros Hall name value Hin. specialize (Hall (name, value) Hin).
    simpl in Hall.
    destruct (dict_get name (axis_defaults o)) as [d|] eqn:Hget;
      [|discriminate].
    apply py_eqb_eq in Hall. subst d.
    apply (dict_get_In name value _ Hdnd) in Hget.
    rewrite (axis_defaults_NoDup o Hnd) in Hget.
    apply in_map_iff in Hget. destruct Hget as (a & [= <- <-] & Ha).
    now exists a.
  - intros Hall [name value] Hin. simpl.
    destruct (Hall name value Hin) as (a & Ha & <- & <-).
    assert (Hget : dict_get (AxisDescriptor.name a) (axis_defaults o)
                   = Some (AxisDescriptor.default a)).
    { apply (dict_get_In _ _ _ Hdnd). rewrite (axis_defaults_NoDup o Hnd).
      apply in_map_iff. now exists a. }
    rewrite Hget. apply py_eqb_refl.
Qed.

Lemma isLocalDefault_loop_undeclared (defaults location : dict) :
  (exists kv, In kv location /\ ~ In (fst kv) (map fst defaults)) ->
  isLocalDefault_loop defaults location = Ok false
  \/ exists axisName, isLocalDefault_loop defaults location
                      = Raise (KeyError (PStr axisName))
                      /\ In axisName (map fst location)
                      /\ ~ In axisName (map fst defaults).
Proof.
  induction location as [|[n v] location IH]; intros (kv & Hin & Hun);
    [destruct Hin|].
  simpl. destruct (dict_get n defaults) as [d|] eqn:Hget.
  - destruct (py_eqb d v); [|now left].
    destruct Hin as [<-|Hin].
    + exfalso. simpl in Hun. apply dict_get_None_notin in Hun. congruence.
    + destruct IH as [IH|(a & IH & Ha & Hna)]; [now exists kv | now left |].
      right. exists a. auto.
  - right. exists n. repeat split; [now left|].
    now apply dict_get_None_notin.
Qed.

Lemma isLocalDefault_loop_at_default (defaults before rest : dict) :
  (forall n v, In (n, v) before -> dict_get n defaults = Some v) ->
  isLocalDefault_loop defaults (before ++ rest)
  = isLocalDefault_loop defaults rest.
Proof.
  induction before as [|[n v] before IH]; intros Hat; [reflexivity|].
  cbn [app isLocalDefault_loop].
  rewrite (Hat n v (or_introl eq_refl)), py_eqb_refl.
  apply IH. intros n' v' Hin. apply Hat. now right.
Qed.

(** X17.  [isLocalDefault] goes through the location in order and stops at
    the first entry that is not an axis of the document at its default.
    When that entry names an axis the document does not have, the call
    raises [KeyError] with that name ([defaults[axisName]]); when it is an
    axis off its default, the call answers false, whatever follows it,
    undeclared names included.  So a location that names an axis the
    document does not have is never a local default. *)
Theorem isLocalDefault_undeclared_axis (o : UFOOperator) :
  (forall before after name value,
     (forall n v, In (n, v) before ->
                  dict_get n (axis_defaults o) = Some v) ->
     (~ In name
          (map AxisDescriptor.name (DesignSpaceDocument.axes (doc o))) ->
      isLocalDefault o (before ++ (name, value) :: after)
      = Raise (KeyError (PStr name)))
     /\ (forall d, dict_get name (axis_defaults o) = Some d ->
                   d <> value ->
                   isLocalDefault o (before ++ (name, value) :: after)
                   = Ok false))
  /\ (forall location name value,
        In (name, value) location ->
        ~ In name
            (map AxisDescriptor.name (DesignSpaceDocument.axes (doc o))) ->
        isLocalDefault o location <> Ok true).
Proof.
  split.
  - intros before after name value Hat. unfold isLocalDefault.
    rewrite (isLocalDefault_loop_at_default _ _ _ Hat).
    cbn [isLocalDefault_loop]. split.
    + intros Hun. rewrite <- axis_defaults_keys in Hun.
      apply dict_get_None_notin in Hun. now rewrite Hun.
    + intros d Hd Hne. rewrite Hd.
      destruct (py_eqb d value) eqn:Heq; [|reflexivity].
      apply py_eqb_eq in Heq. contradiction.
  - intros location name value Hin Hun. unfold isLocalDefault.
    destruct (@isLocalDefault_loop_undeclared (axis_defaults o) location)
      as [H|(a & H & _)].
    + exists (name, value). split; [exact Hin|]. simpl.
      now rewrite axis_defaults_keys.
    + rewrite H. discriminate.
    + rewrite H. discriminate.
Qed.

(** ** Filtering muted axes *)

Lemma dict_del_keys (k k' : string) (d : dict) :
  In k (map fst (dict_del k' d)) -> In k (map fst d).
Proof.
  induction d as [|[k0 v0] d IH]; simpl; [tauto|].
  destruct (String.eqb k' k0); simpl.
  - intros H. now right.
  - intros [H|H]; [now left | right; now apply IH].
Qed.

Lemma dict_del_NoDup (k : string) (d : dict) :
  NoDup (map fst d) -> NoDup (map fst (dict_del k d)).
Proof.
  induction d as [|[k0 v0] d IH]; simpl; intros Hnd; [constructor|].
  inversion Hnd as [|? ? Hnotin Hnd']; subst.
  destruct (String.eqb k k0); simpl; [exact Hnd'|].
  constructor; [|now apply IH].
  intros Hin. apply Hnotin. now apply dict_del_keys in Hin.
Qed.

Lemma dict_get_del_other (k k' : string) (d : dict) :
  k <> k' -> dict_get k (dict_del k' d) = dict_get k d.
Proof.
  intros Hne. induction d as [|[k0 v0] d IH]; simpl; [reflexivity|].
  destruct (String.eqb k' k0) eqn:E; simpl.
  - apply String.eqb_eq in E. subst k0.
    apply String.eqb_neq in Hne. now rewrite Hne.
  - destruct (String.eqb k k0); [reflexivity | exact IH].
Qed.

Lemma dict_get_del_same (k : string) (d : dict) :
  NoDup (map fst d) -> dict_get k (dict_del k d) = None.
Proof.
  induction d as [|[k0 v0] d IH]; simpl; intros Hnd; [reflexivity|].
  inversion Hnd as [|? ? Hnotin Hnd']; subst.
  destruct (String.eqb k k0) eqn:E; simpl.
  - apply String.eqb_eq in E. subst k0. now apply dict_get_None_notin.
  - rewrite E. now apply IH.
Qed.

Lemma dict_del_filter (k : string) (d : dict) :
  NoDup (map fst d) ->
  dict_del k d = filter (fun kv => negb (String.eqb (fst kv) k)) d.
Proof.
  induction d as [|[k0 v0] d IH]; simpl; intros Hnd; [reflexivity|].
  inversion Hnd as [|? ? Hnotin Hnd']; subst.
  rewrite (String.eqb_sym k0 k).
  destruct (String.eqb k k0) eqn:E; simpl.
  - apply String.eqb_eq in E. subst k0.
    symmetry. apply forallb_filter_id. apply forallb_forall.
    intros [k1 v1] Hin. simpl. apply negb_true_iff. apply String.eqb_neq.
    intros ->. apply Hnotin. now apply (in_map fst) in Hin.
  - now rewrite IH.
Qed.

Lemma filter_filter (A : Type) (p q : A -> bool) (l : list A) :
  filter p (filter q l) = filter (fun x => q x && p x) l.
Proof.
  induction l as [|x l IH]; simpl; [reflexivity|].
  destruct (q x); simpl; [|exact IH].
  destruct (p x); now rewrite IH.
Qed.

Lemma filterThisLocation_loop_stays (defaults location : dict) :
  forall (mutedAxes : list string) (ignoreSource : bool) (new : dict),
    NoDup (map fst new) ->
    NoDup mutedAxes ->
    (forall m, In m mutedAxes -> dict_get m new = dict_get m location) ->
    filterThisLocation_loop defaults location mutedAxes ignoreSource new
    = Ok (ignoreSource || existsb (off_default defaults location) mutedAxes,
          filter (stays defaults mutedAxes) new).
Proof.
  induction mutedAxes as [|m rest IH]; intros ignoreSource new Hnew Hnd Hsame.
  - simpl. rewrite orb_false_r. f_equal. f_equal.
    symmetry. apply forallb_filter_id. now apply forallb_forall.
  - inversion Hnd as [|? ? Hm Hrest]; subst.
    cbn [filterThisLocation_loop existsb]. unfold off_default at 1.
    assert (Hget : dict_get m new = dict_get m location)
      by (apply Hsame; now left).
    assert (Hskip : (dict_get m location = None \/ dict_get m defaults = None) ->
                    filterThisLocation_loop defaults location rest
                      ignoreSource new
                    = Ok (ignoreSource
                          || existsb (off_default defaults location) rest,
                          filter (stays defaults (m :: rest)) new)).
    { intros Hnone. rewrite IH; [|exact Hnew|exact Hrest|].
      - f_equal. f_equal. apply filter_ext_in. intros [k v] Hin.
        unfold stays, str_mem. cbn [fst existsb].
        destruct (String.eqb k m) eqn:E; [|reflexivity].
        apply String.eqb_eq in E. subst k.
        destruct Hnone as [Hnone|Hnone].
        + exfalso. rewrite <- Hget in Hnone.
          apply dict_get_None_notin in Hnone. apply Hnone.
          now apply (in_map fst) in Hin.
        + unfold dict_mem. rewrite Hnone. now rewrite !andb_false_r.
      - intros m' Hm'. apply Hsame. now right. }
    destruct (dict_get m location) as [v|] eqn:Hl;
      [|rewrite Hskip by (now left); reflexivity].
    destruct (dict_get m defaults) as [d|] eqn:Hd;
      [|rewrite Hskip by (now right); reflexivity].
    unfold dict_mem at 1. rewrite Hget.
    rewrite IH; [|now apply dict_del_NoDup|exact Hrest|].
    + f_equal. f_equal.
      * destruct (py_eqb v d); simpl; [reflexivity|].
        now rewrite orb_true_r.
      * rewrite (dict_del_filter m _ Hnew), filter_filter.
        apply filter_ext. intros [k v']. unfold stays, str_mem.
        cbn [fst existsb].
        destruct (String.eqb k m) eqn:E; simpl; [|reflexivity].
        apply String.eqb_eq in E. subst k.
        unfold dict_mem. now rewrite Hd.
    + intros m' Hm'. rewrite dict_get_del_other.
      * apply Hsame. now right.
      * intros ->. now apply Hm.
Qed.

(** X18.  With the muted axes listed once each, [filterThisLocation] returns
    the location without the entries of the muted axes that the document
    declares, in the order they had, and says to ignore the source exactly
    when one of the muted axes has a value in the location that is not its
    default.  A muted name the document does not declare is left in the
    location. *)
Theorem filterThisLocation_removes_muted_axes (o : UFOOperator)
  (location : dict) (mutedAxes : list string) :
  NoDup (map fst location) ->
  NoDup mutedAxes ->
  filterThisLocation o location (Some mutedAxes)
  = Ok (existsb (off_default (axis_defaults o) location) mutedAxes,
        filter (stays (axis_defaults o) mutedAxes) location).
Proof.
  intros Hloc Hnd. unfold filterThisLocation.
  destruct mutedAxes as [|m rest].
  - simpl. f_equal. f_equal. symmetry. apply forallb_filter_id.
    now apply forallb_forall.
  - now rewrite filterThisLocation_loop_stays.
Qed.

Lemma filterThisLocation_loop_deleted (defaults location : dict) :
  forall (mutedAxes : list string) (ignoreSource : bool) (new : dict),
    (exists m, In m mutedAxes
               /\ dict_mem m location = true
               /\ dict_mem m defaults = true
               /\ dict_mem m new = false) ->
    exists name,
      filterThisLocation_loop defaults location mutedAxes ignoreSource new
      = Raise (KeyError (PStr name)).
Proof.
  induction mutedAxes as [|h rest IH];
    intros ignoreSource new (m & Hin & Hl & Hd & Hn); [destruct Hin|].
  cbn [filterThisLocation_loop].
  assert (Hrest : h <> m -> forall new',
            dict_mem m new' = false ->
            exists m0, In m0 rest
                       /\ dict_mem m0 location = true
                       /\ dict_mem m0 defaults = true
                       /\ dict_mem m0 new' = false).
  { intros Hne new' Hn'. exists m. destruct Hin as [->|Hin]; [congruence|].
    auto. }
  destruct (dict_get h location) as [v|] eqn:Hhl.
  - destruct (dict_get h defaults) as [d|] eqn:Hhd.
    + destruct (dict_mem h new) eqn:Hhn; [|now exists h].
      apply IH. apply Hrest; [intros ->; congruence|].
      unfold dict_mem in *. rewrite dict_get_del_other; [exact Hn|].
      intros ->. congruence.
    + apply IH. apply Hrest; [|exact Hn].
      intros ->. unfold dict_mem in Hd. now rewrite Hhd in Hd.
  - apply IH. apply Hrest; [|exact Hn].
    intros ->. unfold dict_mem in Hl. now rewrite Hhl in Hl.
Qed.

Lemma filterThisLocation_loop_twice (defaults location : dict) (m : string) :
  dict_mem m location = true ->
  dict_mem m defaults = true ->
  forall (before after : list string) (ignoreSource : bool) (new : dict),
    In m after ->
    NoDup (map fst new) ->
    exists name,
      filterThisLocation_loop defaults location (before ++ m :: after)
        ignoreSource new
      = Raise (KeyError (PStr name)).
Proof.
  intros Hl Hd. induction before as [|h before IH];
    intros after ignoreSource new Hin Hnew.
  - cbn [app filterThisLocation_loop].
    destruct (dict_get m location) as [v|] eqn:Hml;
      [|unfold dict_mem in Hl; now rewrite Hml in Hl].
    destruct (dict_get m defaults) as [d|] eqn:Hmd;
      [|unfold dict_mem in Hd; now rewrite Hmd in Hd].
    destruct (dict_mem m new) eqn:Hn; [|now exists m].
    apply filterThisLocation_loop_deleted. exists m.
    repeat split; try assumption.
    unfold dict_mem. now rewrite dict_get_del_same.
  - cbn [app filterThisLocation_loop].
    destruct (dict_get h location) as [v|]; [|now apply IH].
    destruct (dict_get h defaults) as [d|]; [|now apply IH].
    destruct (dict_mem h new); [|now exists h].
    apply IH; [exact Hin | now apply dict_del_NoDup].
Qed.

(** X19.  A muted axis that the location and the document both have is
    deleted from the copy the first time the list of muted axes names it;
    when the list names it again, [del new[mutedAxisName]] raises
    [KeyError]: [filterThisLocation] raises for every location that has
    such an axis. *)
Theorem filterThisLocation_raises_on_repeated_name (o : UFOOperator)
  (location : dict) (name : string) (before between after : list string) :
  NoDup (map fst location) ->
  dict_mem name location = true ->
  In name (map AxisDescriptor.name (DesignSpaceDocument.axes (doc o))) ->
  exists raised,
    filterThisLocation o location
      (Some (before ++ name :: between ++ name :: after))
    = Raise (KeyError (PStr raised)).
Proof.
  intros Hloc Hl Hdecl. unfold filterThisLocation.
  assert (Hd : dict_mem name (axis_defaults o) = true).
  { unfold dict_mem.
    destruct (dict_get name (axis_defaults o)) eqn:Hget; [reflexivity|].
    apply dict_get_None_notin in Hget. exfalso. apply Hget.
    now apply axis_defaults_keys. }
  destruct (before ++ name :: between ++ name :: after) as [|h t] eqn:Hlist.
  - now destruct before.
  - rewrite <- Hlist.
    apply filterThisLocation_loop_twice; try assumption.
    apply in_or_app. right. now left.
Qed.

(** ** Methods that only read the operator *)

Lemma keeps_ret (A : Type) (a : A) : keeps_operator (ret a).
Proof. now intros w. Qed.

Lemma keeps_raise (A : Type) (e : exn) : keeps_operator (@raise A e).
Proof. now intros w. Qed.

Lemma keeps_lift (A : Type) (r : res A) : keeps_operator (lift r).
Proof. now intros w. Qed.

Lemma keeps_self_attr (A : Type) (f : UFOOperator -> A) :
  keeps_operator (self_attr f).
Proof. now intros w. Qed.

Lemma keeps_logger_call (method : string) : keeps_operator (logger_call method).
Proof. intros w. unfold logger_call. now destruct (logger (this w)). Qed.

Lemma keeps_debug_log (method : string) : keeps_operator (debug_log method).
Proof.
  intros w. unfold debug_log.
  destruct (debug (this w)); [apply keeps_logger_call | reflexivity].
Qed.

Lemma keeps_bind (A B : Type) (c : M A) (k : A -> M B) :
  keeps_operator c -> (forall a, keeps_operator (k a)) ->
  keeps_operator (bind c k).
Proof.
  intros Hc Hk w. unfold bind. specialize (Hc w).
  destruct (c w) as [[a|e] w']; simpl in *.
  - now rewrite Hk.
  - exact Hc.
Qed.

Lemma keeps_try_except (A : Type) (c : M A) (handled : exn -> bool)
  (handler : M A) :
  keeps_operator c -> keeps_operator handler ->
  keeps_operator (try_except c handled handler).
Proof.
  intros Hc Hh w. unfold try_except. specialize (Hc w).
  destruct (c w) as [[a|e] w']; simpl in *; [exact Hc|].
  destruct (handled e); simpl; [now rewrite Hh | exact Hc].
Qed.

Lemma keeps_foldM (A B : Type) (f : B -> A -> M B) (l : list A) :
  (forall acc x, keeps_operator (f acc x)) ->
  forall acc, keeps_operator (foldM f acc l).
Proof.
  intros Hf. induction l as [|x l IH]; intros acc; simpl.
  - apply keeps_ret.
  - apply keeps_bind; [apply Hf | exact IH].
Qed.

Lemma keeps_memoize (name : string)
  (function : nat -> list pyobj -> dict -> M Cached) (self : nat)
  (args : list pyobj) (kwargs : dict) :
  keeps_operator (function self args kwargs) ->
  keeps_operator (memoize name function self args kwargs).
Proof.
  intros Hf w. unfold memoize.
  destruct (key_hashable (make_key name self args kwargs)); [|reflexivity].
  destruct (cache_get (make_key name self args kwargs) (_memoizeCache w));
    [reflexivity|].
  specialize (Hf w).
  now destruct (function self args kwargs w) as [[r|e] w'].
Qed.

#[local] Hint Resolve keeps_ret keeps_raise keeps_lift keeps_self_attr
  keeps_logger_call keeps_debug_log keeps_bind keeps_try_except keeps_foldM
  keeps_memoize : frame.
#[local] Hint Extern 1 (keeps_operator (match ?x with _ => _ end)) =>
  destruct x : frame.

Lemma keeps_findSourceDescriptorsForDiscreteLocation (self : nat)
  (args : list pyobj) (kwargs : dict) :
  keeps_operator (findSourceDescriptorsForDiscreteLocation self args kwargs).
Proof.
  unfold findSourceDescriptorsForDiscreteLocation,
    findSourceDescriptorsForDiscreteLocation_function.
  auto 30 with frame nocore.
Qed.

Lemma keeps_newDefaultLocation (self : nat) (args : list pyobj)
  (kwargs : dict) :
  keeps_operator (newDefaultLocation self args kwargs).
Proof. unfold newDefaultLocation, newDefaultLocation_function. auto 30 with frame nocore. Qed.

Lemma keeps_isAnisotropic (self : nat) (args : list pyobj) (kwargs : dict) :
  keeps_operator (isAnisotropic self args kwargs).
Proof. unfold isAnisotropic, isAnisotropic_function. auto 30 with frame nocore. Qed.

Lemma keeps_splitAnisotropic (self : nat) (args : list pyobj) (kwargs : dict) :
  keeps_operator (splitAnisotropic self args kwargs).
Proof. unfold splitAnisotropic, splitAnisotropic_function. auto 30 with frame nocore. Qed.

Lemma keeps_getVariationModel (E : Externals) (items : list (dict * MathObject))
  (axes : list AxisDescriptor.t) (bias : pyobj) :
  keeps_operator (getVariationModel E items axes bias).
Proof. unfold getVariationModel. auto 30 with frame nocore. Qed.

Lemma keeps_make_instance (E : Externals) (m : Mutator) (loc bend : pyobj) :
  keeps_operator (make_instance E m loc bend).
Proof. unfold make_instance. auto 30 with frame nocore. Qed.

Lemma keeps_collectSourcesForGlyph_step (E : Externals)
  (glyphName decomposeComponents : pyobj) (acc : Collected)
  (sourceDescriptor : SourceDescriptor.t) :
  keeps_operator
    (collectSourcesForGlyph_step E glyphName decomposeComponents acc
       sourceDescriptor).
Proof. unfold collectSourcesForGlyph_step. auto 30 with frame nocore. Qed.

Lemma keeps_collectSourcesForGlyph (E : Externals) (self : nat)
  (args : list pyobj) (kwargs : dict) :
  keeps_operator (collectSourcesForGlyph E self args kwargs).
Proof.
  unfold collectSourcesForGlyph, collectSourcesForGlyph_function.
  apply keeps_memoize. apply keeps_bind; [auto with frame nocore|]. intros [bound extra].
  apply keeps_bind; [apply keeps_newDefaultLocation|]. intros _.
  apply keeps_bind.
  - destruct (arg "discreteLocation" bound); try apply keeps_self_attr;
      (apply keeps_bind;
       [apply keeps_findSourceDescriptorsForDiscreteLocation
       |intros; apply keeps_lift]).
  - intros sources. apply keeps_bind; [|intros; apply keeps_ret].
    apply keeps_foldM. intros. apply keeps_collectSourcesForGlyph_step.
Qed.

Lemma keeps_getGlyphMutator (E : Externals) (self : nat) (args : list pyobj)
  (kwargs : dict) :
  keeps_operator (getGlyphMutator E self args kwargs).
Proof.
  unfold getGlyphMutator, getGlyphMutator_function.
  apply keeps_memoize. apply keeps_bind; [auto with frame nocore|]. intros [bound extra].
  apply keeps_bind; [apply keeps_collectSourcesForGlyph|]. intros c.
  apply keeps_bind; [apply keeps_lift|]. intros [items unicodes].
  apply keeps_bind; [apply keeps_newDefaultLocation|]. intros c'.
  apply keeps_bind; [apply keeps_lift|]. intros thisBias.
  apply keeps_bind; [|intros; apply keeps_ret].
  apply keeps_try_except.
  - apply keeps_bind; [apply keeps_self_attr|]. intros axes.
    apply keeps_getVariationModel.
  - apply keeps_bind; [apply keeps_debug_log | intros; apply keeps_ret].
Qed.

#[local] Hint Resolve keeps_findSourceDescriptorsForDiscreteLocation
  keeps_newDefaultLocation keeps_isAnisotropic keeps_splitAnisotropic
  keeps_getVariationModel keeps_make_instance keeps_collectSourcesForGlyph
  keeps_getGlyphMutator : frame.

(** X20.  The queries of an operator never change one of its attributes,
    whether they return or raise, from the cache or not: the sources of a
    discrete location, the default location, the two tests of anisotropy,
    the sources of a glyph and its mutator.  In particular [useVarlib], the
    fonts and the document are as before. *)
Theorem queries_keep_the_operator (E : Externals) (self : nat)
  (args : list pyobj) (kwargs : dict) :
  keeps_operator (findSourceDescriptorsForDiscreteLocation self args kwargs)
  /\ keeps_operator (newDefaultLocation self args kwargs)
  /\ keeps_operator (isAnisotropic self args kwargs)
  /\ keeps_operator (splitAnisotropic self args kwargs)
  /\ keeps_operator (collectSourcesForGlyph E self args kwargs)
  /\ keeps_operator (getGlyphMutator E self args kwargs).
Proof.
  repeat split.
  - apply keeps_findSourceDescriptorsForDiscreteLocation.
  - apply keeps_newDefaultLocation.
  - apply keeps_isAnisotropic.
  - apply keeps_splitAnisotropic.
  - apply keeps_collectSourcesForGlyph.
  - apply keeps_getGlyphMutator.
Qed.

Lemma outcome_bind (A B : Type) (c : M A) (k : A -> M B) (w : World)
  (Q : res B -> World -> Prop) :
  outcome c w
    (fun r w' =>
       match r with
       | Ok a => outcome (k a) w' Q
       | Raise e => Q (Raise e) w'
       end) ->
  outcome (bind c k) w Q.
Proof.
  unfold outcome, bind. now destruct (c w) as [[a|e] w'].
Qed.

Lemma outcome_keeps (A : Type) (c : M A) (w : World)
  (Q : res A -> World -> Prop) :
  keeps_operator c ->
  (forall r w', this w' = this w -> Q r w') ->
  outcome c w Q.
Proof. intros Hc HQ. apply HQ. apply Hc. Qed.

Lemma outcome_lift (A : Type) (r : res A) (w : World)
  (Q : res A -> World -> Prop) :
  Q r w -> outcome (lift r) w Q.
Proof. now intros H. Qed.

Lemma outcome_ret (A : Type) (a : A) (w : World)
  (Q : res A -> World -> Prop) :
  Q (Ok a) w -> outcome (ret a) w Q.
Proof. now intros H. Qed.

Lemma outcome_self_attr (A : Type) (f : UFOOperator -> A) (w : World)
  (Q : res A -> World -> Prop) :
  Q (Ok (f (this w))) w -> outcome (self_attr f) w Q.
Proof. now intros H. Qed.

Lemma outcome_self_set (f : UFOOperator -> UFOOperator) (w : World)
  (Q : res unit -> World -> Prop) :
  Q (Ok tt) (with_this (f (this w)) w) -> outcome (self_set f) w Q.
Proof. now intros H. Qed.

Lemma set_useVarlib_back (v : pyobj) (o : UFOOperator) :
  set_useVarlib (useVarlib o) (set_useVarlib v o) = o.
Proof. now destruct o. Qed.

(** X21.  [makeOneGlyph] sets [self.useVarlib] to its argument before it
    asks for the mutator and sets it back on its last line only.  So for a
    location whose discrete values are legal, the operator is as before
    when an instance is returned, and in every other case -- no mutator,
    [None] returned, or an exception -- the operator is left with
    [useVarlib] set to the argument of the call. *)
Theorem makeOneGlyph_leaves_useVarlib_set (E : Externals) (self : nat)
  (args : list pyobj) (kwargs : dict) (w : World) (bound extra d : dict) :
  bind_args makeOneGlyph_signature args kwargs = Ok (bound, extra) ->
  items_of (arg "location" bound) = Ok d ->
  checkDiscreteAxisValues (this w) (opt_dict (snd (splitLocation (this w) d)))
  = Ok true ->
  let result := makeOneGlyph_function E self args kwargs w in
  match fst result with
  | Ok (CInstance (Some _)) => this (snd result) = this w
  | _ =>
      this (snd result) = set_useVarlib (arg "useVarlib" bound) (this w)
  end.
Proof.
  intros Hbind Hitems Hlegal result.
  set (v := arg "useVarlib" bound).
  set (Q := fun (r : res Cached) (w' : World) =>
              match r with
              | Ok (CInstance (Some _)) => this w' = this w
              | _ => this w' = set_useVarlib v (this w)
              end).
  change (outcome (makeOneGlyph_function E self args kwargs) w Q).
  unfold makeOneGlyph_function.
  apply outcome_bind, outcome_lift.
  change (bind_args _ args kwargs)
    with (bind_args makeOneGlyph_signature args kwargs).
  rewrite Hbind.
  apply outcome_bind, outcome_lift. rewrite Hitems.
  apply outcome_bind, outcome_self_attr.
  destruct (splitLocation (this w) d) as [continuousLocation discreteLocation].
  cbn [snd] in Hlegal.
  apply outcome_bind, outcome_lift. rewrite Hlegal. cbn [negb].
  apply outcome_bind, outcome_self_set. fold v.
  set (w1 := with_this (set_useVarlib v (this w)) w).
  assert (Hw1 : this w1 = set_useVarlib v (this w)) by reflexivity.
  apply outcome_bind, outcome_keeps; [auto with frame nocore|].
  intros [c|e] w2 Hw2; [|unfold Q; congruence].
  apply outcome_bind, outcome_lift.
  destruct (cached_glyphMutator c) as [[[glyphMutator|] unicodes]|e];
    try (unfold Q; congruence);
    [|apply outcome_ret; unfold Q; congruence].
  destruct (mutator_bool E glyphMutator); cbn [negb];
    [|apply outcome_ret; unfold Q; congruence].
  apply outcome_bind, outcome_keeps; [auto 40 with frame nocore|].
  intros [[glyphInstanceObject|]|e] w3 Hw3;
    try (unfold Q; congruence);
    [|apply outcome_ret; unfold Q; congruence].
  apply outcome_bind, outcome_self_set, outcome_ret.
  unfold Q. cbn [this with_this].
  rewrite Hw3, Hw2, Hw1. apply set_useVarlib_back.
Qed.

(** ** Loading fonts *)

Lemma debug_log_can_log (method : string) (w : World) :
  can_log (this w) = true -> debug_log method w = (Ok tt, w).
Proof.
  unfold can_log, debug_log, logger_call.
  destruct (debug (this w)); [|reflexivity].
  now destruct (logger (this w)).
Qed.

Lemma loadFonts_loop_loaded (E : Externals) (sources : list SourceDescriptor.t) :
  forall (i : nat) (fonts : list (string * option Font)) (names : list string),
    forallb (has_entry fonts) sources = true ->
    loadFonts_loop E i sources fonts names = (sources, fonts, names).
Proof.
  induction sources as [|s rest IH]; intros i fonts names Hall;
    [reflexivity|].
  simpl in Hall. apply andb_true_iff in Hall. destruct Hall as [Hs Hrest].
  unfold has_entry in Hs. cbn [loadFonts_loop].
  destruct (SourceDescriptor.name s) as [n|] eqn:Hn; [|discriminate].
  destruct (fonts_get n fonts) as [f|]; [|discriminate].
  rewrite (IH (S i) fonts names Hrest).
  destruct s. simpl in Hn. now subst.
Qed.




Lemma loadFonts_runs (E : Externals) (self : nat) (reload : bool) (w : World) :
  can_log (this w) = true ->
  _fontsLoaded (this w) && negb reload = false ->
  loadFonts E self reload w
  = let '(sources, fonts', names) :=
      loadFonts_loop E 0 (DesignSpaceDocument.sources (doc (this w)))
        (fonts (this w)) [] in
    (Ok tt,
     with_this
       (set_fontsLoaded true
          (set_glyphNames names
             (set_fonts fonts'
                (set_doc
                   (DesignSpaceDocument.set_sources sources (doc (this w)))
                   (this w)))))
       w).
Proof.
  intros Hlog Hrun. unfold loadFonts, bind at 1, self_attr. rewrite Hrun.
  unfold bind at 1. rewrite (debug_log_can_log "info" w Hlog).
  now destruct (loadFonts_loop E 0 (DesignSpaceDocument.sources (doc (this w)))
                  (fonts (this w)) []) as [[sources fonts'] names].
Qed.


(** X23.  When every source has its entry in [self.fonts] -- as after a
    first [loadFonts] -- [loadFonts(reload=True)] opens no file: the fonts,
    the sources and the cache are as before, but [names] is a new empty set,
    so [self.glyphNames] is left empty. *)
Theorem loadFonts_reload_empties_glyphNames (E : Externals) (self : nat)
  (w : World) :
  can_log (this w) = true ->
  forallb (has_entry (fonts (this w)))
    (DesignSpaceDocument.sources (doc (this w))) = true ->
  let w' := snd (loadFonts E self true w) in
  fst (loadFonts E self true w) = Ok tt
  /\ glyphNames (this w') = Some []
  /\ fonts (this w') = fonts (this w)
  /\ DesignSpaceDocument.sources (doc (this w'))
     = DesignSpaceDocument.sources (doc (this w))
  /\ _memoizeCache w' = _memoizeCache w.
Proof.
  intros Hlog Hall w'. unfold w'.
  rewrite (loadFonts_runs E self true w Hlog) by apply andb_false_r.
  rewrite (loadFonts_loop_loaded E _ 0 _ [] Hall).
  cbn. repeat split.
Qed.

(** ** Replacing fonts *)

Lemma fonts_set_app (n : string) (f : option Font)
  (done rest : list (string * option Font)) (h : option Font) :
  ~ In n (map fst done) ->
  fonts_set n f (done ++ (n, h) :: rest) = done ++ (n, f) :: rest.
Proof.
  induction done as [|[k g] done IH]; simpl; intros Hnotin.
  - now rewrite String.eqb_refl.
  - destruct (String.eqb n k) eqn:E.
    + apply String.eqb_eq in E. subst k. exfalso. apply Hnotin. now left.
    + f_equal. apply IH. intros Hin. apply Hnotin. now right.
Qed.

Lemma with_this_set_fonts (w : World) :
  with_this (set_fonts (fonts (this w)) (this w)) w = w.
Proof. destruct w as [c s o]. now destruct o. Qed.

Lemma updateFonts_inner_updates (newFont : Font)
  (items : list (string * option Font)) :
  forall (done : list (string * option Font)) (hasUpdated : bool) (w : World),
    fonts (this w) = done ++ items ->
    NoDup (map fst (done ++ items)) ->
    all_loaded items = true ->
    can_log (this w) = true ->
    updateFonts_inner newFont items hasUpdated w
    = (Ok (hasUpdated || existsb (replaced newFont) items),
       with_this (set_fonts (done ++ map (updated newFont) items) (this w)) w).
Proof.
  induction items as [|[fontName haveFont] rest IH];
    intros done hasUpdated w Hfonts Hnd Hall Hlog.
  - simpl. rewrite orb_false_r. unfold ret. rewrite <- Hfonts.
    now rewrite with_this_set_fonts.
  - simpl in Hall. destruct haveFont as [haveFont|]; [|discriminate].
    simpl in Hall.
    assert (Hnd' : NoDup (map fst ((done ++ [(fontName, Some haveFont)])
                                   ++ rest)))
      by now rewrite <- app_assoc.
    cbn [updateFonts_inner existsb map]. unfold replaced at 1, updated at 1.
    cbn [snd fst]. fold (replaces newFont haveFont).
    destruct (replaces newFont haveFont) eqn:Hrep.
    + unfold bind at 1. rewrite (debug_log_can_log "time" w Hlog).
      unfold bind at 1. rewrite (debug_log_can_log "info" w Hlog).
      unfold bind at 1, self_set.
      rewrite (IH (done ++ [(fontName, Some newFont)])).
      * rewrite orb_true_r. cbn [orb this with_this fonts set_fonts].
        rewrite <- app_assoc. reflexivity.
      * cbn [this with_this fonts set_fonts]. rewrite Hfonts.
        rewrite fonts_set_app; [now rewrite <- app_assoc|].
        rewrite map_app in Hnd. apply NoDup_remove_2 in Hnd.
        intros Hin. apply Hnd. apply in_or_app. now left.
      * rewrite <- app_assoc. cbn [app]. rewrite map_app in *.
        exact Hnd.
      * exact Hall.
      * exact Hlog.
    + rewrite (IH (done ++ [(fontName, Some haveFont)]));
        [|now rewrite <- app_assoc|exact Hnd'|exact Hall|exact Hlog].
      now rewrite <- app_assoc.
Qed.

Lemma updateFonts_one (self : nat) (newFont : Font) (w : World) :
  NoDup (map fst (fonts (this w))) ->
  all_loaded (fonts (this w)) = true ->
  can_log (this w) = true ->
  updateFonts self [newFont] w
  = (if existsb (replaced newFont) (fonts (this w))
     then changed self
     else ret tt)
      (with_this
         (set_fonts (map (updated newFont) (fonts (this w))) (this w)) w).
Proof.
  intros Hnd Hall Hlog. unfold updateFonts.
  unfold bind at 1. cbn [updateFonts_loop]. unfold bind at 1, self_attr.
  unfold bind at 1.
  now rewrite (@updateFonts_inner_updates newFont (fonts (this w)) [] false w
                 eq_refl Hnd Hall Hlog).
Qed.

(** X24.  With a font in every entry of [self.fonts], [updateFonts] with
    one font puts it in place of every stored font that has its path and is
    another object, leaves the other entries, and forgets the cache entries
    of the receiver exactly when it has replaced a font: given a font that
    is already in use, or one of another path, it changes nothing. *)
Theorem updateFonts_replaces_by_path (self : nat) (newFont : Font)
  (w : World) :
  NoDup (map fst (fonts (this w))) ->
  all_loaded (fonts (this w)) = true ->
  can_log (this w) = true ->
  let w' := snd (updateFonts self [newFont] w) in
  fst (updateFonts self [newFont] w) = Ok tt
  /\ fonts (this w') = map (updated newFont) (fonts (this w))
  /\ _memoizeCache w'
     = if existsb (replaced newFont) (fonts (this w))
       then filter (fun kv => negb (Nat.eqb (key_self (fst kv)) self))
              (_memoizeCache w)
       else _memoizeCache w.
Proof.
  intros Hnd Hall Hlog w'. unfold w'.
  rewrite (updateFonts_one self newFont w Hnd Hall Hlog).
  destruct (existsb (replaced newFont) (fonts (this w))).
  - rewrite changed_filters. cbn. repeat split.
  - cbn. repeat split.
Qed.

(** ** Counting entries; layers; the info mutator *)

Lemma stats_get_set_same (name : string) (n : nat)
  (stats : list (string * nat)) :
  stats_get name (stats_set name n stats) = Some n.
Proof.
  induction stats as [|[k m] r IH]; simpl.
  - now rewrite String.eqb_refl.
  - destruct (String.eqb name k) eqn:E; simpl.
    + now rewrite String.eqb_refl.
    + now rewrite E.
Qed.

Lemma stats_get_set_other (name other : string) (n : nat)
  (stats : list (string * nat)) :
  name <> other ->
  stats_get name (stats_set other n stats) = stats_get name stats.
Proof.
  intros Hne. apply String.eqb_neq in Hne.
  induction stats as [|[k m] r IH]; simpl.
  - now rewrite Hne.
  - destruct (String.eqb other k) eqn:E; simpl.
    + apply String.eqb_eq in E. subst k. now rewrite Hne.
    + destruct (String.eqb name k); [reflexivity | exact IH].
Qed.

Lemma inspectMemoizeCache_fold (name : string) (keys : list Key) :
  forall stats : list (string * nat),
    stats_get name
      (fold_left
         (fun stats k =>
            match stats_get (key_name k) stats with
            | None => stats_set (key_name k) 1 stats
            | Some n => stats_set (key_name k) (S n) stats
            end)
         keys stats)
    = match
        List.length (filter (fun k => String.eqb (key_name k) name) keys),
        stats_get name stats
      with
      | 0, seen => seen
      | S n, None => Some (S n)
      | S n, Some m => Some (S n + m)
      end.
Proof.
  induction keys as [|k keys IH]; intros stats; simpl.
  - now destruct (stats_get name stats).
  - rewrite IH. destruct (String.eqb (key_name k) name) eqn:E.
    + apply String.eqb_eq in E. rewrite E. cbn [List.length].
      destruct (stats_get name stats) as [m|];
        rewrite stats_get_set_same;
        destruct (List.length _); f_equal; lia.
    + apply String.eqb_neq in E.
      assert (Hother : forall n,
                stats_get name (stats_set (key_name k) n stats)
                = stats_get name stats)
        by (intros n; apply stats_get_set_other; congruence).
      destruct (stats_get (key_name k) stats); now rewrite Hother.
Qed.

(** X25.  [inspectMemoizeCache] prints, for every function that has stored
    an entry, the number of its entries in the cache, whoever owns them, and
    nothing for a function that has stored none. *)
Theorem inspectMemoizeCache_counts_entries (w : World) (functionName : string) :
  stats_get functionName (inspectMemoizeCache w)
  = match entries_of functionName (_memoizeCache w) with
    | 0 => None
    | n => Some n
    end.
Proof.
  unfold inspectMemoizeCache, entries_of.
  rewrite inspectMemoizeCache_fold. simpl.
  assert (Hlen : forall cache : list (Key * Cached),
            List.length
              (filter (fun k => String.eqb (key_name k) functionName)
                 (map fst cache))
            = List.length
                (filter (fun kv => String.eqb (key_name (fst kv)) functionName)
                   cache)).
  { induction cache as [|[k v] cache IH]; simpl; [reflexivity|].
    destruct (String.eqb (key_name k) functionName); simpl; now rewrite IH. }
  rewrite Hlen. now destruct (List.length _).
Qed.

(** X26.  A source that points at a layer cannot be collected: when such a
    source is on disk, does not mute the glyph, is not ignored for a muted
    axis, and its font has the glyph, the turn of the loop reads the name
    [getLayer], which the module neither defines nor imports, and raises
    [NameError]. *)
Theorem collectSourcesForGlyph_step_raises_for_layer (E : Externals)
  (glyphName decomposeComponents : pyobj) (acc : Collected)
  (sourceDescriptor : SourceDescriptor.t) (w : World)
  (sourceName layerName : string) (f : Font) (g : Glyph)
  (thisIsDefault : bool) (filteredLocation : dict) :
  os_path_exists E (SourceDescriptor.path sourceDescriptor) = true ->
  py_mem glyphName
    (map PStr (SourceDescriptor.mutedGlyphNames sourceDescriptor)) = false ->
  isLocalDefault (this w) (SourceDescriptor.location sourceDescriptor)
  = Ok thisIsDefault ->
  filterThisLocation (this w) (SourceDescriptor.location sourceDescriptor)
    (mutedAxisNames (this w))
  = Ok (false, filteredLocation) ->
  SourceDescriptor.name sourceDescriptor = Some sourceName ->
  fonts_get sourceName (fonts (this w)) = Some (Some f) ->
  font_get glyphName f = Ok (Some g) ->
  SourceDescriptor.layerName sourceDescriptor = Some layerName ->
  collectSourcesForGlyph_step E glyphName decomposeComponents acc
    sourceDescriptor w
  = (Raise (NameError "getLayer"), w).
Proof.
  intros Hpath Hmuted Hdefault Hfilter Hname Hfont Hglyph Hlayer.
  unfold collectSourcesForGlyph_step. rewrite Hpath, Hmuted. cbn [negb].
  unfold bind at 1, self_attr.
  unfold bind at 1, lift. rewrite Hdefault.
  unfold bind at 1. rewrite Hfilter. cbv iota beta.
  rewrite Hname, Hfont. unfold bind at 1, lift. rewrite Hglyph.
  now rewrite Hlayer.
Qed.

Lemma getInfoMutator_loop_unloaded (o : UFOOperator)
  (sources : list SourceDescriptor.t) (s : SourceDescriptor.t) :
  fonts o = [] ->
  first_unlayered sources = Some s ->
  forall infoItems,
    getInfoMutator_loop o sources infoItems
    = Raise (KeyError (opt_str (SourceDescriptor.name s))).
Proof.
  intros Hfonts. induction sources as [|s0 rest IH]; simpl; [discriminate|].
  destruct (SourceDescriptor.layerName s0).
  - intros Hfirst infoItems. now apply IH.
  - intros [= ->] infoItems. rewrite Hfonts.
    now destruct (SourceDescriptor.name s).
Qed.

(** X27.  [getInfoMutator] reads [self.fonts[sourceDescriptor.name]]: on an
    operator that has loaded no font it raises [KeyError] with the name of
    the first source that is not a layer, and changes nothing. *)
Theorem getInfoMutator_raises_before_loadFonts (E : Externals) (self : nat)
  (w : World) (s : SourceDescriptor.t) :
  fonts (this w) = [] ->
  first_unlayered (DesignSpaceDocument.sources (doc (this w))) = Some s ->
  getInfoMutator_function E self [] [] w
  = (Raise (KeyError (opt_str (SourceDescriptor.name s))), w).
Proof.
  intros Hfonts Hfirst. unfold getInfoMutator_function.
  unfold bind at 1, lift. cbn.
  unfold bind at 1, self_attr.
  unfold bind at 1, self_attr.
  unfold bind at 1.
  now rewrite (getInfoMutator_loop_unloaded _ _ Hfonts Hfirst).
Qed.

(** ** The logger *)

Lemma keeps_logger_of_operator (A : Type) (c : M A) :
  keeps_operator c -> keeps_logger c.
Proof. intros H w. now rewrite H. Qed.

Lemma keeps_logger_bind (A B : Type) (c : M A) (k : A -> M B) :
  keeps_logger c -> (forall a, keeps_logger (k a)) ->
  keeps_logger (bind c k).
Proof.
  intros Hc Hk w. unfold bind. specialize (Hc w).
  destruct (c w) as [[a|e] w']; simpl in *; [|exact Hc].
  destruct (Hk a w') as [Hd Hl]. destruct Hc as [Hd' Hl'].
  split; congruence.
Qed.

Lemma keeps_logger_try_except (A : Type) (c : M A) (handled : exn -> bool)
  (handler : M A) :
  keeps_logger c -> keeps_logger handler ->
  keeps_logger (try_except c handled handler).
Proof.
  intros Hc Hh w. unfold try_except. specialize (Hc w).
  destruct (c w) as [[a|e] w']; simpl in *; [exact Hc|].
  destruct (handled e); simpl; [|exact Hc].
  destruct (Hh w') as [Hd Hl]. destruct Hc as [Hd' Hl'].
  split; congruence.
Qed.

Lemma keeps_logger_memoize (name : string)
  (function : nat -> list pyobj -> dict -> M Cached) (self : nat)
  (args : list pyobj) (kwargs : dict) :
  keeps_logger (function self args kwargs) ->
  keeps_logger (memoize name function self args kwargs).
Proof.
  intros Hf w. unfold memoize.
  destruct (key_hashable (make_key name self args kwargs)); [|now split].
  destruct (cache_get (make_key name self args kwargs) (_memoizeCache w));
    [now split|].
  specialize (Hf w).
  now destruct (function self args kwargs w) as [[r|e] w'].
Qed.

Lemma keeps_logger_self_set (f : UFOOperator -> UFOOperator) :
  (forall o, debug (f o) = debug o /\ logger (f o) = logger o) ->
  keeps_logger (self_set f).
Proof. intros Hf w. apply Hf. Qed.

Lemma keeps_changed (self : nat) : keeps_operator (changed self).
Proof. now intros w. Qed.

Lemma keeps_cache_delete (key : Key) : keeps_operator (cache_delete key).
Proof. now intros w. Qed.

#[local] Hint Resolve keeps_changed keeps_cache_delete : frame.
#[local] Hint Resolve keeps_logger_bind keeps_logger_try_except
  keeps_logger_memoize keeps_logger_self_set : frame.
#[local] Hint Resolve keeps_logger_of_operator | 2 : frame.
#[local] Hint Extern 1 (keeps_logger (match ?x with _ => _ end)) =>
  destruct x : frame.
#[local] Hint Extern 1 (_ /\ _) => split; reflexivity : frame.

Lemma keeps_glyphChanged (self : nat) (glyphName : pyobj) :
  keeps_operator (glyphChanged self glyphName).
Proof.
  assert (H : forall keys, keeps_operator (glyphChanged_loop glyphName keys)).
  { induction keys as [|key rest IH]; simpl; auto 10 with frame nocore. }
  intros w. unfold glyphChanged. apply H.
Qed.

Lemma keeps_logger_loadFonts (E : Externals) (self : nat) (reload : bool) :
  keeps_logger (loadFonts E self reload).
Proof. unfold loadFonts. auto 20 with frame nocore. Qed.

Lemma keeps_logger_updateFonts_inner (newFont : Font)
  (items : list (string * option Font)) :
  forall hasUpdated, keeps_logger (updateFonts_inner newFont items hasUpdated).
Proof.
  induction items as [|[fontName haveFont] rest IH]; intros hasUpdated;
    cbn [updateFonts_inner]; auto 20 with frame nocore.
Qed.

Lemma keeps_logger_updateFonts (self : nat) (fontObjects : list Font) :
  keeps_logger (updateFonts self fontObjects).
Proof.
  assert (H : forall hasUpdated,
            keeps_logger (updateFonts_loop fontObjects hasUpdated)).
  { pose proof keeps_logger_updateFonts_inner as Hinner.
    induction fontObjects as [|newFont rest IH]; intros hasUpdated;
      cbn [updateFonts_loop]; auto 10 with frame nocore. }
  unfold updateFonts. auto 10 with frame nocore.
Qed.

Lemma keeps_logger_getInfoMutator (E : Externals) (self : nat)
  (args : list pyobj) (kwargs : dict) :
  keeps_logger (getInfoMutator E self args kwargs).
Proof.
  unfold getInfoMutator, getInfoMutator_function. auto 30 with frame nocore.
Qed.

#[local] Hint Resolve keeps_logger_getInfoMutator : frame.

Lemma keeps_logger_makeFontProportions (E : Externals) (self : nat)
  (args : list pyobj) (kwargs : dict) :
  keeps_logger (makeFontProportions E self args kwargs).
Proof.
  unfold makeFontProportions, makeFontProportions_function.
  auto 30 with frame nocore.
Qed.

Lemma keeps_logger_makeOneGlyph (E : Externals) (self : nat)
  (args : list pyobj) (kwargs : dict) :
  keeps_logger (makeOneGlyph E self args kwargs).
Proof.
  unfold makeOneGlyph, makeOneGlyph_function. auto 40 with frame nocore.
Qed.

(** X28.  An operator that [__init__] returns has a logger whenever [debug]
    is set, and no method assigns [self.debug] or [self.logger]: loading and
    updating fonts, reading a document, adding to it, invalidating the
    cache, the info mutator, the font proportions and [makeOneGlyph] all
    leave the two attributes as they were, whether they return or raise.
    So the guarded calls of the logger never fail on such an operator. *)
Theorem methods_keep_debug_and_logger (E : Externals) (self : nat) :
  (forall pathOrObject ufoVersion useVarlib debug o,
     __init__ pathOrObject ufoVersion useVarlib debug = Ok o ->
     can_log o = true)
  /\ (forall reload, keeps_logger (loadFonts E self reload))
  /\ (forall fontObjects, keeps_logger (updateFonts self fontObjects))
  /\ (forall document, keeps_logger (read self document))
  /\ (forall a, keeps_logger (addAxis self a))
  /\ (forall s, keeps_logger (addSource self s))
  /\ (forall i, keeps_logger (addInstance self i))
  /\ keeps_logger (changed self)
  /\ (forall glyphName, keeps_logger (glyphChanged self glyphName))
  /\ (forall args kwargs, keeps_logger (getInfoMutator E self args kwargs))
  /\ (forall args kwargs,
        keeps_logger (makeFontProportions E self args kwargs))
  /\ (forall args kwargs, keeps_logger (makeOneGlyph E self args kwargs)).
Proof.
  split.
  { intros pathOrObject version varlib dbg o. unfold __init__, can_log.
    destruct dbg.
    - destruct (DesignSpaceDocument.path _); [|discriminate].
      now intros [= <-].
    - now intros [= <-]. }
  repeat match goal with |- _ /\ _ => split end; intros.
  - apply keeps_logger_loadFonts.
  - apply keeps_logger_updateFonts.
  - unfold read. auto with frame nocore.
  - now apply keeps_logger_self_set.
  - now apply keeps_logger_self_set.
  - now apply keeps_logger_self_set.
  - apply keeps_logger_of_operator, keeps_changed.
  - apply keeps_logger_of_operator, keeps_glyphChanged.
  - apply keeps_logger_getInfoMutator.
  - apply keeps_logger_makeFontProportions.
  - apply keeps_logger_makeOneGlyph.
Qed.

(** ** The bias of the glyph mutator, through the call *)







Lemma absent_ret (k : Key) (A : Type) (a : A) : keeps_absent k (ret a).
Proof. now intros w. Qed.

Lemma absent_raise (k : Key) (A : Type) (e : exn) :
  keeps_absent k (@raise A e).
Proof. now intros w. Qed.

Lemma absent_lift (k : Key) (A : Type) (r : res A) : keeps_absent k (lift r).
Proof. now intros w. Qed.

Lemma absent_self_attr (k : Key) (A : Type) (f : UFOOperator -> A) :
  keeps_absent k (self_attr f).
Proof. now intros w. Qed.

Lemma absent_logger_call (k : Key) (method : string) :
  keeps_absent k (logger_call method).
Proof. intros w. unfold logger_call. now destruct (logger (this w)). Qed.

Lemma absent_debug_log (k : Key) (method : string) :
  keeps_absent k (debug_log method).
Proof.
  intros w. unfold debug_log.
  destruct (debug (this w)); [apply absent_logger_call | trivial].
Qed.

Lemma absent_bind (k : Key) (A B : Type) (c : M A) (f : A -> M B) :
  keeps_absent k c -> (forall a, keeps_absent k (f a)) ->
  keeps_absent k (bind c f).
Proof.
  intros Hc Hf w Hw. unfold bind. specialize (Hc w Hw).
  destruct (c w) as [[a|e] w']; simpl in *; [now apply Hf | exact Hc].
Qed.

Lemma absent_foldM (k : Key) (A B : Type) (f : B -> A -> M B) (l : list A) :
  (forall acc x, keeps_absent k (f acc x)) ->
  forall acc, keeps_absent k (foldM f acc l).
Proof.
  intros Hf. induction l as [|x l IH]; intros acc; simpl.
  - apply absent_ret.
  - apply absent_bind; [apply Hf | exact IH].
Qed.


#[local] Hint Resolve absent_ret absent_raise absent_lift absent_self_attr
  absent_logger_call absent_debug_log absent_bind absent_foldM : absent.
#[local] Hint Extern 1 (keeps_absent _ (match ?x with _ => _ end)) =>
  destruct x : absent.






(** ** The further properties at the scenarios *)

Lemma has_leading_argument_checked (cache : list (Key * Cached)) :
  forallb
    (fun kv : Key * Cached =>
       negb (glyph_scoped (key_name (fst kv)))
       || match key_leading_argument (fst kv) with
          | Ok _ => true
          | Raise _ => false
          end)
    cache = true ->
  forall kv, In kv cache -> has_leading_argument (fst kv).
Proof.
  intros Hall kv Hin Hscoped.
  assert (H := proj1 (forallb_forall _ cache) Hall kv Hin).
  cbv beta in H. rewrite Hscoped in H. cbn [negb orb] in H.
  destruct (key_leading_argument (fst kv)) as [x|e]; [now exists x|].
  discriminate H.
Defined.

(** X1 at the sources of the glyph [a]. *)
Lemma collectSourcesForGlyph_repeated_call :
  let w1 := a_collected in
  fst (collectSourcesForGlyph scenario 1 [PStr "a"] [] fonts_loaded)
  = Ok sources_of_a
  /\ collectSourcesForGlyph scenario 1 [PStr "a"] [] w1
     = (Ok sources_of_a,
        with_stats
          (count_hit (make_key "collectSourcesForGlyph" 1 [PStr "a"] [])
             (_memoizeStats w1))
          w1).
Proof.
  assert (Hcall : fst (collectSourcesForGlyph scenario 1 [PStr "a"] []
                         fonts_loaded)
                  = Ok sources_of_a) by (vm_compute; reflexivity).
  split; [exact Hcall|].
  exact (@memoize_repeated_call "collectSourcesForGlyph"
           (collectSourcesForGlyph_function scenario) 1 [PStr "a"] []
           fonts_loaded sources_of_a Hcall).
Defined.

(** X3 at the list of the sources of operator 1. *)
Lemma changed_forces_listing_again :
  let key := make_key "findSourceDescriptorsForDiscreteLocation" 1 [] [] in
  let w' := snd (changed 1 sources_listed) in
  cache_get key (_memoizeCache sources_listed) <> None
  /\ cache_get key (_memoizeCache w') = None
  /\ findSourceDescriptorsForDiscreteLocation 1 [] [] w'
     = match findSourceDescriptorsForDiscreteLocation_function 1 [] [] w' with
       | (Ok result, w'') =>
           (Ok result,
            with_cache (cache_set key result (_memoizeCache w'')) w'')
       | (Raise e, w'') => (Raise e, w'')
       end.
Proof.
  split; [vm_compute; discriminate|].
  exact (@changed_forces_recomputation
           "findSourceDescriptorsForDiscreteLocation"
           findSourceDescriptorsForDiscreteLocation_function 1 [] []
           sources_listed eq_refl).
Defined.

(** X4 at the two operators, for the glyph [a]. *)
Lemma glyphChanged_keeps_exactly_at_two_operators :
  fst (glyphChanged 1 (PStr "a") two_operators) = Ok tt
  /\ forall k v,
       In (k, v)
         (_memoizeCache (snd (glyphChanged 1 (PStr "a") two_operators)))
       <-> In (k, v) (_memoizeCache two_operators)
           /\ glyph_entry (PStr "a") k = false.
Proof.
  apply (proj1 (glyphChanged_keeps_exactly 1 (PStr "a") two_operators)).
  apply has_leading_argument_checked. vm_compute. reflexivity.
Defined.

(** X5 after the glyph name was given by keyword: [glyphChanged] raises for
    another glyph too. *)
Lemma glyphChanged_raises_after_keyword_call :
  map key_args (map fst (_memoizeCache a_by_keyword)) = [[]; []]
  /\ fst (glyphChanged 1 (PStr "b") a_by_keyword) = Raise IndexError.
Proof.
  split; [vm_compute; reflexivity|].
  apply (@glyphChanged_raises_IndexError 1 (PStr "b") a_by_keyword
           (make_key "collectSourcesForGlyph" 1 [] [("glyphName", PStr "a")])
           sources_of_a).
  - vm_compute. right. left. reflexivity.
  - reflexivity.
  - reflexivity.
Defined.

(** X8 at a location with a weight and a width. *)
Lemma splitLocation_of_weight_and_width :
  splitLocation (operator with_width false)
    [("weight", PInt 500); ("width", PInt 1)]
  = ([("weight", PInt 500)], Some [("width", PInt 1)]).
Proof.
  apply (@splitLocation_partitions (operator with_width false)
           [("weight", PInt 500); ("width", PInt 1)]).
  simpl. constructor; [intros [H|[]]; discriminate H|].
  constructor; [intros []|]. constructor.
Defined.

(** X10 for the discrete location [{"width": 1}]. *)
Lemma newDefaultLocation_at_width_1 :
  newDefaultLocation_function 1 []
    [("bend", PTrue); ("discreteLocation", PDict [("width", PInt 1)])]
    (fresh (operator with_width false))
  = (Ok (CValue (PDict [("weight", PInt 400); ("width", PInt 1)])),
     fresh (operator with_width false)).
Proof.
  apply (@newDefaultLocation_entries 1 PTrue (Some [("width", PInt 1)])
           (fresh (operator with_width false))).
  simpl. constructor; [intros [H|[]]; discriminate H|].
  constructor; [intros []|]. constructor.
Defined.

(** X11 at the designspace with a weight and a width. *)
Lemma ordered_axes_of_with_width :
  getOrderedDiscreteAxes (operator with_width false) = [width_axis]
  /\ getOrderedContinuousAxes (operator with_width false) = [weight_axis].
Proof.
  apply (@ordered_axes_partition (operator with_width false)).
  simpl. constructor; [intros [H|[]]; discriminate H|].
  constructor; [intros []|]. constructor.
Defined.

(** X13 at a location with a pair for the weight. *)
Lemma splitAnisotropic_of_a_pair :
  splitAnisotropic_function 1
    [PDict [("weight", PTuple [PInt 300; PInt 700]); ("width", PInt 1)]] []
    (fresh (operator with_width false))
  = (Ok (CValue
           (PTuple [PDict [("weight", PInt 300); ("width", PInt 1)];
                    PDict [("weight", PInt 700); ("width", PInt 1)]])),
     fresh (operator with_width false)).
Proof.
  apply (@splitAnisotropic_entries 1
           [("weight", PTuple [PInt 300; PInt 700]); ("width", PInt 1)]
           (fresh (operator with_width false))).
  - simpl. constructor; [intros [H|[]]; discriminate H|].
    constructor; [intros []|]. constructor.
  - intros kv [<-|[<-|[]]]; reflexivity.
Defined.

(** X14 at a tuple of one item. *)
Lemma splitAnisotropic_of_a_single :
  splitAnisotropic_function 1 [PDict [("weight", PTuple [PInt 300])]] []
    (fresh (operator with_width false))
  = (Raise IndexError, fresh (operator with_width false)).
Proof.
  apply (@splitAnisotropic_short_tuple 1 [("weight", PTuple [PInt 300])]
           "weight" (PTuple [PInt 300]) (fresh (operator with_width false))).
  - left. reflexivity.
  - reflexivity.
Defined.

(** X15 at a location without pairs. *)
Lemma splitAnisotropic_of_a_plain_location :
  splitAnisotropic_function 1 [PDict [("weight", PInt 500)]] []
    (fresh (operator with_width false))
  = (Ok (CValue (PTuple [PDict [("weight", PInt 500)];
                         PDict [("weight", PInt 500)]])),
     fresh (operator with_width false)).
Proof.
  apply (@splitAnisotropic_of_isotropic 1 [("weight", PInt 500)]
           (fresh (operator with_width false))).
  - simpl. constructor; [intros []|]. constructor.
  - reflexivity.
Defined.

(** X16 at the default weight. *)
Lemma isLocalDefault_at_weight_400 :
  isLocalDefault (operator with_width false) [] = Ok true
  /\ exists isDefault,
       isLocalDefault (operator with_width false) [("weight", PInt 400)]
       = Ok isDefault
       /\ (isDefault = true
           <-> forall name value,
                 In (name, value) [("weight", PInt 400)] ->
                 exists a,
                   In a (DesignSpaceDocument.axes
                           (doc (operator with_width false)))
                   /\ AxisDescriptor.name a = name
                   /\ AxisDescriptor.default a = value).
Proof.
  apply (@isLocalDefault_of_declared_axes (operator with_width false)
           [("weight", PInt 400)]).
  - simpl. constructor; [intros [H|[]]; discriminate H|].
    constructor; [intros []|]. constructor.
  - intros kv [<-|[]]. left. reflexivity.
Defined.

(** X17 at locations with an axis [slant] that the document lacks: after
    the weight at its default the name is looked up, after a weight off its
    default it is not. *)
Lemma isLocalDefault_with_slant :
  let o := operator light_then_regular false in
  isLocalDefault o [("weight", PInt 400); ("slant", PInt 0)]
  = Raise (KeyError (PStr "slant"))
  /\ isLocalDefault o [("weight", PInt 100); ("slant", PInt 0)] = Ok false.
Proof.
  split.
  - apply (proj1 (proj1 (isLocalDefault_undeclared_axis
                           (operator light_then_regular false))
                    [("weight", PInt 400)] [] "slant" (PInt 0)
                    ltac:(intros n v [[= <- <-]|[]]; reflexivity))).
    intros [H|[]]. discriminate H.
  - apply (proj2 (proj1 (isLocalDefault_undeclared_axis
                           (operator light_then_regular false))
                    [] [("slant", PInt 0)] "weight" (PInt 100)
                    ltac:(intros n v []))
             (PInt 400)); [reflexivity | discriminate].
Defined.

(** X18 with the weight muted, at the light source's location. *)
Lemma filterThisLocation_with_weight_muted :
  filterThisLocation (operator with_width false)
    [("weight", PInt 100); ("width", PInt 0)] (Some ["weight"; "slant"])
  = Ok (true, [("width", PInt 0)]).
Proof.
  apply (@filterThisLocation_removes_muted_axes (operator with_width false)
           [("weight", PInt 100); ("width", PInt 0)] ["weight"; "slant"]).
  - simpl. constructor; [intros [H|[]]; discriminate H|].
    constructor; [intros []|]. constructor.
  - constructor; [intros [H|[]]; discriminate H|].
    constructor; [intros []|]. constructor.
Defined.

(** X19 with the weight muted twice. *)
Lemma filterThisLocation_with_weight_muted_twice :
  exists raised,
    filterThisLocation (operator light_then_regular false)
      [("weight", PInt 100)] (Some ([] ++ "weight" :: [] ++ "weight" :: []))
    = Raise (KeyError (PStr raised)).
Proof.
  apply (@filterThisLocation_raises_on_repeated_name
           (operator light_then_regular false) [("weight", PInt 100)]
           "weight" [] [] []).
  - simpl. constructor; [intros []|]. constructor.
  - reflexivity.
  - left. reflexivity.
Defined.

(** X21 where the regular source mutes [a] and the operator has no logger:
    [makeOneGlyph("a", ..., useVarlib=False)] raises, and the operator, made
    with [useVarlib=True], is left with [useVarlib] false. *)
Lemma makeOneGlyph_leaves_useVarlib_false :
  let result :=
    makeOneGlyph_function scenario 1
      [PStr "a"; PDict [("weight", PInt 500)]] [("useVarlib", PFalse)]
      muted_a_loaded in
  fst result = Raise (AttributeError "info")
  /\ useVarlib (this muted_a_loaded) = PTrue
  /\ useVarlib (this (snd result)) = PFalse.
Proof.
  assert (H := @makeOneGlyph_leaves_useVarlib_set scenario 1
                 [PStr "a"; PDict [("weight", PInt 500)]]
                 [("useVarlib", PFalse)] muted_a_loaded
                 [("glyphName", PStr "a");
                  ("location", PDict [("weight", PInt 500)]);
                  ("bend", PFalse); ("decomposeComponents", PTrue);
                  ("useVarlib", PFalse); ("roundGeometry", PFalse);
                  ("clip", PFalse)]
                 [] [("weight", PInt 500)] eq_refl eq_refl eq_refl).
  cbv zeta in H.
  assert (Hr : fst (makeOneGlyph_function scenario 1
                      [PStr "a"; PDict [("weight", PInt 500)]]
                      [("useVarlib", PFalse)] muted_a_loaded)
               = Raise (AttributeError "info")) by (vm_compute; reflexivity).
  rewrite Hr in H. cbv zeta.
  split; [exact Hr|]. split; [reflexivity|]. rewrite H. reflexivity.
Defined.


(** X23 after the fonts were loaded: the glyph names [a] and [b] are
    forgotten. *)
Lemma loadFonts_reload_after_loading :
  let w' := snd (loadFonts scenario 1 true fonts_loaded) in
  glyphNames (this fonts_loaded) = Some ["a"; "b"]
  /\ fst (loadFonts scenario 1 true fonts_loaded) = Ok tt
  /\ glyphNames (this w') = Some []
  /\ fonts (this w') = fonts (this fonts_loaded)
  /\ DesignSpaceDocument.sources (doc (this w'))
     = DesignSpaceDocument.sources (doc (this fonts_loaded))
  /\ _memoizeCache w' = _memoizeCache fonts_loaded.
Proof.
  split; [vm_compute; reflexivity|].
  apply (@loadFonts_reload_empties_glyphNames scenario 1 fonts_loaded);
    vm_compute; reflexivity.
Defined.

(** X24 with the regular font as an editor has it open. *)
Lemma updateFonts_with_regular_open :
  let w' := snd (updateFonts 1 [regular_open] a_collected) in
  fst (updateFonts 1 [regular_open] a_collected) = Ok tt
  /\ fonts (this w')
     = map (updated regular_open) (fonts (this a_collected))
  /\ _memoizeCache w'
     = if existsb (replaced regular_open) (fonts (this a_collected))
       then filter (fun kv => negb (Nat.eqb (key_self (fst kv)) 1))
              (_memoizeCache a_collected)
       else _memoizeCache a_collected.
Proof.
  apply (@updateFonts_replaces_by_path 1 regular_open a_collected).
  - vm_compute. constructor; [intros [H|[]]; discriminate H|].
    constructor; [intros []|]. constructor.
  - vm_compute. reflexivity.
  - vm_compute. reflexivity.
Defined.

(** X26 at the layer [support] of the regular font. *)
Lemma collectSourcesForGlyph_step_at_layer :
  collectSourcesForGlyph_step scenario (PStr "a") PFalse
    {| items := []; empties := []; foundEmpty := false; unicodes := [] |}
    layer_of_regular with_layer
  = (Raise (NameError "getLayer"), with_layer).
Proof.
  apply (@collectSourcesForGlyph_step_raises_for_layer scenario (PStr "a")
           PFalse
           {| items := []; empties := []; foundEmpty := false;
              unicodes := [] |}
           layer_of_regular with_layer "regular.support" "support"
           (font_of 2 "regular.ufo"
              [("a", glyph_with "a" 97 triangle);
               ("b", glyph_with "b" 98 triangle)])
           (glyph_with "a" 97 triangle) false [("weight", PInt 700)]);
    vm_compute; reflexivity.
Defined.

(** X27 on a new operator. *)
Lemma getInfoMutator_on_a_new_operator :
  getInfoMutator_function scenario 1 [] []
    (fresh (operator light_then_regular false))
  = (Raise (KeyError (PStr "light")),
     fresh (operator light_then_regular false)).
Proof.
  apply (@getInfoMutator_raises_before_loadFonts scenario 1
           (fresh (operator light_then_regular false))
           (source_at "light" 100 [])); reflexivity.
Defined.

(** ** The bias of the glyph mutator at the scenarios *)


